(** * TaskGraph: the graph interaction engine (graph.ts), embedded in Rocq

    The development follows [graph.ts]: the DOM the module manipulates is an
    explicit store ([Model]), the functions of the module are functions on
    that store, and the closures registered as pointer listeners are records
    holding their captured variables.

    Conventions of the embedding.
    - JavaScript numbers are idealised as rationals ([Q]); rounding is not
      modelled, except in the module [binary64], which recomputes the zoom
      steps of the specification on IEEE 754 doubles.
    - DOM elements are object references: an element is a key ([nat]) of a
      store, [taskElements] for the [div.task] elements and [pathElements]
      for the SVG [path] elements.  Two tasks with the same text are two
      keys.  A key that was never written denotes the blank element a fresh
      [createElement] returns.
    - [itemsContainer] and [arrows] are the child lists of the two
      containers, in document order.
    - What the browser computes (layout sizes, hit testing) and the parts of
      [geometry.ts] that the specification leaves open are fields of the
      class [Browser]. *)

From Stdlib Require Import QArith Qround Lqa Permutation SpecFloat.
From stdpp Require Import gmap strings list fin_maps.

(** ** geometry.ts *)

Module geometry.

Record Point : Type := { x : Q; y : Q }.

Record Box : Type := { left : Q; top : Q; right : Q; bottom : Q }.

(** Modelled from the spec: [squaredDistance] of geometry.ts, which is not
    part of the sources at hand ("sum of squared coordinate differences"). *)
Definition squaredDistance (p q : Point) : Q :=
  ((x p - x q) * (x p - x q) + (y p - y q) * (y p - y q))%Q.

(** Modelled from the spec: [getBoxCenter] of geometry.ts ("bounding-box
    center"). *)
Definition getBoxCenter (b : Box) : Point :=
  {| x := (left b + right b) / 2; y := (top b + bottom b) / 2 |}%Q.

(** Modelled from the spec: [getExpandedBox] of geometry.ts ("grows a box by
    margin on all four sides"). *)
Definition getExpandedBox (b : Box) (margin : Q) : Box :=
  {| left := left b - margin; top := top b - margin;
     right := right b + margin; bottom := bottom b + margin |}%Q.

End geometry.

(** ** misc.ts

    [removeFromArray] and [snap] are taken from the JavaScript version of the
    module, where they are defined in line. *)

Module misc.

(** [array.indexOf(element)]: the first index holding [element]. *)
Fixpoint indexOf (array : list nat) (element : nat) : option nat :=
  match array with
  | [] => None
  | a :: rest =>
      if decide (a = element) then Some 0
      else S <$> indexOf rest element
  end.

(** [array.splice(array.indexOf(element), 1)].  When [element] is absent
    [indexOf] is [-1] and [splice(-1, 1)] removes the last entry. *)
Definition removeFromArray (array : list nat) (element : nat) : list nat :=
  match indexOf array element with
  | Some i => delete i array
  | None => removelast array
  end.

Definition Qltb (a b : Q) : bool :=
  match (a ?= b)%Q with Lt => true | _ => false end.

(** [snap(target)(offset)(value)]: snaps [value] to [target] if close to
    [target] by less than [offset]. *)
Definition snap (target offset value : Q) : Q :=
  if Qltb (target - offset) value && Qltb value (target + offset)
  then target else value.

End misc.

(** ** IEEE 754 binary64

    The numbers of JavaScript, for checking the zoom steps of the
    specification as the engine computes them. *)

Module binary64.

Definition prec : Z := 53.
Definition emax : Z := 1024.

Definition ofZ (n : Z) : spec_float :=
  match n with
  | Z0 => S754_zero false
  | _ => binary_normalize prec emax n 0 false
  end.

(** The literal [n/d] for integers that are exact in binary64: the
    quotient rounded to nearest, as a decimal literal is read. *)
Definition literal (n d : Z) : spec_float := SFdiv prec emax (ofZ n) (ofZ d).

Definition mul : spec_float -> spec_float -> spec_float := SFmul prec emax.
Definition add : spec_float -> spec_float -> spec_float := SFadd prec emax.
Definition sub : spec_float -> spec_float -> spec_float := SFsub prec emax.

(** [snap] of misc.ts on binary64 numbers. *)
Definition snap (target offset value : spec_float) : spec_float :=
  if SFltb (sub target offset) value && SFltb value (add target offset)
  then target else value.

(** The wheel step: [snap(1)(0.1)(zoom * factor)]. *)
Definition zoomStep (zoom factor : spec_float) : spec_float :=
  snap (ofZ 1) (literal 1 10) (mul zoom factor).

End binary64.

(** ** The DOM of graph.ts *)

Inductive PathData : Type :=
| NoData                                   (* attribute [d] never set *)
| EmptyData                                (* [d = ""] *)
| Segment (a b : geometry.Point).          (* [d = "Ma.x,a.y Lb.x,b.y"] *)

(** [HTMLTaskElement]: a [div] with its text, class list, [style.left] and
    [style.top] (in px) and the two adjacency arrays. *)
Record HTMLTaskElement : Type := {
  textContent : string;
  classList : gset string;
  style_left : Q;
  style_top : Q;
  from : list nat;
  to : list nat
}.

(** [HTMLDependencyElement]: an SVG [path]; [from] and [to] are undefined
    until assigned. *)
Record HTMLDependencyElement : Type := {
  path_from : option nat;
  path_to : option nat;
  path_d : PathData
}.

Inductive Status : Type := todo | completed.

Record Task : Type := {
  name : string;
  status : Status;
  pos : geometry.Point
}.

(** [AddTask extends Partial<Task>]: only the name is required. *)
Record AddTask : Type := {
  add_name : string;
  add_status : option Status;
  add_pos : option geometry.Point
}.

Record Dependency : Type := {
  predecessor : string;
  successor : string
}.

Record Graph : Type := {
  tasks : list Task;
  dependencies : list Dependency
}.

Inductive Element : Type :=
| TaskElement (e : nat)
| PathElement (e : nat)
| OtherElement.

Inductive CustomEvent : Type :=
| selectionchanged (detail : list nat)
| taskmoved (task : nat)
| newdependency.

Inductive JsError : Type := TypeError | NotFoundError.

Inductive ConsoleEntry : Type :=
| ErrorMessage (message : string) (dependency : Dependency)
| Uncaught (e : JsError).

Record PointerEvent : Type := {
  pointerId : Z;
  clientX : Q;
  clientY : Q;
  offsetX : Q;
  offsetY : Q;
  pageX : Q;
  pageY : Q;
  shiftKey : bool;
  target : option Element
}.

(** The listeners a [pointerdown] registers on [itemsContainer], each with
    the variables its closures capture. *)
Inductive Listener : Type :=
| GraphDrag (previousPosition : geometry.Point)
| LinkCreation (task : nat) (pid : Z) (path : nat) (moved : bool)
| TaskDrag (task : nat) (pid : Z) (initialPosition : geometry.Point)
    (offX offY : Q) (moved : bool).

Record Panzoom : Type := {
  pan : geometry.Point;
  zoom : Q
}.

Record Model : Type := {
  taskElements : gmap nat HTMLTaskElement;
  pathElements : gmap nat HTMLDependencyElement;
  itemsContainer : list nat;
  arrows : list nat;
  panzoom : Panzoom;
  linkModeCheckbox : bool;
  listeners : list Listener;
  dispatched : list CustomEvent;
  console : list ConsoleEntry
}.

(** *** Field updates *)

Definition set_taskElements (f : gmap nat HTMLTaskElement -> gmap nat HTMLTaskElement)
    (m : Model) : Model :=
  {| taskElements := f (taskElements m); pathElements := pathElements m;
     itemsContainer := itemsContainer m; arrows := arrows m;
     panzoom := panzoom m; linkModeCheckbox := linkModeCheckbox m;
     listeners := listeners m; dispatched := dispatched m;
     console := console m |}.

Definition set_pathElements
    (f : gmap nat HTMLDependencyElement -> gmap nat HTMLDependencyElement)
    (m : Model) : Model :=
  {| taskElements := taskElements m; pathElements := f (pathElements m);
     itemsContainer := itemsContainer m; arrows := arrows m;
     panzoom := panzoom m; linkModeCheckbox := linkModeCheckbox m;
     listeners := listeners m; dispatched := dispatched m;
     console := console m |}.

Definition set_itemsContainer (f : list nat -> list nat) (m : Model) : Model :=
  {| taskElements := taskElements m; pathElements := pathElements m;
     itemsContainer := f (itemsContainer m); arrows := arrows m;
     panzoom := panzoom m; linkModeCheckbox := linkModeCheckbox m;
     listeners := listeners m; dispatched := dispatched m;
     console := console m |}.

Definition set_arrows (f : list nat -> list nat) (m : Model) : Model :=
  {| taskElements := taskElements m; pathElements := pathElements m;
     itemsContainer := itemsContainer m; arrows := f (arrows m);
     panzoom := panzoom m; linkModeCheckbox := linkModeCheckbox m;
     listeners := listeners m; dispatched := dispatched m;
     console := console m |}.

Definition set_panzoom (f : Panzoom -> Panzoom) (m : Model) : Model :=
  {| taskElements := taskElements m; pathElements := pathElements m;
     itemsContainer := itemsContainer m; arrows := arrows m;
     panzoom := f (panzoom m); linkModeCheckbox := linkModeCheckbox m;
     listeners := listeners m; dispatched := dispatched m;
     console := console m |}.

Definition set_listeners (f : list Listener -> list Listener) (m : Model) : Model :=
  {| taskElements := taskElements m; pathElements := pathElements m;
     itemsContainer := itemsContainer m; arrows := arrows m;
     panzoom := panzoom m; linkModeCheckbox := linkModeCheckbox m;
     listeners := f (listeners m); dispatched := dispatched m;
     console := console m |}.

Definition set_dispatched (f : list CustomEvent -> list CustomEvent) (m : Model) : Model :=
  {| taskElements := taskElements m; pathElements := pathElements m;
     itemsContainer := itemsContainer m; arrows := arrows m;
     panzoom := panzoom m; linkModeCheckbox := linkModeCheckbox m;
     listeners := listeners m; dispatched := f (dispatched m);
     console := console m |}.

Definition set_console (f : list ConsoleEntry -> list ConsoleEntry) (m : Model) : Model :=
  {| taskElements := taskElements m; pathElements := pathElements m;
     itemsContainer := itemsContainer m; arrows := arrows m;
     panzoom := panzoom m; linkModeCheckbox := linkModeCheckbox m;
     listeners := listeners m; dispatched := dispatched m;
     console := f (console m) |}.

Definition set_linkModeCheckbox (b : bool) (m : Model) : Model :=
  {| taskElements := taskElements m; pathElements := pathElements m;
     itemsContainer := itemsContainer m; arrows := arrows m;
     panzoom := panzoom m; linkModeCheckbox := b;
     listeners := listeners m; dispatched := dispatched m;
     console := console m |}.

(** What [document.createElement("div")] returns. *)
Definition blankTask : HTMLTaskElement :=
  {| textContent := ""; classList := ∅; style_left := 0; style_top := 0;
     from := []; to := [] |}.

(** What [document.createElementNS(svg, "path")] returns. *)
Definition blankPath : HTMLDependencyElement :=
  {| path_from := None; path_to := None; path_d := NoData |}.

Definition taskOf (m : Model) (e : nat) : HTMLTaskElement :=
  default blankTask (taskElements m !! e).

Definition pathOf (m : Model) (e : nat) : HTMLDependencyElement :=
  default blankPath (pathElements m !! e).

Definition updateTask (f : HTMLTaskElement -> HTMLTaskElement) (e : nat)
    (m : Model) : Model :=
  set_taskElements (insert e (f (taskOf m e))) m.

Definition updatePathElement (f : HTMLDependencyElement -> HTMLDependencyElement)
    (e : nat) (m : Model) : Model :=
  set_pathElements (insert e (f (pathOf m e))) m.

Definition set_classList (f : gset string -> gset string)
    (t : HTMLTaskElement) : HTMLTaskElement :=
  {| textContent := textContent t; classList := f (classList t);
     style_left := style_left t; style_top := style_top t;
     from := from t; to := to t |}.

Definition set_style (p : geometry.Point) (t : HTMLTaskElement) : HTMLTaskElement :=
  {| textContent := textContent t; classList := classList t;
     style_left := geometry.x p; style_top := geometry.y p;
     from := from t; to := to t |}.

Definition set_from (f : list nat -> list nat) (t : HTMLTaskElement) : HTMLTaskElement :=
  {| textContent := textContent t; classList := classList t;
     style_left := style_left t; style_top := style_top t;
     from := f (from t); to := to t |}.

Definition set_to (f : list nat -> list nat) (t : HTMLTaskElement) : HTMLTaskElement :=
  {| textContent := textContent t; classList := classList t;
     style_left := style_left t; style_top := style_top t;
     from := from t; to := f (to t) |}.

Definition set_path_to (s : option nat) (p : HTMLDependencyElement) : HTMLDependencyElement :=
  {| path_from := path_from p; path_to := s; path_d := path_d p |}.

Definition set_path_d (v : PathData) (p : HTMLDependencyElement) : HTMLDependencyElement :=
  {| path_from := path_from p; path_to := path_to p; path_d := v |}.

(** [classList.add], [classList.remove], [classList.toggle],
    [classList.contains]. *)
Definition classAdd (c : string) (s : gset string) : gset string := s ∪ {[c]}.
Definition classRemove (c : string) (s : gset string) : gset string := s ∖ {[c]}.
Definition contains (c : string) (s : gset string) : bool := bool_decide (c ∈ s).
Definition classToggle (c : string) (s : gset string) : gset string :=
  if contains c s then classRemove c s else classAdd c s.

(** ** Statements that may throw *)

Inductive outcome (A : Type) : Type :=
| Returned (a : A) (m : Model)
| Thrown (e : JsError) (m : Model).
Arguments Returned {A} a m.
Arguments Thrown {A} e m.

Definition JS (A : Type) : Type := Model -> outcome A.

Definition ret {A} (a : A) : JS A := fun m => Returned a m.

Definition throw {A} (e : JsError) : JS A := fun m => Thrown e m.

Definition bind {A B} (c : JS A) (k : A -> JS B) : JS B :=
  fun m => match c m with
           | Returned a m' => k a m'
           | Thrown e m' => Thrown e m'
           end.

(** A statement that cannot throw. *)
Definition exec (f : Model -> Model) : JS unit := fun m => Returned tt (f m).

Definition read {A} (f : Model -> A) : JS A := fun m => Returned (f m) m.

#[global] Instance JS_ret : MRet JS := @ret.
#[global] Instance JS_bind : MBind JS := fun A B k c => bind c k.

(** [array.forEach(f)] *)
Fixpoint forEach {A} (f : A -> JS unit) (array : list A) : JS unit :=
  match array with
  | [] => ret tt
  | a :: rest => f a ;; forEach f rest
  end.

(** The state an outcome leaves behind. *)
Definition stateOf {A} (o : outcome A) : Model :=
  match o with Returned _ m => m | Thrown _ m => m end.

(** ** The browser *)

Class Browser : Type := {
  (** [offsetWidth] and [offsetHeight] of a task box showing the text. *)
  offsetWidth : string -> Q;
  offsetHeight : string -> Q;
  (** [getOffsetBox(graphContainer)]: the viewport. *)
  graphContainerBox : geometry.Box;
  (** [intersectLineBox] of geometry.ts. *)
  intersectLineBox :
    geometry.Point -> geometry.Point -> geometry.Box -> option geometry.Point;
  (** [document.elementFromPoint(x, y)] for the document as it stands. *)
  elementFromPoint : Model -> Q -> Q -> option Element
}.

(** ** graph.ts *)

Section graph.
Context `{Browser}.

Definition set_textContent (s : string) (t : HTMLTaskElement) : HTMLTaskElement :=
  {| textContent := s; classList := classList t;
     style_left := style_left t; style_top := style_top t;
     from := from t; to := to t |}.

Definition set_path_ends (a b : option nat) (p : HTMLDependencyElement)
    : HTMLDependencyElement :=
  {| path_from := a; path_to := b; path_d := path_d p |}.

(** Modelled from the spec: [getOffsetBox] of geometry.ts, which is not part
    of the sources at hand.  The box of a task starts at its [style.left],
    [style.top] (its world position) and has the size the browser lays out. *)
Definition getOffsetBox (m : Model) (e : nat) : geometry.Box :=
  let t := taskOf m e in
  {| geometry.left := style_left t;
     geometry.top := style_top t;
     geometry.right := style_left t + offsetWidth (textContent t);
     geometry.bottom := style_top t + offsetHeight (textContent t) |}%Q.

Definition getTasks (m : Model) : list nat :=
  filter (fun e => "task" ∈ classList (taskOf m e)) (itemsContainer m).

(** Only [path] elements are ever appended to [arrows]. *)
Definition getDependencies (m : Model) : list nat := arrows m.

(** [parent.removeChild(e)] for a child [e]; a node occurs once among the
    children of its parent. *)
Definition removeChild (e : nat) (children : list nat) : list nat :=
  filter (fun c => c ≠ e) children.

Definition clearGraph (m : Model) : Model :=
  let tasks := getTasks m in
  let m1 := foldl (fun m e => set_itemsContainer (removeChild e) m) m tasks in
  let dependencies := getDependencies m1 in
  foldl (fun m e => set_arrows (removeChild e) m) m1 dependencies.

Definition getViewCenter (m : Model) : geometry.Point :=
  let box := graphContainerBox in
  let viewCenter := geometry.getBoxCenter box in
  {| geometry.x := geometry.x viewCenter - geometry.x (pan (panzoom m));
     geometry.y := geometry.y viewCenter - geometry.y (pan (panzoom m)) |}%Q.

Definition computeCenteredPos (m : Model) (element : nat) : geometry.Point :=
  let viewCenter := getViewCenter m in
  let width := offsetWidth (textContent (taskOf m element)) in
  let height := offsetHeight (textContent (taskOf m element)) in
  {| geometry.x := geometry.x viewCenter - width / 2;
     geometry.y := geometry.y viewCenter - height / 2 |}%Q.

(** A new element is a key that the store and the container do not use. *)
Definition createTaskElement (m : Model) : nat :=
  fresh (dom (taskElements m) ∪ list_to_set (itemsContainer m) : gset nat).

Definition createPathElement (m : Model) : nat :=
  fresh (dom (pathElements m) ∪ list_to_set (arrows m) : gset nat).

Definition addTask (task : AddTask) (m : Model) : nat * Model :=
  let htmlTask := createTaskElement m in
  let m := updateTask (set_classList (classAdd "task")) htmlTask m in
  let m := updateTask (set_textContent (add_name task)) htmlTask m in
  let m := updateTask (set_from (fun _ => [])) htmlTask m in
  let m := updateTask (set_to (fun _ => [])) htmlTask m in
  let m := match add_status task with
           | Some completed =>
               updateTask (set_classList (classAdd "completed")) htmlTask m
           | _ => m
           end in
  let m := set_itemsContainer (fun c => c ++ [htmlTask]) m in
  let pos := match add_pos task with
             | Some p => p
             | None => computeCenteredPos m htmlTask
             end in
  let m := updateTask (set_style pos) htmlTask m in
  (htmlTask, m).

(** [tasks.find((task) => task.textContent == text)] *)
Definition findTask (m : Model) (tasks : list nat) (text : string) : option nat :=
  List.find (fun task => bool_decide (textContent (taskOf m task) = text)) tasks.

Definition consoleError (message : string) (dependency : Dependency)
    (m : Model) : Model :=
  set_console (fun c => c ++ [ErrorMessage message dependency]) m.

(** updates the visual representation of path; if dest is specified, use
    instead of path.to *)
Definition updatePath (path : nat) (dest : option geometry.Point) : JS unit :=
  fun m =>
  match path_from (pathOf m path) with
  | None => Thrown TypeError m
  | Some a =>
      let nodeABox := getOffsetBox m a in
      let centerA := geometry.getBoxCenter nodeABox in
      let offset := 8%Q in
      let ends :=
        match dest with
        | Some dst => Some (dst, Some dst)
        | None =>
            match path_to (pathOf m path) with
            | None => None
            | Some b =>
                let nodeBBox := getOffsetBox m b in
                let centerB := geometry.getBoxCenter nodeBBox in
                Some (centerB,
                      intersectLineBox centerA centerB
                        (geometry.getExpandedBox nodeBBox offset))
            end
        end in
      match ends with
      | None => Thrown TypeError m
      | Some (centerB, pathPointB) =>
          let pathPointA :=
            intersectLineBox centerA centerB
              (geometry.getExpandedBox nodeABox offset) in
          match pathPointA, pathPointB with
          | Some pa, Some pb =>
              Returned tt (updatePathElement (set_path_d (Segment pa pb)) path m)
          | _, _ =>
              Returned tt (updatePathElement (set_path_d EmptyData) path m)
          end
      end
  end.

Definition addDependency (dependency : Dependency) : JS unit :=
  dependencyHtml ← read createPathElement;
  tasks ← read getTasks;
  predecessorEl ← read (fun m => findTask m tasks (predecessor dependency));
  match predecessorEl with
  | None =>
      exec (consoleError "Could not add dependency: predecessor not found"
              dependency)
  | Some predecessorEl =>
      successorEl ← read (fun m => findTask m tasks (successor dependency));
      match successorEl with
      | None =>
          exec (consoleError "Could not add dependency: successor not found."
                  dependency)
      | Some successorEl =>
          exec (updatePathElement
                  (set_path_ends (Some predecessorEl) (Some successorEl))
                  dependencyHtml);;
          exec (updateTask (set_from (fun a => a ++ [dependencyHtml]))
                  predecessorEl);;
          exec (updateTask (set_to (fun a => a ++ [dependencyHtml]))
                  successorEl);;
          exec (set_arrows (fun c => c ++ [dependencyHtml]));;
          updatePath dependencyHtml None
      end
  end.

(** [parent.removeChild(e)] throws when [e] is not a child. *)
Definition arrows_removeChild (e : nat) : JS unit :=
  fun m => if decide (e ∈ arrows m)
           then Returned tt (set_arrows (removeChild e) m)
           else Thrown NotFoundError m.

Definition itemsContainer_removeChild (e : nat) : JS unit :=
  fun m => if decide (e ∈ itemsContainer m)
           then Returned tt (set_itemsContainer (removeChild e) m)
           else Thrown NotFoundError m.

Definition deleteDependency (dependency : nat) : JS unit :=
  a ← read (fun m => path_from (pathOf m dependency));
  match a with
  | None => throw TypeError
  | Some a =>
      exec (updateTask
              (set_from (fun arr => misc.removeFromArray arr dependency)) a);;
      b ← read (fun m => path_to (pathOf m dependency));
      match b with
      | None => throw TypeError
      | Some b =>
          exec (updateTask
                  (set_to (fun arr => misc.removeFromArray arr dependency)) b);;
          arrows_removeChild dependency
      end
  end.

(** The two [forEach] passes of [deleteTask]. *)
Definition deleteIncident (task : nat) : JS unit :=
  fromSlice ← read (fun m => from (taskOf m task));
  forEach deleteDependency fromSlice;;
  toSlice ← read (fun m => to (taskOf m task));
  forEach deleteDependency toSlice.

Definition deleteTask (task : nat) : JS unit :=
  deleteIncident task;;
  itemsContainer_removeChild task.

Definition getSelected (m : Model) : list nat :=
  filter (fun e => "selected" ∈ classList (taskOf m e)) (getTasks m).

(** sends out a "selectionchanged" event; selection: if known by the caller,
    passthrough *)
Definition sendSelectionChanged (selection : option (list nat)) (m : Model) : Model :=
  set_dispatched
    (fun evs => evs ++ [selectionchanged
                          (match selection with
                           | Some s => s
                           | None => getSelected m
                           end)]) m.

Definition selectAll (m : Model) : Model :=
  let tasks := getTasks m in
  let m := foldl (fun m t => updateTask (set_classList (classAdd "selected")) t m)
             m tasks in
  sendSelectionChanged (Some tasks) m.

Definition deleteSelected : JS unit :=
  selected ← read getSelected;
  forEach deleteTask selected;;
  exec (sendSelectionChanged (Some [])).

Definition completeSelected (m : Model) : Model :=
  let selected := getSelected m in
  foldl (fun m task => updateTask (set_classList (classToggle "completed")) task m)
    m selected.

Definition resetSelected (m : Model) : Model :=
  let selectedTasks := getSelected m in
  foldl (fun m task => updateTask (set_classList (classRemove "selected")) task m)
    m selectedTasks.

Definition onTaskClicked (task : nat) (event : PointerEvent) (m : Model) : Model :=
  if shiftKey event then
    sendSelectionChanged None
      (updateTask (set_classList (classToggle "selected")) task m)
  else
    sendSelectionChanged (Some [task])
      (updateTask (set_classList (classAdd "selected")) task (resetSelected m)).

Definition asAddTask (t : Task) : AddTask :=
  {| add_name := name t; add_status := Some (status t); add_pos := Some (pos t) |}.

Definition loadGraph (graph : Graph) : JS unit :=
  exec clearGraph;;
  forEach (fun t => exec (fun m => snd (addTask (asAddTask t) m))) (tasks graph);;
  forEach addDependency (dependencies graph).

Definition taskRecord (m : Model) (e : nat) : Task :=
  let bb := getOffsetBox m e in
  {| name := textContent (taskOf m e);
     pos := {| geometry.x := geometry.left bb; geometry.y := geometry.top bb |};
     status := if contains "completed" (classList (taskOf m e))
               then completed else todo |}.

(** [e.from.textContent] and [e.to.textContent]; [None] stands for the
    TypeError of reading a property of undefined. *)
Definition dependencyRecord (m : Model) (e : nat) : option Dependency :=
  match path_from (pathOf m e), path_to (pathOf m e) with
  | Some a, Some b =>
      Some {| predecessor := textContent (taskOf m a);
              successor := textContent (taskOf m b) |}
  | _, _ => None
  end.

Definition getGraph : JS Graph :=
  fun m =>
  let tasksHtml := getTasks m in
  let tasks := map (taskRecord m) tasksHtml in
  let dependenciesHtml := getDependencies m in
  match mapM (dependencyRecord m) dependenciesHtml with
  | Some dependencies =>
      Returned {| tasks := tasks; dependencies := dependencies |} m
  | None => Thrown TypeError m
  end.

(** *** Pan and zoom *)

Definition set_pan (f : geometry.Point -> geometry.Point) (pz : Panzoom) : Panzoom :=
  {| pan := f (pan pz); zoom := zoom pz |}.

Definition set_zoom (f : Q -> Q) (pz : Panzoom) : Panzoom :=
  {| pan := pan pz; zoom := f (zoom pz) |}.

(** [updatePanzoom] writes [translate(pan.x px, pan.y px) scale(zoom)] as the
    transform of [itemsContainer]; this is the map that transform denotes,
    from the coordinates of the items to those of the viewport.  The origin
    of the transform is a property of the style sheet, which is not among
    the sources: it is an argument, and nothing is assumed about it. *)
Definition panzoomTransform (origin : geometry.Point) (pz : Panzoom)
    (p : geometry.Point) : geometry.Point :=
  {| geometry.x := geometry.x (pan pz) + geometry.x origin
                   + zoom pz * (geometry.x p - geometry.x origin);
     geometry.y := geometry.y (pan pz) + geometry.y origin
                   + zoom pz * (geometry.y p - geometry.y origin) |}%Q.

Definition onGraphDragStart (event : PointerEvent) (m : Model) : Model :=
  let previousPosition :=
    {| geometry.x := clientX event; geometry.y := clientY event |} in
  set_listeners (fun ls => ls ++ [GraphDrag previousPosition]) m.

(** The body of the wheel handler for a given factor:
    [panzoom.zoom = snap(1)(0.1)(panzoom.zoom * factor)]. *)
Definition applyZoomFactor (factor : Q) (m : Model) : Model :=
  set_panzoom (set_zoom (fun z => misc.snap 1 0.1 (z * factor)%Q)) m.

(** [graphContainer.onwheel] *)
Definition onwheel (deltaY : Q) (m : Model) : Model :=
  let factor := if misc.Qltb deltaY 0 then 1.1%Q else 0.9%Q in
  applyZoomFactor factor m.

Definition moveTask (task : nat) (pos : geometry.Point) : JS unit :=
  exec (updateTask (set_style pos) task);;
  paths ← read (fun m => from (taskOf m task) ++ to (taskOf m task));
  forEach (fun path => updatePath path None) paths.

(** *** Pointer interaction *)

(** An exception that escapes a listener is reported and the dispatch goes
    on with the state the listener left. *)
Definition reportUncaught {A} (o : outcome A) : Model :=
  match o with
  | Returned _ m => m
  | Thrown e m => set_console (fun c => c ++ [Uncaught e]) m
  end.

(** [target && target.classList.contains("task")] *)
Definition asTask (m : Model) (target : option Element) : option nat :=
  match target with
  | Some (TaskElement e) =>
      if contains "task" (classList (taskOf m e)) then Some e else None
  | _ => None
  end.

Definition set_path_from (a : option nat) (p : HTMLDependencyElement)
    : HTMLDependencyElement :=
  {| path_from := a; path_to := path_to p; path_d := path_d p |}.

(** [graphContainer.onpointerdown] *)
Definition onpointerdown (event : PointerEvent) (m : Model) : Model :=
  match asTask m (target event) with
  | None =>
      onGraphDragStart event (sendSelectionChanged (Some []) (resetSelected m))
  | Some task =>
      let initialPosition :=
        {| geometry.x := clientX event; geometry.y := clientY event |} in
      if shiftKey event || linkModeCheckbox m then
        (* Initiate link creation *)
        let path := createPathElement m in
        let m := updatePathElement (set_path_from (Some task)) path m in
        let m := set_arrows (fun c => c ++ [path]) m in
        set_listeners
          (fun ls => ls ++ [LinkCreation task (pointerId event) path false]) m
      else
        (* Initiate Drag *)
        let m := updateTask (set_classList (classAdd "dragged")) task m in
        set_listeners
          (fun ls => ls ++ [TaskDrag task (pointerId event) initialPosition
                              (offsetX event) (offsetY event) false]) m
  end.

(** The [pointermove] listener of each gesture; it returns the listener with
    its captured variables as the call leaves them. *)
Definition onPointerMove (l : Listener) (event : PointerEvent) (m : Model)
    : Listener * Model :=
  match l with
  | GraphDrag previousPosition =>
      let m :=
        set_panzoom
          (set_pan (fun p =>
             {| geometry.x := geometry.x p
                              + (clientX event - geometry.x previousPosition);
                geometry.y := geometry.y p
                              + (clientY event - geometry.y previousPosition) |}%Q))
          m in
      (GraphDrag {| geometry.x := clientX event; geometry.y := clientY event |}, m)
  | LinkCreation task pid path moved =>
      if decide (pointerId event = pid) then
        (LinkCreation task pid path true,
         reportUncaught
           (updatePath path
              (Some {| geometry.x := offsetX event; geometry.y := offsetY event |})
              m))
      else (l, m)
  | TaskDrag task pid initialPosition offX offY moved =>
      if decide (pointerId event = pid) then
        let currentPosition :=
          {| geometry.x := clientX event; geometry.y := clientY event |} in
        let movedThreshold := 5%Q in
        let squaredMovedThreshold := (movedThreshold * movedThreshold)%Q in
        let moved :=
          if misc.Qltb squaredMovedThreshold
               (geometry.squaredDistance initialPosition currentPosition)
          then true else moved in
        (TaskDrag task pid initialPosition offX offY moved,
         reportUncaught
           (moveTask task
              {| geometry.x := offsetX event - offX;
                 geometry.y := offsetY event - offY |}%Q
              m))
      else (l, m)
  end.

Inductive EndKind : Type := pointerup | pointercancel.

(** The release of a link gesture, after the click test and the removal of
    the listeners. *)
Definition linkRelease (task path : nat) (event : PointerEvent) : JS unit :=
  target ← read (fun m => elementFromPoint m (pageX event) (pageY event));
  targetTask ← read (fun m => asTask m target);
  match targetTask with
  | None => arrows_removeChild path
  | Some targetTask =>
      exec (updatePathElement (set_path_to (Some targetTask)) path);;
      exec (updateTask (set_from (fun a => a ++ [path])) task);;
      exec (updateTask (set_to (fun a => a ++ [path])) targetTask);;
      updatePath path None;;
      exec (set_dispatched (fun evs => evs ++ [newdependency]))
  end.

(** The [pointerup] / [pointercancel] listener of each gesture; [None] when
    the gesture removed its listeners. *)
Definition onPointerEnd (kind : EndKind) (l : Listener) (event : PointerEvent)
    (m : Model) : option Listener * Model :=
  match l with
  | GraphDrag _ =>
      match kind with
      | pointerup => (None, m)
      | pointercancel => (Some l, m)      (* not registered for pointercancel *)
      end
  | LinkCreation task pid path moved =>
      if decide (pointerId event = pid) then
        let m := if negb moved then onTaskClicked task event m else m in
        (None, reportUncaught (linkRelease task path event m))
      else (Some l, m)
  | TaskDrag task pid initialPosition offX offY moved =>
      if decide (pointerId event = pid) then
        let m := updateTask (set_classList (classRemove "dragged")) task m in
        if moved then
          (None, set_dispatched (fun evs => evs ++ [taskmoved task]) m)
        else (None, onTaskClicked task event m)
      else (Some l, m)
  end.

(** Dispatch of an event to the listeners registered on [itemsContainer], in
    the order of registration. *)
Fixpoint dispatchMove (ls : list Listener) (event : PointerEvent) (m : Model)
    : list Listener * Model :=
  match ls with
  | [] => ([], m)
  | l :: rest =>
      let '(l', m1) := onPointerMove l event m in
      let '(rest', m2) := dispatchMove rest event m1 in
      (l' :: rest', m2)
  end.

Fixpoint dispatchEnd (kind : EndKind) (ls : list Listener) (event : PointerEvent)
    (m : Model) : list Listener * Model :=
  match ls with
  | [] => ([], m)
  | l :: rest =>
      let '(l', m1) := onPointerEnd kind l event m in
      let '(rest', m2) := dispatchEnd kind rest event m1 in
      (option_list l' ++ rest', m2)
  end.

Inductive DomEvent : Type :=
| PointerDown (event : PointerEvent)
| PointerMove (event : PointerEvent)
| PointerEnd (kind : EndKind) (event : PointerEvent)
| Wheel (deltaY : Q).

Definition handle (m : Model) (ev : DomEvent) : Model :=
  match ev with
  | PointerDown event => onpointerdown event m
  | PointerMove event =>
      let '(ls, m') := dispatchMove (listeners m) event m in
      set_listeners (fun _ => ls) m'
  | PointerEnd kind event =>
      let '(ls, m') := dispatchEnd kind (listeners m) event m in
      set_listeners (fun _ => ls) m'
  | Wheel deltaY => onwheel deltaY m
  end.

Definition run (m : Model) (evs : list DomEvent) : Model := foldl handle m evs.

(** The page before [initGraph]: nothing on the canvas, identity pan and
    zoom. *)
Definition emptyModel : Model :=
  {| taskElements := ∅; pathElements := ∅; itemsContainer := []; arrows := [];
     panzoom := {| pan := {| geometry.x := 0; geometry.y := 0 |}; zoom := 1 |};
     linkModeCheckbox := false; listeners := []; dispatched := [];
     console := [] |}.

Definition initGraph (m : Model) : Model := sendSelectionChanged (Some []) m.

End graph.

(** ** Notions used in the statements *)

(** Everything but the task store. *)
Definition sameButTasks (m m' : Model) : Prop :=
  pathElements m' = pathElements m ∧ itemsContainer m' = itemsContainer m
  ∧ arrows m' = arrows m ∧ panzoom m' = panzoom m
  ∧ linkModeCheckbox m' = linkModeCheckbox m ∧ listeners m' = listeners m
  ∧ dispatched m' = dispatched m ∧ console m' = console m.

Section notions.
Context `{Browser}.

Definition toggled (s : Status) : Status :=
  match s with todo => completed | completed => todo end.

(** A name resolves when a live task shows it. *)
Definition resolves (m : Model) (text : string) : Prop :=
  Exists (fun e => textContent (taskOf m e) = text) (getTasks m).

(** The path [updatePath] draws for a committed dependency, from the boxes
    of its two tasks. *)
Definition drawn (m : Model) (path : nat) : PathData :=
  match path_from (pathOf m path), path_to (pathOf m path) with
  | Some a, Some b =>
      let nodeABox := getOffsetBox m a in
      let nodeBBox := getOffsetBox m b in
      let centerA := geometry.getBoxCenter nodeABox in
      let centerB := geometry.getBoxCenter nodeBBox in
      match intersectLineBox centerA centerB (geometry.getExpandedBox nodeABox 8),
            intersectLineBox centerA centerB (geometry.getExpandedBox nodeBBox 8)
      with
      | Some pa, Some pb => Segment pa pb
      | _, _ => EmptyData
      end
  | _, _ => path_d (pathOf m path)
  end.

(** [m'] is [m] with some paths redrawn: only attributes [d] differ. *)
Definition redrawn (m m' : Model) : Prop :=
  taskElements m' = taskElements m ∧ itemsContainer m' = itemsContainer m
  ∧ arrows m' = arrows m ∧ panzoom m' = panzoom m
  ∧ linkModeCheckbox m' = linkModeCheckbox m ∧ listeners m' = listeners m
  ∧ dispatched m' = dispatched m ∧ console m' = console m
  ∧ ∀ p, path_from (pathOf m' p) = path_from (pathOf m p)
         ∧ path_to (pathOf m' p) = path_to (pathOf m p).

(** The pointer of a move event has left the disc of radius 5 around the
    position where the gesture started. *)
Definition exceeded (initialPosition : geometry.Point) (pid : Z)
    (event : PointerEvent) : Prop :=
  pointerId event = pid
  ∧ (25 < geometry.squaredDistance initialPosition
             {| geometry.x := clientX event; geometry.y := clientY event |})%Q.

(** A path with both ends assigned. *)
Definition committed (m : Model) (p : nat) : Prop :=
  is_Some (path_from (pathOf m p)) ∧ is_Some (path_to (pathOf m p)).

(** The invariant of the entity model: the children of the containers are
    distinct, the children of [itemsContainer] are tasks, every adjacency
    array lists distinct dependencies of [arrows] that have the task at the
    matching end, and every dependency of [arrows] is listed by a live task
    at each end. *)
Definition wf (m : Model) : Prop :=
  NoDup (itemsContainer m) ∧ NoDup (arrows m)
  ∧ Forall (fun t =>
       "task" ∈ classList (taskOf m t)
       ∧ NoDup (from (taskOf m t)) ∧ NoDup (to (taskOf m t))
       ∧ Forall (fun d => d ∈ arrows m ∧ path_from (pathOf m d) = Some t)
           (from (taskOf m t))
       ∧ Forall (fun d => d ∈ arrows m ∧ path_to (pathOf m d) = Some t)
           (to (taskOf m t)))
      (itemsContainer m)
  ∧ Forall (fun d =>
       Exists (fun a => path_from (pathOf m d) = Some a ∧ d ∈ from (taskOf m a))
         (itemsContainer m)
       ∧ Exists (fun b => path_to (pathOf m d) = Some b ∧ d ∈ to (taskOf m b))
           (itemsContainer m))
      (arrows m).

#[global] Instance wf_dec (m : Model) : Decision (wf m).
Proof. unfold wf. apply _. Defined.

(** The same invariant, element by element. *)
Record wfP (m : Model) : Prop := {
  wf_items : NoDup (itemsContainer m);
  wf_arrows : NoDup (arrows m);
  wf_tasks : ∀ t, t ∈ itemsContainer m → "task" ∈ classList (taskOf m t);
  wf_lists : ∀ t, t ∈ itemsContainer m →
               NoDup (from (taskOf m t)) ∧ NoDup (to (taskOf m t));
  wf_from : ∀ t d, t ∈ itemsContainer m →
              d ∈ from (taskOf m t)
              ↔ d ∈ arrows m ∧ path_from (pathOf m d) = Some t;
  wf_to : ∀ t d, t ∈ itemsContainer m →
            d ∈ to (taskOf m t)
            ↔ d ∈ arrows m ∧ path_to (pathOf m d) = Some t;
  wf_ends : ∀ d, d ∈ arrows m →
              ∃ a b, path_from (pathOf m d) = Some a
                     ∧ path_to (pathOf m d) = Some b
                     ∧ a ∈ itemsContainer m ∧ b ∈ itemsContainer m
}.

(** [m'] is [m] without the dependencies [ds]: they are gone from [arrows]
    and from every adjacency array, and nothing else differs. *)
Definition deleted (ds : list nat) (m m' : Model) : Prop :=
  itemsContainer m' = itemsContainer m
  ∧ pathElements m' = pathElements m
  ∧ arrows m' = filter (fun d => d ∉ ds) (arrows m)
  ∧ (∀ t, t ∈ itemsContainer m →
          from (taskOf m' t) = filter (fun d => d ∉ ds) (from (taskOf m t))
          ∧ to (taskOf m' t) = filter (fun d => d ∉ ds) (to (taskOf m t)))
  ∧ (∀ t, textContent (taskOf m' t) = textContent (taskOf m t)
          ∧ classList (taskOf m' t) = classList (taskOf m t)
          ∧ style_left (taskOf m' t) = style_left (taskOf m t)
          ∧ style_top (taskOf m' t) = style_top (taskOf m t))
  ∧ panzoom m' = panzoom m ∧ linkModeCheckbox m' = linkModeCheckbox m
  ∧ listeners m' = listeners m ∧ dispatched m' = dispatched m
  ∧ console m' = console m.

(** What [getGraph] reads of a task. *)
Definition sameFace (t t' : HTMLTaskElement) : Prop :=
  textContent t' = textContent t ∧ classList t' = classList t
  ∧ style_left t' = style_left t ∧ style_top t' = style_top t.

End notions.

(** ** Relations between two states *)

(** Everything but the pan and the listeners. *)
Definition panned (m m' : Model) : Prop :=
  taskElements m' = taskElements m ∧ pathElements m' = pathElements m
  ∧ itemsContainer m' = itemsContainer m ∧ arrows m' = arrows m
  ∧ zoom (panzoom m') = zoom (panzoom m)
  ∧ linkModeCheckbox m' = linkModeCheckbox m
  ∧ dispatched m' = dispatched m ∧ console m' = console m.

(** Dependency [d] has one of the tasks [ts] at an end. *)
Definition touches (m : Model) (ts : list nat) (d : nat) : Prop :=
  path_from (pathOf m d) ∈ Some <$> ts ∨ path_to (pathOf m d) ∈ Some <$> ts.

(** [m'] is [m] without the tasks [ts] and without the dependencies that
    touch them; what is left keeps its order and its content. *)
Definition removed (ts : list nat) (m m' : Model) : Prop :=
  itemsContainer m' = filter (fun t => t ∉ ts) (itemsContainer m)
  ∧ arrows m' = filter (fun d => ¬ touches m ts d) (arrows m)
  ∧ pathElements m' = pathElements m
  ∧ (∀ t, sameFace (taskOf m t) (taskOf m' t))
  ∧ panzoom m' = panzoom m ∧ linkModeCheckbox m' = linkModeCheckbox m
  ∧ listeners m' = listeners m ∧ dispatched m' = dispatched m
  ∧ console m' = console m.

(** [m'] is [m] with the attribute [d] of [path] changed, at most. *)
Definition retraced (path : nat) (m m' : Model) : Prop :=
  taskElements m' = taskElements m ∧ itemsContainer m' = itemsContainer m
  ∧ arrows m' = arrows m ∧ panzoom m' = panzoom m
  ∧ linkModeCheckbox m' = linkModeCheckbox m
  ∧ dispatched m' = dispatched m ∧ console m' = console m
  ∧ path_from (pathOf m' path) = path_from (pathOf m path)
  ∧ path_to (pathOf m' path) = path_to (pathOf m path)
  ∧ ∀ p, p ≠ path → pathOf m' p = pathOf m p.

(** [m'] is [m] with the dependency [d] from task [a] to task [b] added at
    the end of [arrows] and of the two adjacency arrays. *)
Definition linked (d a b : nat) (m m' : Model) : Prop :=
  (d ∉ arrows m)
  ∧ arrows m' = arrows m ++ [d]
  ∧ itemsContainer m' = itemsContainer m
  ∧ (∀ c, sameFace (taskOf m c) (taskOf m' c))
  ∧ (∀ c, c ∈ arrows m → pathOf m' c = pathOf m c)
  ∧ path_from (pathOf m' d) = Some a ∧ path_to (pathOf m' d) = Some b
  ∧ (∀ c, from (taskOf m' c)
          = (if decide (a = c) then from (taskOf m c) ++ [d]
             else from (taskOf m c))
          ∧ to (taskOf m' c)
            = (if decide (b = c) then to (taskOf m c) ++ [d]
               else to (taskOf m c))).

#[global] Instance resolves_dec (m : Model) (text : string) :
  Decision (resolves m text).
Proof. unfold resolves. apply _. Defined.

(** ** The zoom indicator and the pointers of the listeners *)

(** What [updateZoomIndicator] writes into the indicator: the empty string,
    or [n + "% zoom"]. *)
Inductive IndicatorText : Type :=
| Blank
| PercentZoom (percent : Z).

(** [panzoom.zoom === 1 ? "" : Math.floor(panzoom.zoom * 100) + "% zoom"].
    The wheel handler and [initGraph] call it after every change of the
    zoom, so this is the text the indicator shows in a given state. *)
Definition updateZoomIndicator (m : Model) : IndicatorText :=
  if Qeq_bool (zoom (panzoom m)) 1 then Blank
  else PercentZoom (Qfloor (zoom (panzoom m) * 100)).

(** [{ x: event.clientX, y: event.clientY }] *)
Definition clientPosition (event : PointerEvent) : geometry.Point :=
  {| geometry.x := clientX event; geometry.y := clientY event |}.

(** The client position of the last of the moves, or [start] when there is
    none. *)
Definition lastPosition (start : geometry.Point) (moves : list PointerEvent)
    : geometry.Point :=
  default start (last (clientPosition <$> moves)).

(** The pointer a listener compares events with; the listeners of a pan
    gesture compare with none. *)
Definition pointerOf (l : Listener) : option Z :=
  match l with
  | GraphDrag _ => None
  | LinkCreation _ pid _ _ => Some pid
  | TaskDrag _ pid _ _ _ _ => Some pid
  end.

(** ** A sample page

    A concrete browser and a few documents, used to run the model. *)

Module sample.

(** Modelled from the spec: [intersectLineBox] of geometry.ts, which is not
    part of the sources at hand ("test against all four edges' supporting
    lines, keep the intersection with the smallest positive parametric
    distance from a that also lies within each edge's finite span"). *)
Definition crossings (a b : geometry.Point) (box : geometry.Box)
    : list (Q * geometry.Point) :=
  let dx := (geometry.x b - geometry.x a)%Q in
  let dy := (geometry.y b - geometry.y a)%Q in
  let vertical (edge : Q) :=
    if Qeq_bool dx 0 then []
    else
      let t := ((edge - geometry.x a) / dx)%Q in
      let py := (geometry.y a + t * dy)%Q in
      if misc.Qltb 0 t && Qle_bool (geometry.top box) py
         && Qle_bool py (geometry.bottom box)
      then [(t, {| geometry.x := edge; geometry.y := py |})] else [] in
  let horizontal (edge : Q) :=
    if Qeq_bool dy 0 then []
    else
      let t := ((edge - geometry.y a) / dy)%Q in
      let px := (geometry.x a + t * dx)%Q in
      if misc.Qltb 0 t && Qle_bool (geometry.left box) px
         && Qle_bool px (geometry.right box)
      then [(t, {| geometry.x := px; geometry.y := edge |})] else [] in
  vertical (geometry.left box) ++ vertical (geometry.right box)
  ++ horizontal (geometry.top box) ++ horizontal (geometry.bottom box).

Definition nearest (cs : list (Q * geometry.Point)) : option geometry.Point :=
  snd <$> foldr (fun c best =>
                   match best with
                   | Some b => if misc.Qltb (fst c) (fst b) then Some c else Some b
                   | None => Some c
                   end) None cs.

Definition boundaryCrossing (a b : geometry.Point) (box : geometry.Box)
    : option geometry.Point :=
  nearest (crossings a b box).

(** Every task box is 100 by 40. *)
Definition width : Q := 100.
Definition height : Q := 40.

(** Hit testing with the identity transform: the last task in document order
    whose box holds the point. *)
Definition hit (m : Model) (px py : Q) : option Element :=
  TaskElement <$>
    last (filter (fun e =>
                    Qle_bool (style_left (taskOf m e)) px
                    && Qle_bool px (style_left (taskOf m e) + width)
                    && Qle_bool (style_top (taskOf m e)) py
                    && Qle_bool py (style_top (taskOf m e) + height) = true)
            (itemsContainer m)).

#[local] Instance browser : Browser :=
  {| offsetWidth := fun _ => width;
     offsetHeight := fun _ => height;
     graphContainerBox :=
       {| geometry.left := 0; geometry.top := 0;
          geometry.right := 800; geometry.bottom := 600 |};
     intersectLineBox := boundaryCrossing;
     elementFromPoint := hit |}.

Definition at_ (px py : Q) : geometry.Point :=
  {| geometry.x := px; geometry.y := py |}.

(** Three tasks in a row, A -> B -> C. *)
Definition chain : Graph :=
  {| tasks := [ {| name := "A"; status := todo; pos := at_ 0 0 |};
                {| name := "B"; status := completed; pos := at_ 200 0 |};
                {| name := "C"; status := todo; pos := at_ 400 0 |} ];
     dependencies := [ {| predecessor := "A"; successor := "B" |};
                       {| predecessor := "B"; successor := "C" |} ] |}.

(** The page after [initGraph] and [loadGraph(chain)]. *)
Definition page : Model := stateOf (loadGraph chain (initGraph emptyModel)).

(** A pointer event of pointer 1 at the given point, which is at once its
    client, offset and page position. *)
Definition pointer (px py : Q) (target : option Element) : PointerEvent :=
  {| pointerId := 1; clientX := px; clientY := py; offsetX := px; offsetY := py;
     pageX := px; pageY := py; shiftKey := false; target := target |}.

(** The element under the pointer when it is over A. *)
Definition onA : option Element := Some (TaskElement 0).

(** The page while A is being dragged, before the first move. *)
Definition dragging : Model := run page [PointerDown (pointer 10 10 onA)].

(** A document whose only dependency names a task that is not there. *)
Definition dangling : Graph :=
  {| tasks := [ {| name := "A"; status := todo; pos := at_ 0 0 |} ];
     dependencies := [ {| predecessor := "A"; successor := "B" |} ] |}.

(** The empty page after one wheel step up: zoom 1.1. *)
Definition zoomed : Model := onwheel (-1) (initGraph emptyModel).

(** The page of the chain with the link mode checkbox ticked. *)
Definition linkPage : Model := set_linkModeCheckbox true page.

(** The same pointer with the shift key held, and a second pointer. *)
Definition shiftPointer (px py : Q) (target : option Element) : PointerEvent :=
  {| pointerId := 1; clientX := px; clientY := py; offsetX := px; offsetY := py;
     pageX := px; pageY := py; shiftKey := true; target := target |}.

Definition otherPointer (px py : Q) (target : option Element) : PointerEvent :=
  {| pointerId := 2; clientX := px; clientY := py; offsetX := px; offsetY := py;
     pageX := px; pageY := py; shiftKey := false; target := target |}.

(** Two tasks of the same name before a third. *)
Definition twins : Graph :=
  {| tasks := [ {| name := "A"; status := todo; pos := at_ 0 0 |};
                {| name := "A"; status := todo; pos := at_ 200 0 |};
                {| name := "B"; status := todo; pos := at_ 400 0 |} ];
     dependencies := [] |}.

Definition twinsPage : Model := stateOf (loadGraph twins (initGraph emptyModel)).

(** The zoomed page after a pan by (10, 20). *)
Definition zoomedPanned : Model :=
  run zoomed [PointerDown (pointer 500 500 None);
              PointerMove (pointer 510 520 None);
              PointerEnd pointerup (pointer 510 520 None)].

(** The page while the canvas is being panned. *)
Definition panning : Model := run page [PointerDown (pointer 500 500 None)].

End sample.

(** * Properties *)

(** ** Class lists and the element store *)

Lemma contains_spec (c : string) (s : gset string) :
  contains c s = true ↔ c ∈ s.
Proof. unfold contains. apply bool_decide_eq_true. Qed.

Lemma contains_classToggle_same (c : string) (s : gset string) :
  contains c (classToggle c s) = negb (contains c s).
Proof.
  unfold classToggle. destruct (contains c s) eqn:E; simpl.
  - apply bool_decide_eq_false. unfold classRemove. set_solver.
  - apply bool_decide_eq_true. unfold classAdd. set_solver.
Qed.

Lemma elem_of_classToggle_other (c c' : string) (s : gset string) :
  c ≠ c' → c' ∈ classToggle c s ↔ c' ∈ s.
Proof.
  intros Hne. unfold classToggle, classRemove, classAdd.
  destruct (contains c s); set_solver.
Qed.

Lemma taskOf_updateTask f e m e' :
  taskOf (updateTask f e m) e'
  = if decide (e = e') then f (taskOf m e) else taskOf m e'.
Proof.
  unfold taskOf, updateTask. simpl. rewrite lookup_insert.
  case_decide; reflexivity.
Qed.

Lemma taskOf_updateTask_eq f e m : taskOf (updateTask f e m) e = f (taskOf m e).
Proof. rewrite taskOf_updateTask. by rewrite decide_True. Qed.

Lemma taskOf_updateTask_ne f e m e' :
  e ≠ e' → taskOf (updateTask f e m) e' = taskOf m e'.
Proof. intros. rewrite taskOf_updateTask. by rewrite decide_False. Qed.

Lemma pathOf_updatePathElement f e m e' :
  pathOf (updatePathElement f e m) e'
  = if decide (e = e') then f (pathOf m e) else pathOf m e'.
Proof.
  unfold pathOf, updatePathElement. simpl. rewrite lookup_insert.
  case_decide; reflexivity.
Qed.

Lemma taskOf_set_pathElements f m e : taskOf (set_pathElements f m) e = taskOf m e.
Proof. reflexivity. Qed.
Lemma taskOf_set_itemsContainer f m e : taskOf (set_itemsContainer f m) e = taskOf m e.
Proof. reflexivity. Qed.
Lemma taskOf_set_arrows f m e : taskOf (set_arrows f m) e = taskOf m e.
Proof. reflexivity. Qed.
Lemma taskOf_set_panzoom f m e : taskOf (set_panzoom f m) e = taskOf m e.
Proof. reflexivity. Qed.
Lemma taskOf_set_listeners f m e : taskOf (set_listeners f m) e = taskOf m e.
Proof. reflexivity. Qed.
Lemma taskOf_set_dispatched f m e : taskOf (set_dispatched f m) e = taskOf m e.
Proof. reflexivity. Qed.
Lemma taskOf_set_console f m e : taskOf (set_console f m) e = taskOf m e.
Proof. reflexivity. Qed.
Lemma taskOf_updatePathElement f p m e : taskOf (updatePathElement f p m) e = taskOf m e.
Proof. reflexivity. Qed.

Lemma pathOf_set_taskElements f m e : pathOf (set_taskElements f m) e = pathOf m e.
Proof. reflexivity. Qed.
Lemma pathOf_set_itemsContainer f m e : pathOf (set_itemsContainer f m) e = pathOf m e.
Proof. reflexivity. Qed.
Lemma pathOf_set_arrows f m e : pathOf (set_arrows f m) e = pathOf m e.
Proof. reflexivity. Qed.
Lemma pathOf_set_panzoom f m e : pathOf (set_panzoom f m) e = pathOf m e.
Proof. reflexivity. Qed.
Lemma pathOf_set_listeners f m e : pathOf (set_listeners f m) e = pathOf m e.
Proof. reflexivity. Qed.
Lemma pathOf_set_dispatched f m e : pathOf (set_dispatched f m) e = pathOf m e.
Proof. reflexivity. Qed.
Lemma pathOf_set_console f m e : pathOf (set_console f m) e = pathOf m e.
Proof. reflexivity. Qed.
Lemma pathOf_updateTask f t m e : pathOf (updateTask f t m) e = pathOf m e.
Proof. reflexivity. Qed.

Lemma pathOf_updatePathElement_eq f e m :
  pathOf (updatePathElement f e m) e = f (pathOf m e).
Proof. rewrite pathOf_updatePathElement. by rewrite decide_True. Qed.

Lemma pathOf_updatePathElement_ne f e m e' :
  e ≠ e' → pathOf (updatePathElement f e m) e' = pathOf m e'.
Proof. intros. rewrite pathOf_updatePathElement. by rewrite decide_False. Qed.

(** Reading an element through the updates that do not reach it. *)
Ltac frame_step :=
  match goal with
  | |- context [taskOf (set_pathElements ?f ?m) ?e] =>
      change (taskOf (set_pathElements f m) e) with (taskOf m e)
  | |- context [taskOf (set_itemsContainer ?f ?m) ?e] =>
      change (taskOf (set_itemsContainer f m) e) with (taskOf m e)
  | |- context [taskOf (set_arrows ?f ?m) ?e] =>
      change (taskOf (set_arrows f m) e) with (taskOf m e)
  | |- context [taskOf (set_panzoom ?f ?m) ?e] =>
      change (taskOf (set_panzoom f m) e) with (taskOf m e)
  | |- context [taskOf (set_listeners ?f ?m) ?e] =>
      change (taskOf (set_listeners f m) e) with (taskOf m e)
  | |- context [taskOf (set_dispatched ?f ?m) ?e] =>
      change (taskOf (set_dispatched f m) e) with (taskOf m e)
  | |- context [taskOf (set_console ?f ?m) ?e] =>
      change (taskOf (set_console f m) e) with (taskOf m e)
  | |- context [taskOf (updatePathElement ?f ?p ?m) ?e] =>
      change (taskOf (updatePathElement f p m) e) with (taskOf m e)
  | |- context [pathOf (set_taskElements ?f ?m) ?e] =>
      change (pathOf (set_taskElements f m) e) with (pathOf m e)
  | |- context [pathOf (set_itemsContainer ?f ?m) ?e] =>
      change (pathOf (set_itemsContainer f m) e) with (pathOf m e)
  | |- context [pathOf (set_arrows ?f ?m) ?e] =>
      change (pathOf (set_arrows f m) e) with (pathOf m e)
  | |- context [pathOf (set_panzoom ?f ?m) ?e] =>
      change (pathOf (set_panzoom f m) e) with (pathOf m e)
  | |- context [pathOf (set_listeners ?f ?m) ?e] =>
      change (pathOf (set_listeners f m) e) with (pathOf m e)
  | |- context [pathOf (set_dispatched ?f ?m) ?e] =>
      change (pathOf (set_dispatched f m) e) with (pathOf m e)
  | |- context [pathOf (set_console ?f ?m) ?e] =>
      change (pathOf (set_console f m) e) with (pathOf m e)
  | |- context [pathOf (updateTask ?f ?t ?m) ?e] =>
      change (pathOf (updateTask f t m) e) with (pathOf m e)
  | |- context [taskOf (updateTask ?f ?e ?m) ?e] =>
      rewrite (taskOf_updateTask_eq f e m)
  | |- context [pathOf (updatePathElement ?f ?e ?m) ?e] =>
      rewrite (pathOf_updatePathElement_eq f e m)
  | Hne : ?e ≠ ?e' |- context [taskOf (updateTask ?f ?e ?m) ?e'] =>
      rewrite (taskOf_updateTask_ne f e m e' Hne)
  | Hne : ?e' ≠ ?e |- context [taskOf (updateTask ?f ?e ?m) ?e'] =>
      rewrite (taskOf_updateTask_ne f e m e' (not_eq_sym Hne))
  | Hne : ?e ≠ ?e' |- context [pathOf (updatePathElement ?f ?e ?m) ?e'] =>
      rewrite (pathOf_updatePathElement_ne f e m e' Hne)
  | Hne : ?e' ≠ ?e |- context [pathOf (updatePathElement ?f ?e ?m) ?e'] =>
      rewrite (pathOf_updatePathElement_ne f e m e' (not_eq_sym Hne))
  end.

Ltac frame := repeat frame_step.

Lemma foldl_updateTask f (l : list nat) m :
  NoDup l →
  (∀ e, taskOf (foldl (fun m e => updateTask f e m) m l) e
        = if decide (e ∈ l) then f (taskOf m e) else taskOf m e)
  ∧ sameButTasks m (foldl (fun m e => updateTask f e m) m l).
Proof.
  revert m. induction l as [|a l IH]; intros m Hnd.
  - split; [|by repeat split]. intros e. rewrite decide_False; [done|].
    apply not_elem_of_nil.
  - apply NoDup_cons in Hnd as [Ha Hnd]. simpl.
    destruct (IH (updateTask f a m) Hnd) as [Ht Hs]. split.
    + intros e. rewrite Ht. destruct (decide (e = a)) as [->|Hne].
      * rewrite decide_False by done. rewrite taskOf_updateTask_eq.
        rewrite decide_True; [done|]. apply list_elem_of_here.
      * rewrite taskOf_updateTask_ne by done.
        destruct (decide (e ∈ l)) as [Hin|Hin].
        -- rewrite decide_True; [done|]. by apply list_elem_of_further.
        -- rewrite decide_False; [done|].
           intros [?|?]%elem_of_cons; done.
    + exact Hs.
Qed.

Section facts.
Context `{Browser}.

Lemma Qltb_lt (a b : Q) : misc.Qltb a b = true ↔ (a < b)%Q.
Proof.
  unfold misc.Qltb. rewrite Qlt_alt. destruct (a ?= b)%Q; split; congruence.
Qed.

(** ** Zoom *)

(** C8.  The wheel handler multiplies the zoom by the factor and snaps the
    product: a product strictly between [1 - 0.1] and [1 + 0.1] becomes
    exactly 1, any other product is kept.  From zoom 1 the factor 1.02 gives
    exactly 1; from zoom 1.3 the factor 0.9 gives 1.17, which is not 1. *)
Theorem applyZoomFactor_snaps (factor : Q) (m : Model) :
  let product := (zoom (panzoom m) * factor)%Q in
  let result := zoom (panzoom (applyZoomFactor factor m)) in
  (((1 - 0.1 < product)%Q ∧ (product < 1 + 0.1)%Q ∧ result = 1%Q)
   ∨ (¬ ((1 - 0.1 < product)%Q ∧ (product < 1 + 0.1)%Q) ∧ result = product))
  ∧ zoom (panzoom (applyZoomFactor 1.02
                     (set_panzoom (set_zoom (fun _ => 1%Q)) m))) = 1%Q
  ∧ zoom (panzoom (applyZoomFactor 0.9
                     (set_panzoom (set_zoom (fun _ => 1.3%Q)) m))) = 1.17%Q
  ∧ ¬ (1.17 == 1)%Q.
Proof.
  simpl. unfold misc.snap. split; [|done].
  destruct (misc.Qltb (1 - 0.1) (zoom (panzoom m) * factor)) eqn:E1;
    destruct (misc.Qltb (zoom (panzoom m) * factor) (1 + 0.1)) eqn:E2; simpl.
  - left. apply Qltb_lt in E1, E2. done.
  - right. split; [|done]. intros [_ Hlt%Qltb_lt]. congruence.
  - right. split; [|done]. intros [Hlt%Qltb_lt _]. congruence.
  - right. split; [|done]. intros [Hlt%Qltb_lt _]. congruence.
Qed.

(** The two steps of C8 computed in binary64 come out as they do on the
    rationals: 1 * 1.02 snaps to 1, and 1.3 * 0.9 is kept and is not 1. *)
Lemma zoomStep_binary64 :
  binary64.zoomStep (binary64.ofZ 1) (binary64.literal 102 100) = binary64.ofZ 1
  ∧ binary64.zoomStep (binary64.literal 13 10) (binary64.literal 9 10)
    = binary64.mul (binary64.literal 13 10) (binary64.literal 9 10)
  ∧ binary64.mul (binary64.literal 13 10) (binary64.literal 9 10)
    ≠ binary64.ofZ 1.
Proof. vm_compute. split_and!; [reflexivity|reflexivity|discriminate]. Qed.

(** The wheel only ever applies the factors 1.1 and 0.9. *)
Lemma onwheel_factor (deltaY : Q) (m : Model) :
  onwheel deltaY m = applyZoomFactor 1.1 m ∨ onwheel deltaY m = applyZoomFactor 0.9 m.
Proof. unfold onwheel. destruct (misc.Qltb deltaY 0); auto. Qed.

(** ** Completing the selection *)

Lemma getTasks_preserved (m m' : Model) :
  itemsContainer m' = itemsContainer m →
  (∀ e, "task" ∈ classList (taskOf m' e) ↔ "task" ∈ classList (taskOf m e)) →
  getTasks m' = getTasks m.
Proof.
  intros Hi Hc. unfold getTasks. rewrite Hi. by apply list_filter_iff.
Qed.

Lemma getSelected_preserved (m m' : Model) :
  getTasks m' = getTasks m →
  (∀ e, "selected" ∈ classList (taskOf m' e) ↔ "selected" ∈ classList (taskOf m e)) →
  getSelected m' = getSelected m.
Proof.
  intros Hi Hc. unfold getSelected. rewrite Hi. by apply list_filter_iff.
Qed.

Lemma NoDup_getTasks (m : Model) : NoDup (itemsContainer m) → NoDup (getTasks m).
Proof. apply NoDup_filter. Qed.

Lemma NoDup_getSelected (m : Model) : NoDup (itemsContainer m) → NoDup (getSelected m).
Proof. intros. by apply NoDup_filter, NoDup_getTasks. Qed.

(** C10.  [completeSelected] toggles the status of every selected task (todo
    becomes completed, completed becomes todo), leaves every other element as
    it is, keeps the selection and the dependencies, and dispatches no
    event. *)
Theorem completeSelected_toggles (m : Model) :
  NoDup (itemsContainer m) →
  let m' := completeSelected m in
  (∀ e, e ∈ getSelected m →
        status (taskRecord m' e) = toggled (status (taskRecord m e))
        ∧ name (taskRecord m' e) = name (taskRecord m e)
        ∧ pos (taskRecord m' e) = pos (taskRecord m e)
        ∧ from (taskOf m' e) = from (taskOf m e)
        ∧ to (taskOf m' e) = to (taskOf m e))
  ∧ (∀ e, e ∉ getSelected m → taskOf m' e = taskOf m e)
  ∧ getTasks m' = getTasks m
  ∧ getSelected m' = getSelected m
  ∧ getDependencies m' = getDependencies m
  ∧ pathElements m' = pathElements m
  ∧ dispatched m' = dispatched m.
Proof.
  intros Hnd m'.
  destruct (foldl_updateTask (set_classList (classToggle "completed"))
              (getSelected m) m (NoDup_getSelected m Hnd)) as [Ht Hs].
  fold (completeSelected m) in Ht, Hs. fold m' in Ht, Hs.
  destruct Hs as (Hp & Hi & Ha & _ & _ & _ & Hd & _).
  assert (Hcls : ∀ e c, c ≠ "completed" →
            c ∈ classList (taskOf m' e) ↔ c ∈ classList (taskOf m e)).
  { intros e c Hc. rewrite Ht. case_decide; [|done]. simpl.
    by apply elem_of_classToggle_other. }
  assert (Hgt : getTasks m' = getTasks m).
  { apply getTasks_preserved; [done|]. intros e. by apply Hcls. }
  repeat split; try done.
  - unfold taskRecord. rewrite Ht, decide_True by done. simpl.
    rewrite contains_classToggle_same.
    by destruct (contains "completed" (classList (taskOf m e))).
  - unfold taskRecord. simpl. rewrite Ht, decide_True by done. done.
  - unfold taskRecord, getOffsetBox. simpl. rewrite Ht, decide_True by done. done.
  - rewrite Ht, decide_True by done. done.
  - rewrite Ht, decide_True by done. done.
  - intros e He. rewrite Ht, decide_False by done. done.
  - apply getSelected_preserved; [done|]. intros e. by apply Hcls.
Qed.

(** ** Dependencies whose endpoints do not resolve *)

Lemma findTask_None m (ts : list nat) text :
  findTask m ts text = None
  ↔ ¬ Exists (fun e => textContent (taskOf m e) = text) ts.
Proof.
  unfold findTask. induction ts as [|a ts IH]; simpl.
  - split; [|done]. intros _ Hex. by apply Exists_nil in Hex.
  - case_bool_decide as Ha.
    + split; [done|]. intros Hn. destruct Hn. by apply Exists_cons_hd.
    + rewrite IH. rewrite Exists_cons. tauto.
Qed.

Lemma findTask_Some m (ts : list nat) text e :
  findTask m ts text = Some e → e ∈ ts ∧ textContent (taskOf m e) = text.
Proof.
  unfold findTask. intros [Hin He]%find_some.
  split; [by apply list_elem_of_In|]. by apply bool_decide_eq_true in He.
Qed.

Lemma forEach_app {A} (f : A → JS unit) (l1 l2 : list A) (m : Model) :
  forEach f (l1 ++ l2) m
  = match forEach f l1 m with
    | Returned _ m' => forEach f l2 m'
    | Thrown e m' => Thrown e m'
    end.
Proof.
  revert m. induction l1 as [|a l1 IH]; intros m; [done|].
  simpl. unfold mbind, JS_bind, bind. destruct (f a m); [apply IH|done].
Qed.

Lemma addDependency_unresolved (dependency : Dependency) (m : Model) :
  ¬ resolves m (predecessor dependency) ∨ ¬ resolves m (successor dependency) →
  ∃ message, addDependency dependency m
             = Returned tt (consoleError message dependency m).
Proof.
  intros Hun.
  unfold addDependency, mbind, JS_bind, bind, read, exec. simpl.
  destruct (findTask m (getTasks m) (predecessor dependency)) eqn:Ep;
    [|by eexists].
  destruct (findTask m (getTasks m) (successor dependency)) eqn:Es;
    [|by eexists].
  apply findTask_Some in Ep as [? ?], Es as [? ?].
  exfalso. destruct Hun as [Hun|Hun]; apply Hun; apply Exists_exists; eauto.
Qed.

(** C7.  When the predecessor or the successor name of a dependency does not
    resolve to a live task, [addDependency] returns normally with one error
    logged on the console and nothing else changed; a [forEach] over the
    dependencies of a document, as in [loadGraph], goes on with the entries
    that follow. *)
Theorem addDependency_endpoint_not_found (dependency : Dependency) (m : Model) :
  ¬ resolves m (predecessor dependency) ∨ ¬ resolves m (successor dependency) →
  ∃ message,
    addDependency dependency m
    = Returned tt (consoleError message dependency m)
    ∧ console (consoleError message dependency m)
      = console m ++ [ErrorMessage message dependency]
    ∧ taskElements (consoleError message dependency m) = taskElements m
    ∧ pathElements (consoleError message dependency m) = pathElements m
    ∧ itemsContainer (consoleError message dependency m) = itemsContainer m
    ∧ arrows (consoleError message dependency m) = arrows m
    ∧ dispatched (consoleError message dependency m) = dispatched m
    ∧ (∀ before rest m0,
         forEach addDependency before m0 = Returned tt m →
         forEach addDependency (before ++ dependency :: rest) m0
         = forEach addDependency rest (consoleError message dependency m))
    ∧ (∀ graph before rest m0,
         dependencies graph = before ++ dependency :: rest →
         loadGraph {| tasks := tasks graph; dependencies := before |} m0
         = Returned tt m →
         loadGraph graph m0
         = forEach addDependency rest (consoleError message dependency m)).
Proof.
  intros Hun.
  destruct (addDependency_unresolved dependency m Hun) as [message Hadd].
  exists message. repeat split; try done.
  - intros before rest m0 Hb. rewrite forEach_app, Hb. simpl.
    unfold mbind, JS_bind, bind. by rewrite Hadd.
  - intros graph before rest m0 Hd Hl. unfold loadGraph in *.
    unfold mbind, JS_bind, bind in *. simpl in *.
    destruct (forEach _ (tasks graph) (clearGraph m0)) as [[] m1|]; [|done].
    rewrite Hd, forEach_app, Hl. simpl.
    unfold mbind, JS_bind, bind. by rewrite Hadd.
Qed.

(** ** Placing a new task *)

Lemma taskOf_addTask (task : AddTask) (m : Model) :
  let e := fst (addTask task m) in
  let m' := snd (addTask task m) in
  textContent (taskOf m' e) = add_name task
  ∧ classList (taskOf m' e)
    = match add_status task with
      | Some completed =>
          classAdd "completed" (classAdd "task" (classList (taskOf m e)))
      | _ => classAdd "task" (classList (taskOf m e))
      end
  ∧ style_left (taskOf m' e)
    = geometry.x (match add_pos task with
                  | Some p => p
                  | None =>
                      {| geometry.x :=
                           geometry.x (getViewCenter m)
                           - offsetWidth (add_name task) / 2;
                         geometry.y :=
                           geometry.y (getViewCenter m)
                           - offsetHeight (add_name task) / 2 |}%Q
                  end)
  ∧ style_top (taskOf m' e)
    = geometry.y (match add_pos task with
                  | Some p => p
                  | None =>
                      {| geometry.x :=
                           geometry.x (getViewCenter m)
                           - offsetWidth (add_name task) / 2;
                         geometry.y :=
                           geometry.y (getViewCenter m)
                           - offsetHeight (add_name task) / 2 |}%Q
                  end)
  ∧ panzoom m' = panzoom m.
Proof.
  unfold addTask. cbn [fst snd].
  generalize (createTaskElement m). intros e.
  destruct (add_status task) as [[]|], (add_pos task) as [p|];
    unfold computeCenteredPos, getViewCenter; frame;
    cbn [textContent classList style_left style_top
      set_style set_classList set_to set_from set_textContent pos name
      geometry.x geometry.y geometry.left geometry.top];
    frame; split_and!; reflexivity.
Qed.

(** A task added with an explicit position gets exactly that position.  A
    task added without one gets its box centered on the point
    [getViewCenter] computes: the center of the viewport minus the pan. *)
Lemma addTask_position (task : AddTask) (m : Model) :
  let e := fst (addTask task m) in
  let m' := snd (addTask task m) in
  match add_pos task with
  | Some p => pos (taskRecord m' e) = p
  | None =>
      let c := geometry.getBoxCenter (getOffsetBox m' e) in
      let v := geometry.getBoxCenter graphContainerBox in
      (geometry.x c == geometry.x v - geometry.x (pan (panzoom m)))%Q
      ∧ (geometry.y c == geometry.y v - geometry.y (pan (panzoom m)))%Q
  end.
Proof.
  intros e m'.
  pose proof (taskOf_addTask task m) as Hadd. cbv zeta in Hadd.
  fold e m' in Hadd. clearbody e m'.
  destruct Hadd as (Hn & _ & Hx & Hy & Hpz).
  destruct (add_pos task) as [p|].
  - destruct p as [px py]. unfold taskRecord, getOffsetBox. cbn in *.
    by rewrite Hx, Hy.
  - cbn in Hx, Hy. unfold getOffsetBox, geometry.getBoxCenter.
    cbn. rewrite Hn, Hx, Hy. unfold getViewCenter. cbn.
    split; field.
Qed.

(** Where the center of a task added without a position is shown: at the
    center of the viewport, displaced by [(1 - zoom) * (pan + origin -
    center of the viewport)].  [getViewCenter] subtracts the pan and leaves
    the zoom out, so the box is shown centered exactly when the zoom is 1 or
    the pan happens to be the center of the viewport minus the origin. *)
Lemma addTask_center_shown (task : AddTask) (m : Model)
    (origin : geometry.Point) :
  add_pos task = None →
  let e := fst (addTask task m) in
  let m' := snd (addTask task m) in
  let c := geometry.getBoxCenter (getOffsetBox m' e) in
  let v := geometry.getBoxCenter graphContainerBox in
  (geometry.x (panzoomTransform origin (panzoom m') c)
   == geometry.x v
      + (1 - zoom (panzoom m))
        * (geometry.x (pan (panzoom m)) + geometry.x origin - geometry.x v))%Q
  ∧ (geometry.y (panzoomTransform origin (panzoom m') c)
     == geometry.y v
        + (1 - zoom (panzoom m))
          * (geometry.y (pan (panzoom m)) + geometry.y origin - geometry.y v))%Q.
Proof.
  intros Hpos e m' c v.
  pose proof (addTask_position task m) as Hc. cbv zeta in Hc.
  rewrite Hpos in Hc. fold e m' c v in Hc. destruct Hc as [Hx Hy].
  pose proof (taskOf_addTask task m) as Hadd. cbv zeta in Hadd.
  destruct Hadd as (_ & _ & _ & _ & Hpz). fold m' in Hpz.
  unfold panzoomTransform. cbn [geometry.x geometry.y]. rewrite Hpz, Hx, Hy.
  split; ring.
Qed.

(** ** Redrawing paths *)

Lemma redrawn_refl m : redrawn m m.
Proof. by repeat split. Qed.

Lemma redrawn_trans m1 m2 m3 : redrawn m1 m2 → redrawn m2 m3 → redrawn m1 m3.
Proof.
  intros (? & ? & ? & ? & ? & ? & ? & ? & H12) (? & ? & ? & ? & ? & ? & ? & ? & H23).
  repeat split; try congruence.
  - destruct (H12 p), (H23 p). congruence.
  - destruct (H12 p), (H23 p). congruence.
Qed.

Lemma redrawn_set_path_d v path m :
  redrawn m (updatePathElement (set_path_d v) path m).
Proof.
  repeat split; rewrite pathOf_updatePathElement; by case_decide; subst.
Qed.

Lemma taskOf_redrawn m m' e : redrawn m m' → taskOf m' e = taskOf m e.
Proof. intros (Ht & _). unfold taskOf. by rewrite Ht. Qed.

Lemma getOffsetBox_redrawn m m' e : redrawn m m' → getOffsetBox m' e = getOffsetBox m e.
Proof. intros Hr. unfold getOffsetBox. by rewrite (taskOf_redrawn m m' e Hr). Qed.

Lemma updatePath_cases path dest m :
  updatePath path dest m = Thrown TypeError m
  ∨ ∃ v, updatePath path dest m
         = Returned tt (updatePathElement (set_path_d v) path m).
Proof.
  unfold updatePath. destruct (path_from (pathOf m path)); [|by left].
  destruct dest as [dst|].
  - right. cbv zeta. repeat case_match; eauto.
  - destruct (path_to (pathOf m path)); [|by left].
    right. cbv zeta. repeat case_match; eauto.
Qed.

Lemma updatePath_redrawn path dest m : redrawn m (stateOf (updatePath path dest m)).
Proof.
  destruct (updatePath_cases path dest m) as [->|[v ->]]; simpl.
  - apply redrawn_refl.
  - apply redrawn_set_path_d.
Qed.

Lemma updatePath_committed path m :
  is_Some (path_from (pathOf m path)) → is_Some (path_to (pathOf m path)) →
  updatePath path None m
  = Returned tt (updatePathElement (set_path_d (drawn m path)) path m).
Proof.
  intros [a Ha] [b Hb]. unfold updatePath, drawn. rewrite Ha, Hb.
  cbv zeta. repeat case_match; simplify_eq; done.
Qed.

Lemma drawn_redrawn m m' p :
  redrawn m m' →
  is_Some (path_from (pathOf m p)) → is_Some (path_to (pathOf m p)) →
  drawn m' p = drawn m p.
Proof.
  intros Hr [a Ha] [b Hb]. unfold drawn.
  destruct Hr as (Ht & _ & _ & _ & _ & _ & _ & _ & Hp).
  destruct (Hp p) as [-> ->]. rewrite Ha, Hb.
  unfold getOffsetBox, taskOf. by rewrite Ht.
Qed.

Lemma forEach_updatePath_redrawn (l : list nat) m :
  redrawn m (stateOf (forEach (fun path => updatePath path None) l m)).
Proof.
  revert m. induction l as [|p l IH]; intros m; [apply redrawn_refl|].
  simpl. unfold mbind, JS_bind, bind.
  pose proof (updatePath_redrawn p None m) as Hp.
  destruct (updatePath p None m) as [[] m1|e m1]; simpl in *; [|done].
  eapply redrawn_trans; [exact Hp|apply IH].
Qed.

Lemma forEach_updatePath_other (l : list nat) m p :
  p ∉ l →
  path_d (pathOf (stateOf (forEach (fun path => updatePath path None) l m)) p)
  = path_d (pathOf m p).
Proof.
  revert m. induction l as [|q l IH]; intros m Hnin; [done|].
  apply not_elem_of_cons in Hnin as [Hpq Hnin].
  simpl. unfold mbind, JS_bind, bind.
  destruct (updatePath_cases q None m) as [->|[v ->]]; [done|].
  rewrite (IH _ Hnin). by rewrite pathOf_updatePathElement_ne.
Qed.

(** When every path of the list is committed, the loop of [moveTask] ends
    normally and leaves every path of the list drawn between the current
    boxes. *)
Lemma forEach_updatePath_committed (l : list nat) m :
  Forall (fun p => is_Some (path_from (pathOf m p))
                   ∧ is_Some (path_to (pathOf m p))) l →
  ∃ m', forEach (fun path => updatePath path None) l m = Returned tt m'
        ∧ redrawn m m'
        ∧ ∀ p, p ∈ l → path_d (pathOf m' p) = drawn m' p.
Proof.
  revert m. induction l as [|p l IH]; intros m Hall.
  - exists m. split; [done|]. split; [apply redrawn_refl|].
    intros p Hp. by apply not_elem_of_nil in Hp.
  - apply Forall_cons in Hall as [[Hpf Hpt] Hall].
    simpl. unfold mbind, JS_bind, bind.
    rewrite (updatePath_committed p m Hpf Hpt).
    set (m1 := updatePathElement (set_path_d (drawn m p)) p m).
    assert (Hr1 : redrawn m m1) by apply redrawn_set_path_d.
    destruct (IH m1) as (m' & Hrun & Hr & Hd).
    { eapply Forall_impl; [exact Hall|]. intros q [Hqf Hqt]. simpl in *.
      destruct Hr1 as (_ & _ & _ & _ & _ & _ & _ & _ & Hp).
      destruct (Hp q) as [-> ->]. done. }
    exists m'. split; [done|]. split; [by eapply redrawn_trans|].
    intros q [->|Hq]%elem_of_cons; [|by apply Hd].
    destruct (decide (p ∈ l)) as [Hin|Hnin]; [by apply Hd|].
    pose proof (forEach_updatePath_other l m1 p Hnin) as Hsame.
    rewrite Hrun in Hsame. simpl in Hsame. rewrite Hsame. unfold m1. rewrite pathOf_updatePathElement_eq.
    simpl.
    assert (Hrr : redrawn m m') by (by eapply redrawn_trans).
    by rewrite (drawn_redrawn m m' p Hrr Hpf Hpt).
Qed.

(** ** Task drag gestures *)

Lemma foldl_updateTask_frame f (l : list nat) m :
  sameButTasks m (foldl (fun m e => updateTask f e m) m l).
Proof.
  revert m. induction l as [|a l IH]; intros m; [by repeat split|].
  simpl. destruct (IH (updateTask f a m)) as (? & ? & ? & ? & ? & ? & ? & ?).
  by repeat split.
Qed.

Lemma dispatched_onTaskClicked task event m :
  ∃ selection,
    dispatched (onTaskClicked task event m)
    = dispatched m ++ [selectionchanged selection].
Proof.
  unfold onTaskClicked, sendSelectionChanged.
  destruct (shiftKey event); simpl; [by eexists|].
  unfold resetSelected.
  destruct (foldl_updateTask_frame (set_classList (classRemove "selected"))
              (getSelected m) m) as (_ & _ & _ & _ & _ & _ & -> & _).
  by eexists.
Qed.

Lemma moveTask_unfold task pos m :
  moveTask task pos m
  = forEach (fun path => updatePath path None)
      (from (taskOf m task) ++ to (taskOf m task))
      (updateTask (set_style pos) task m).
Proof.
  unfold moveTask, mbind, JS_bind, bind, exec, read.
  by rewrite taskOf_updateTask_eq.
Qed.

Lemma stateOf_reportUncaught {A} (o : outcome A) :
  let m := stateOf o in
  let m' := reportUncaught o in
  taskElements m' = taskElements m ∧ pathElements m' = pathElements m
  ∧ itemsContainer m' = itemsContainer m ∧ arrows m' = arrows m
  ∧ panzoom m' = panzoom m ∧ linkModeCheckbox m' = linkModeCheckbox m
  ∧ listeners m' = listeners m ∧ dispatched m' = dispatched m.
Proof. by destruct o. Qed.

Lemma dispatched_moveTask task pos m :
  dispatched (reportUncaught (moveTask task pos m)) = dispatched m.
Proof.
  destruct (stateOf_reportUncaught (moveTask task pos m))
    as (_ & _ & _ & _ & _ & _ & _ & ->).
  rewrite moveTask_unfold.
  by destruct (forEach_updatePath_redrawn
                 (from (taskOf m task) ++ to (taskOf m task))
                 (updateTask (set_style pos) task m))
    as (_ & _ & _ & _ & _ & _ & -> & _).
Qed.

Lemma handle_move_TaskDrag m task pid initialPosition offX offY moved event :
  listeners m = [TaskDrag task pid initialPosition offX offY moved] →
  ∃ moved',
    listeners (handle m (PointerMove event))
    = [TaskDrag task pid initialPosition offX offY moved']
    ∧ (moved' = true ↔ moved = true ∨ exceeded initialPosition pid event)
    ∧ dispatched (handle m (PointerMove event)) = dispatched m.
Proof.
  intros Hl. unfold handle. rewrite Hl. cbn [dispatchMove onPointerMove].
  unfold exceeded. case_decide as Hid.
  - eexists. split; [reflexivity|]. split.
    + change (5 * 5)%Q with 25%Q. rewrite <- Qltb_lt.
      destruct (misc.Qltb 25 _); destruct moved; naive_solver.
    + cbn. apply dispatched_moveTask.
  - exists moved. split; [done|]. split; [naive_solver|done].
Qed.

Lemma run_moves_TaskDrag moves m task pid initialPosition offX offY moved :
  listeners m = [TaskDrag task pid initialPosition offX offY moved] →
  ∃ moved',
    listeners (run m (map PointerMove moves))
    = [TaskDrag task pid initialPosition offX offY moved']
    ∧ (moved' = true
       ↔ moved = true ∨ Exists (exceeded initialPosition pid) moves)
    ∧ dispatched (run m (map PointerMove moves)) = dispatched m.
Proof.
  revert m moved. induction moves as [|ev moves IH]; intros m moved Hl.
  - exists moved. split; [done|]. split; [|done].
    rewrite Exists_nil. tauto.
  - destruct (handle_move_TaskDrag m task pid initialPosition offX offY moved
                ev Hl) as (mv1 & Hl1 & Hmv1 & Hd1).
    destruct (IH _ mv1 Hl1) as (mv2 & Hl2 & Hmv2 & Hd2).
    exists mv2. split; [exact Hl2|]. split.
    + rewrite Hmv2, Hmv1, Exists_cons. tauto.
    + change (run m (map PointerMove (ev :: moves)))
        with (run (handle m (PointerMove ev)) (map PointerMove moves)).
      congruence.
Qed.

(** C6 (amended).  During a task-drag gesture every move event of the
    gesture's pointer repositions the task, whether or not the threshold has
    been exceeded: the task goes to the pointer's offset position minus the
    press-point offset (so the press point stays under the cursor) and every
    incident path is redrawn between the current boxes.  The threshold of 25
    on the squared distance only decides the flag [moved]. *)
Theorem drag_move_repositions (m : Model) (task : nat) (pid : Z)
    (initialPosition : geometry.Point) (offX offY : Q) (moved : bool)
    (event : PointerEvent) :
  listeners m = [TaskDrag task pid initialPosition offX offY moved] →
  pointerId event = pid →
  Forall (committed m) (from (taskOf m task) ++ to (taskOf m task)) →
  let m' := handle m (PointerMove event) in
  style_left (taskOf m' task) = (offsetX event - offX)%Q
  ∧ style_top (taskOf m' task) = (offsetY event - offY)%Q
  ∧ (style_left (taskOf m' task) + offX == offsetX event)%Q
  ∧ (style_top (taskOf m' task) + offY == offsetY event)%Q
  ∧ from (taskOf m' task) = from (taskOf m task)
  ∧ to (taskOf m' task) = to (taskOf m task)
  ∧ (∀ p, p ∈ from (taskOf m task) ++ to (taskOf m task) →
          path_d (pathOf m' p) = drawn m' p)
  ∧ (∃ moved',
       listeners m' = [TaskDrag task pid initialPosition offX offY moved']
       ∧ (moved' = true ↔ moved = true ∨ exceeded initialPosition pid event))
  ∧ console m' = console m.
Proof.
  intros Hl Hid Hall m'.
  set (position := {| geometry.x := (offsetX event - offX)%Q;
                      geometry.y := (offsetY event - offY)%Q |}).
  set (m1 := updateTask (set_style position) task m).
  destruct (forEach_updatePath_committed
              (from (taskOf m task) ++ to (taskOf m task)) m1 Hall)
    as (m2 & Hrun & Hr & Hd).
  destruct (handle_move_TaskDrag m task pid initialPosition offX offY moved
              event Hl) as (mv & Hl' & Hmv & _).
  fold m' in Hl'.
  assert (Hm' : m' = set_listeners (fun _ => listeners m') m2).
  { unfold m' at 1. unfold handle. rewrite Hl. cbn [dispatchMove onPointerMove].
    rewrite decide_True by done. fold position.
    rewrite moveTask_unfold. fold m1. rewrite Hrun. cbn [reportUncaught].
    f_equal. unfold m', handle. rewrite Hl. cbn [dispatchMove onPointerMove].
    rewrite decide_True by done. reflexivity. }
  assert (Ht : taskOf m' task = set_style position (taskOf m task)).
  { rewrite Hm'. change (taskOf (set_listeners _ m2) task) with (taskOf m2 task).
    rewrite (taskOf_redrawn m1 m2 task Hr). unfold m1.
    apply taskOf_updateTask_eq. }
  rewrite Ht. cbn [style_left style_top from to set_style position
                   geometry.x geometry.y].
  split; [done|]. split; [done|]. split; [ring|]. split; [ring|].
  split; [done|]. split; [done|]. split; [|split].
  - intros p Hp. rewrite Hm'. exact (Hd p Hp).
  - exists mv. by split.
  - rewrite Hm'. cbn [console set_listeners].
    destruct Hr as (_ & _ & _ & _ & _ & _ & _ & -> & _). done.
Qed.

(** ** Referential integrity *)

Lemma wf_wfP (m : Model) : wf m ↔ wfP m.
Proof.
  unfold wf. split.
  - intros (Hi & Ha & Ht & Hd).
    rewrite Forall_forall in Ht. rewrite Forall_forall in Hd.
    split; try done.
    + intros t Hin. destruct (Ht t Hin) as (? & _). done.
    + intros t Hin. destruct (Ht t Hin) as (_ & ? & ? & _). done.
    + intros t d Hin. destruct (Ht t Hin) as (_ & _ & _ & Hf & _).
      rewrite Forall_forall in Hf. split; [by apply Hf|].
      intros [Hda Hdf]. destruct (Hd d Hda) as [Hex _].
      apply Exists_exists in Hex as (a & _ & Hpa & Hdin). congruence.
    + intros t d Hin. destruct (Ht t Hin) as (_ & _ & _ & _ & Hf).
      rewrite Forall_forall in Hf. split; [by apply Hf|].
      intros [Hda Hdf]. destruct (Hd d Hda) as [_ Hex].
      apply Exists_exists in Hex as (a & _ & Hpa & Hdin). congruence.
    + intros d Hda. destruct (Hd d Hda) as [Hex1 Hex2].
      apply Exists_exists in Hex1 as (a & ? & ? & _).
      apply Exists_exists in Hex2 as (b & ? & ? & _). eauto 10.
  - intros [Hi Ha Hk Hl Hf Ht He]. repeat split; try done.
    + apply Forall_forall. intros t Hin. destruct (Hl t Hin).
      repeat split; try done; [by apply Hk| |]; apply Forall_forall; intros d Hd.
      * by apply Hf.
      * by apply Ht.
    + apply Forall_forall. intros d Hd.
      destruct (He d Hd) as (a & b & Hpa & Hpb & Hia & Hib).
      split; apply Exists_exists.
      * exists a. repeat split; try done. by apply Hf.
      * exists b. repeat split; try done. by apply Ht.
Qed.

Lemma filter_all {A} (P : A → Prop) `{∀ a, Decision (P a)} (l : list A) :
  Forall P l → filter P l = l.
Proof.
  induction 1 as [|a l Ha _ IH]; [done|].
  rewrite filter_cons, decide_True by done. by rewrite IH.
Qed.

Lemma indexOf_elem (l : list nat) (d : nat) :
  d ∈ l → is_Some (misc.indexOf l d).
Proof.
  induction l as [|a l IH]; [by intros ?%not_elem_of_nil|].
  intros Hin. simpl. case_decide; [by eexists|].
  apply elem_of_cons in Hin as [->|Hin]; [done|].
  destruct (IH Hin) as [i ->]. by eexists.
Qed.

(** On an array without repetition that holds the element,
    [removeFromArray] removes exactly that element. *)
Lemma removeFromArray_NoDup (l : list nat) (d : nat) :
  NoDup l → d ∈ l → misc.removeFromArray l d = filter (fun c => c ≠ d) l.
Proof.
  unfold misc.removeFromArray. induction l as [|a l IH]; intros Hnd Hin.
  - by apply not_elem_of_nil in Hin.
  - apply NoDup_cons in Hnd as [Ha Hnd]. simpl. case_decide as Had.
    + subst a. simpl. rewrite filter_cons, decide_False by (intros ?; done).
      symmetry. apply filter_all. apply Forall_forall. intros c Hc ->. done.
    + apply elem_of_cons in Hin as [->|Hin]; [done|].
      destruct (indexOf_elem l d Hin) as [i Hi].
      specialize (IH Hnd Hin). rewrite Hi in *. simpl.
      rewrite filter_cons, decide_True by done. by rewrite IH.
Qed.

Lemma taskOf_update_from_to f g a b m t :
  let m' := updateTask (set_to g) b (updateTask (set_from f) a m) in
  from (taskOf m' t)
  = (if decide (a = t) then f (from (taskOf m a)) else from (taskOf m t))
  ∧ to (taskOf m' t)
    = (if decide (b = t) then g (to (taskOf m b)) else to (taskOf m t))
  ∧ textContent (taskOf m' t) = textContent (taskOf m t)
  ∧ classList (taskOf m' t) = classList (taskOf m t)
  ∧ style_left (taskOf m' t) = style_left (taskOf m t)
  ∧ style_top (taskOf m' t) = style_top (taskOf m t).
Proof.
  cbv zeta. rewrite !taskOf_updateTask.
  repeat case_decide; subst; simpl; try done;
    rewrite ?taskOf_updateTask_eq; done.
Qed.

Lemma deleted_wfP ds m m' : wfP m → deleted ds m m' → wfP m'.
Proof.
  intros [Hi Ha Hk Hl Hf Ht He] (Ei & Ep & Ea & Eft & Eface & _).
  assert (Hpath : ∀ d, pathOf m' d = pathOf m d).
  { intros d. unfold pathOf. by rewrite Ep. }
  split.
  - by rewrite Ei.
  - rewrite Ea. by apply NoDup_filter.
  - intros t Hin. rewrite Ei in Hin. destruct (Eface t) as (_ & -> & _).
    by apply Hk.
  - intros t Hin. rewrite Ei in Hin. destruct (Eft t Hin) as [-> ->].
    destruct (Hl t Hin). split; by apply NoDup_filter.
  - intros t d Hin. rewrite Ei in Hin. destruct (Eft t Hin) as [-> _].
    rewrite Ea, !list_elem_of_filter, Hpath, (Hf t d Hin). tauto.
  - intros t d Hin. rewrite Ei in Hin. destruct (Eft t Hin) as [_ ->].
    rewrite Ea, !list_elem_of_filter, Hpath, (Ht t d Hin). tauto.
  - intros d Hd. rewrite Ea in Hd. apply list_elem_of_filter in Hd as [_ Hd].
    rewrite Hpath, Ei. by apply He.
Qed.

Lemma deleted_app ds1 ds2 m m1 m2 :
  deleted ds1 m m1 → deleted ds2 m1 m2 → deleted (ds1 ++ ds2) m m2.
Proof.
  intros (Ei & Ep & Ea & Eft & Eo & ? & ? & ? & ? & ?)
         (Ei' & Ep' & Ea' & Eft' & Eo' & ? & ? & ? & ? & ?).
  assert (Hff : ∀ l : list nat,
            filter (fun d => d ∉ ds2) (filter (fun d => d ∉ ds1) l)
            = filter (fun d => d ∉ ds1 ++ ds2) l).
  { intros l. rewrite list_filter_filter. apply list_filter_iff.
    intros d. rewrite elem_of_app. tauto. }
  unfold deleted. split_and!; try congruence.
  - intros t Hin.
    assert (Hin' : t ∈ itemsContainer m1) by (by rewrite Ei).
    destruct (Eft' t Hin') as [-> ->], (Eft t Hin) as [-> ->].
    by rewrite !Hff.
  - intros t. destruct (Eo t) as (E1 & E2 & E3 & E4).
    destruct (Eo' t) as (E1' & E2' & E3' & E4'). split_and!; congruence.
Qed.

(** [deleteDependency] removes a dependency of a well-formed model from the
    outgoing array of its predecessor, from the incoming array of its
    successor and from [arrows], and from nowhere else. *)
Lemma deleteDependency_spec (m : Model) (d : nat) :
  wfP m → d ∈ arrows m →
  ∃ m', deleteDependency d m = Returned tt m' ∧ deleted [d] m m'.
Proof.
  intros Hwf Hd.
  destruct (wf_ends m Hwf d Hd) as (a & b & Hpa & Hpb & Hia & Hib).
  assert (Hda : d ∈ from (taskOf m a)) by (by apply (wf_from m Hwf)).
  assert (Hdb : d ∈ to (taskOf m b)) by (by apply (wf_to m Hwf)).
  set (rm := fun arr : list nat => misc.removeFromArray arr d).
  exists (set_arrows (removeChild d)
            (updateTask (set_to rm) b (updateTask (set_from rm) a m))).
  split.
  - unfold deleteDependency, mbind, JS_bind, bind, read, exec.
    rewrite Hpa. frame. rewrite Hpb. unfold arrows_removeChild.
    cbn [arrows updateTask set_taskElements]. by rewrite decide_True.
  - assert (Hne : ∀ l : list nat,
              filter (fun c => c ≠ d) l = filter (fun c => c ∉ [d]) l).
    { intros l. apply list_filter_iff. intros c.
      rewrite list_elem_of_singleton. done. }
    unfold deleted. split_and!; try done.
    + cbn [arrows set_arrows updateTask set_taskElements]. apply Hne.
    + intros t Hin. frame.
      destruct (taskOf_update_from_to rm rm a b m t) as (-> & -> & _).
      destruct (wf_lists m Hwf a Hia) as [Hnda _].
      destruct (wf_lists m Hwf b Hib) as [_ Hndb].
      split; case_decide; subst; unfold rm.
      * rewrite removeFromArray_NoDup by done. apply Hne.
      * symmetry. apply filter_all, Forall_forall. intros c Hc Hcd.
        apply list_elem_of_singleton in Hcd as ->.
        apply (wf_from m Hwf t d Hin) in Hc as [_ Hc]. congruence.
      * rewrite removeFromArray_NoDup by done. apply Hne.
      * symmetry. apply filter_all, Forall_forall. intros c Hc Hcd.
        apply list_elem_of_singleton in Hcd as ->.
        apply (wf_to m Hwf t d Hin) in Hc as [_ Hc]. congruence.
    + intros t. frame.
      destruct (taskOf_update_from_to rm rm a b m t) as (_ & _ & ? & ? & ? & ?).
      done.
Qed.

Lemma forEach_deleteDependency (l : list nat) (m : Model) :
  wfP m → NoDup l → (∀ d, d ∈ l → d ∈ arrows m) →
  ∃ m', forEach deleteDependency l m = Returned tt m' ∧ deleted l m m'.
Proof.
  revert m. induction l as [|d l IH]; intros m Hwf Hnd Hsub.
  - exists m. split; [done|]. unfold deleted. split_and!; try done.
    + symmetry. apply filter_all, Forall_forall. intros ? _. apply not_elem_of_nil.
    + intros t _. split; symmetry; apply filter_all, Forall_forall;
        intros ? _; apply not_elem_of_nil.
  - apply NoDup_cons in Hnd as [Hdl Hnd].
    destruct (deleteDependency_spec m d Hwf) as (m1 & Hrun1 & Hdel1).
    { apply Hsub, list_elem_of_here. }
    destruct (IH m1) as (m2 & Hrun2 & Hdel2); [by eapply deleted_wfP|done| |].
    { intros c Hc. destruct Hdel1 as (_ & _ & -> & _).
      apply list_elem_of_filter. split.
      - intros ->%list_elem_of_singleton. done.
      - by apply Hsub, list_elem_of_further. }
    exists m2. split.
    + simpl. unfold mbind, JS_bind, bind. by rewrite Hrun1.
    + change (d :: l) with ([d] ++ l). by eapply deleted_app.
Qed.

(** X28.  On a well-formed model, which excludes the states between the
    press and the release of a link gesture, [deleteTask] on a task of the
    canvas first deletes every dependency incident to the task, each with
    [deleteDependency], which leaves the task in place with both adjacency
    arrays empty, and only then removes the task.  Afterwards the task is
    gone, [arrows] holds exactly the dependencies that were not incident to
    it, no dependency has the task at either end, the adjacency arrays of
    the remaining tasks list only dependencies of [arrows], and the model
    is well formed again. *)
Theorem deleteTask_severs (m : Model) (task : nat) :
  wf m → task ∈ itemsContainer m →
  ∃ m1 m',
    deleteIncident task m = Returned tt m1
    ∧ task ∈ itemsContainer m1
    ∧ from (taskOf m1 task) = [] ∧ to (taskOf m1 task) = []
    ∧ itemsContainer_removeChild task m1 = Returned tt m'
    ∧ deleteTask task m = Returned tt m'
    ∧ (∀ t, t ∈ itemsContainer m' ↔ t ∈ itemsContainer m ∧ t ≠ task)
    ∧ (∀ d, d ∈ arrows m'
            ↔ d ∈ arrows m ∧ path_from (pathOf m d) ≠ Some task
              ∧ path_to (pathOf m d) ≠ Some task)
    ∧ (∀ d, d ∈ arrows m' →
            path_from (pathOf m' d) ≠ Some task
            ∧ path_to (pathOf m' d) ≠ Some task)
    ∧ (∀ t d, t ∈ itemsContainer m' →
              d ∈ from (taskOf m' t) ++ to (taskOf m' t) → d ∈ arrows m')
    ∧ wf m'.
Proof.
  intros Hwf%wf_wfP Hin.
  destruct (wf_lists m Hwf task Hin) as [Hndf Hndt].
  destruct (forEach_deleteDependency (from (taskOf m task)) m Hwf Hndf)
    as (ma & Hruna & Hdela).
  { intros d Hd. by apply (wf_from m Hwf task d Hin) in Hd as [? _]. }
  assert (Hwfa : wfP ma) by (by eapply deleted_wfP).
  assert (Hina : task ∈ itemsContainer ma).
  { destruct Hdela as (-> & _). done. }
  destruct (wf_lists ma Hwfa task Hina) as [_ Hndta].
  destruct (forEach_deleteDependency (to (taskOf ma task)) ma Hwfa Hndta)
    as (m1 & Hrun1 & Hdel1).
  { intros d Hd. by apply (wf_to ma Hwfa task d Hina) in Hd as [? _]. }
  assert (Hwf1 : wfP m1) by (by eapply deleted_wfP).
  assert (Hin1 : task ∈ itemsContainer m1).
  { destruct Hdel1 as (-> & _). done. }
  pose proof (deleted_app _ _ _ _ _ Hdela Hdel1) as Hdel.
  assert (Hfrom1 : from (taskOf m1 task) = []).
  { destruct Hdel as (_ & _ & _ & Hft & _). destruct (Hft task Hin) as [-> _].
    apply elem_of_nil_inv. intros d [Hd1 Hd2]%list_elem_of_filter.
    apply Hd1, elem_of_app. by left. }
  assert (Hto1 : to (taskOf m1 task) = []).
  { destruct Hdel1 as (_ & _ & _ & Hft & _). destruct (Hft task Hina) as [_ ->].
    apply elem_of_nil_inv. intros d [Hd1 Hd2]%list_elem_of_filter. done. }
  assert (Hpath1 : ∀ d, pathOf m1 d = pathOf m d).
  { intros d. destruct Hdel as (_ & Ep & _). unfold pathOf. by rewrite Ep. }
  assert (Hends1 : ∀ d, d ∈ arrows m1 →
            path_from (pathOf m1 d) ≠ Some task
            ∧ path_to (pathOf m1 d) ≠ Some task).
  { intros d Hd. split; intros Hp.
    - assert (Hd' : d ∈ from (taskOf m1 task)) by (by apply (wf_from m1 Hwf1)).
      rewrite Hfrom1 in Hd'. by apply not_elem_of_nil in Hd'.
    - assert (Hd' : d ∈ to (taskOf m1 task)) by (by apply (wf_to m1 Hwf1)).
      rewrite Hto1 in Hd'. by apply not_elem_of_nil in Hd'. }
  set (m' := set_itemsContainer (removeChild task) m1).
  assert (Hitems' : ∀ t, t ∈ itemsContainer m' ↔ t ∈ itemsContainer m1 ∧ t ≠ task).
  { intros t. unfold m', removeChild. cbn [itemsContainer set_itemsContainer].
    rewrite list_elem_of_filter. tauto. }
  assert (Hwf' : wfP m').
  { destruct Hwf1 as [Hi Ha Hk Hl Hf Ht He]. split.
    - by apply NoDup_filter.
    - done.
    - intros t [Ht1 _]%Hitems'. by apply Hk.
    - intros t [Ht1 _]%Hitems'. by apply Hl.
    - intros t d [Ht1 _]%Hitems'. by apply Hf.
    - intros t d [Ht1 _]%Hitems'. by apply Ht.
    - intros d Hd. destruct (He d Hd) as (a & b & Hpa & Hpb & Hia & Hib).
      destruct (Hends1 d Hd) as [Hna Hnb].
      exists a, b. split_and!; try done; apply Hitems'; split; try done;
        congruence. }
  assert (Hremove : itemsContainer_removeChild task m1 = Returned tt m').
  { unfold itemsContainer_removeChild. by rewrite decide_True. }
  assert (Hincident : deleteIncident task m = Returned tt m1).
  { unfold deleteIncident, mbind, JS_bind, bind, read. rewrite Hruna.
    exact Hrun1. }
  exists m1, m'. split_and!; try done.
  - unfold deleteTask, mbind, JS_bind, bind. by rewrite Hincident.
  - intros t. rewrite Hitems'. destruct Hdel as (-> & _). done.
  - intros d. change (arrows m') with (arrows m1). split.
    + intros Hd. destruct (Hends1 d Hd) as [Hna Hnb]. rewrite Hpath1 in Hna, Hnb.
      split_and!; try done. destruct Hdel as (_ & _ & Ea & _).
      rewrite Ea in Hd. by apply list_elem_of_filter in Hd as [_ ?].
    + intros (Hd & Hna & Hnb). destruct Hdel as (_ & _ & -> & _).
      apply list_elem_of_filter. split; [|done].
      intros [Hd1|Hd2]%elem_of_app.
      * apply (wf_from m Hwf task d Hin) in Hd1 as [_ ?]. done.
      * destruct Hdela as (_ & _ & _ & Hft & _).
        destruct (Hft task Hin) as [_ Eto]. rewrite Eto in Hd2.
        apply list_elem_of_filter in Hd2 as [_ Hd2].
        apply (wf_to m Hwf task d Hin) in Hd2 as [_ ?]. done.
  - intros t d Ht [Hd|Hd]%elem_of_app.
    + by apply (wf_from m' Hwf' t d Ht) in Hd as [? _].
    + by apply (wf_to m' Hwf' t d Ht) in Hd as [? _].
  - by apply wf_wfP.
Qed.

(** ** Loading and saving a document *)

Lemma taskRecord_ext m m' e :
  sameFace (taskOf m e) (taskOf m' e) → taskRecord m' e = taskRecord m e.
Proof.
  intros (Ht & Hc & Hl & Hp). unfold taskRecord, getOffsetBox. cbn.
  by rewrite Ht, Hc, Hl, Hp.
Qed.

Lemma foldl_remove_items (l : list nat) (m : Model) :
  let m' := foldl (fun m e => set_itemsContainer (removeChild e) m) m l in
  itemsContainer m' = filter (fun c => c ∉ l) (itemsContainer m)
  ∧ taskElements m' = taskElements m ∧ pathElements m' = pathElements m
  ∧ arrows m' = arrows m.
Proof.
  revert m. induction l as [|e l IH]; intros m; cbv zeta.
  - split_and!; try done. symmetry. apply filter_all, Forall_forall.
    intros ? _. apply not_elem_of_nil.
  - simpl. destruct (IH (set_itemsContainer (removeChild e) m))
      as (-> & -> & -> & ->). split_and!; try done.
    cbn [itemsContainer set_itemsContainer]. unfold removeChild.
    rewrite list_filter_filter. apply list_filter_iff. intros c.
    rewrite elem_of_cons. tauto.
Qed.

Lemma foldl_remove_arrows (l : list nat) (m : Model) :
  let m' := foldl (fun m e => set_arrows (removeChild e) m) m l in
  arrows m' = filter (fun c => c ∉ l) (arrows m)
  ∧ taskElements m' = taskElements m ∧ pathElements m' = pathElements m
  ∧ itemsContainer m' = itemsContainer m.
Proof.
  revert m. induction l as [|e l IH]; intros m; cbv zeta.
  - split_and!; try done. symmetry. apply filter_all, Forall_forall.
    intros ? _. apply not_elem_of_nil.
  - simpl. destruct (IH (set_arrows (removeChild e) m))
      as (-> & -> & -> & ->). split_and!; try done.
    cbn [arrows set_arrows]. unfold removeChild.
    rewrite list_filter_filter. apply list_filter_iff. intros c.
    rewrite elem_of_cons. tauto.
Qed.

(** [clearGraph] leaves no task and no dependency. *)
Lemma clearGraph_spec (m : Model) :
  getTasks (clearGraph m) = [] ∧ arrows (clearGraph m) = [].
Proof.
  unfold clearGraph, getDependencies.
  set (m1 := foldl (fun m e => set_itemsContainer (removeChild e) m) m (getTasks m)).
  destruct (foldl_remove_items (getTasks m) m) as (Hi & Ht & _ & _).
  fold m1 in Hi, Ht.
  destruct (foldl_remove_arrows (arrows m1) m1) as (Ha & Ht' & _ & Hi').
  split.
  - unfold getTasks at 1. rewrite Hi', Hi.
    apply elem_of_nil_inv. intros e [He1 [He2 He3]%list_elem_of_filter]%list_elem_of_filter.
    apply He2. unfold getTasks. apply list_elem_of_filter. split; [|done].
    unfold taskOf in *. by rewrite Ht', Ht in He1.
  - rewrite Ha. apply elem_of_nil_inv.
    intros e [He1 He2]%list_elem_of_filter. done.
Qed.

(** [addTask] appends one new element and leaves the others alone. *)
Lemma addTask_spec (task : AddTask) (m : Model) :
  let e := fst (addTask task m) in
  let m' := snd (addTask task m) in
  (e ∉ itemsContainer m)
  ∧ taskOf m e = blankTask
  ∧ itemsContainer m' = itemsContainer m ++ [e]
  ∧ arrows m' = arrows m ∧ pathElements m' = pathElements m
  ∧ (∀ c, c ≠ e → taskOf m' c = taskOf m c)
  ∧ from (taskOf m' e) = [] ∧ to (taskOf m' e) = [].
Proof.
  cbv zeta. unfold addTask. cbn [fst snd].
  pose proof (is_fresh ((dom (taskElements m)
                         ∪ list_to_set (itemsContainer m)) : gset nat)) as Hfresh.
  fold (createTaskElement m) in Hfresh.
  set (e := createTaskElement m) in *. clearbody e.
  apply not_elem_of_union in Hfresh as [Hdom Hitems].
  rewrite elem_of_list_to_set in Hitems.
  apply not_elem_of_dom in Hdom.
  split_and!; try done.
  - unfold taskOf. by rewrite Hdom.
  - by destruct (add_status task) as [[]|].
  - by destruct (add_status task) as [[]|].
  - by destruct (add_status task) as [[]|].
  - intros c Hc. destruct (add_status task) as [[]|]; by frame.
  - destruct (add_status task) as [[]|]; by frame.
  - destruct (add_status task) as [[]|]; by frame.
Qed.

Lemma filter_ext_in {A} (P Q : A → Prop) `{∀ a, Decision (P a)}
    `{∀ a, Decision (Q a)} (l : list A) :
  (∀ a, a ∈ l → P a ↔ Q a) → filter P l = filter Q l.
Proof.
  induction l as [|a l IH]; intros Hext; [done|].
  rewrite !filter_cons.
  rewrite IH by (intros c Hc; apply Hext; by apply list_elem_of_further).
  pose proof (Hext a (list_elem_of_here _ _)).
  repeat case_decide; tauto || done.
Qed.

Lemma getTasks_snoc (m m' : Model) (e : nat) :
  e ∉ itemsContainer m →
  itemsContainer m' = itemsContainer m ++ [e] →
  (∀ c, c ≠ e → taskOf m' c = taskOf m c) →
  "task" ∈ classList (taskOf m' e) →
  getTasks m' = getTasks m ++ [e].
Proof.
  intros He Hi Ho Hc. unfold getTasks. rewrite Hi, filter_app.
  rewrite filter_cons, decide_True by done. rewrite filter_nil. f_equal.
  apply filter_ext_in. intros c Hin. rewrite Ho; [done|].
  intros ->. done.
Qed.

(** The task loop of [loadGraph]: the records of the document are appended,
    in order, to those of the tasks already there. *)
Lemma forEach_addTask (ts : list Task) (m : Model) :
  ∃ m',
    forEach (fun t => exec (fun m => snd (addTask (asAddTask t) m))) ts m
    = Returned tt m'
    ∧ map (taskRecord m') (getTasks m') = map (taskRecord m) (getTasks m) ++ ts
    ∧ arrows m' = arrows m.
Proof.
  revert m. induction ts as [|t ts IH]; intros m.
  - exists m. by rewrite app_nil_r.
  - pose proof (addTask_spec (asAddTask t) m) as Hs.
    pose proof (taskOf_addTask (asAddTask t) m) as Hf.
    cbv zeta in Hs, Hf.
    assert (Hrun1 : forEach (fun t => exec (fun m => snd (addTask (asAddTask t) m)))
                      (t :: ts) m
                    = forEach (fun t => exec (fun m => snd (addTask (asAddTask t) m)))
                        ts (snd (addTask (asAddTask t) m))) by done.
    rewrite Hrun1. clear Hrun1.
    set (e := fst (addTask (asAddTask t) m)) in *.
    set (m1 := snd (addTask (asAddTask t) m)) in *. clearbody e m1.
    destruct Hs as (He & Hblank & Hi & Ha & _ & Ho & _).
    destruct Hf as (Hn & Hc & Hx & Hy & _).
    rewrite Hblank in Hc. cbn in Hn, Hc, Hx, Hy.
    assert (Htask : "task" ∈ classList (taskOf m1 e)).
    { rewrite Hc. unfold classAdd. destruct (status t); set_solver. }
    destruct (IH m1) as (m' & Hrun & Hrec & Harr).
    exists m'. split; [exact Hrun|]. split; [|congruence].
    rewrite Hrec, (getTasks_snoc m m1 e He Hi Ho Htask).
    rewrite map_app, <- app_assoc. f_equal.
    + apply map_ext_in. intros c Hin. apply taskRecord_ext.
      assert (c ≠ e).
      { intros ->. apply He. apply list_elem_of_In in Hin.
        unfold getTasks in Hin. by apply list_elem_of_filter in Hin as [_ ?]. }
      by rewrite Ho.
    + simpl. f_equal. unfold taskRecord, getOffsetBox.
      cbn [name pos status geometry.left geometry.top].
      rewrite Hn, Hx, Hy, Hc. destruct t as [n st [px py]]. cbn. f_equal.
      unfold contains, classAdd.
      destruct st; [rewrite bool_decide_eq_false_2|rewrite bool_decide_eq_true_2];
        try done; set_solver.
Qed.

Lemma sameFace_refl t : sameFace t t.
Proof. by repeat split. Qed.

Lemma sameFace_trans t1 t2 t3 : sameFace t1 t2 → sameFace t2 t3 → sameFace t1 t3.
Proof. intros (? & ? & ? & ?) (? & ? & ? & ?). repeat split; congruence. Qed.

Lemma resolves_findTask m text :
  resolves m text →
  ∃ e, findTask m (getTasks m) text = Some e ∧ e ∈ getTasks m
       ∧ textContent (taskOf m e) = text.
Proof.
  intros Hr. destruct (findTask m (getTasks m) text) as [e|] eqn:E.
  - apply findTask_Some in E as [? ?]. eauto.
  - by apply findTask_None in E.
Qed.

(** [addDependency] between two names that resolve: one new element at the
    end of [arrows], from the first task showing the predecessor name to the
    first task showing the successor name. *)
Lemma addDependency_resolved (dependency : Dependency) (m : Model) :
  resolves m (predecessor dependency) → resolves m (successor dependency) →
  ∃ m' d a b,
    addDependency dependency m = Returned tt m'
    ∧ (d ∉ arrows m)
    ∧ arrows m' = arrows m ++ [d]
    ∧ itemsContainer m' = itemsContainer m
    ∧ (∀ c, sameFace (taskOf m c) (taskOf m' c))
    ∧ (∀ c, c ≠ d → path_from (pathOf m' c) = path_from (pathOf m c)
                    ∧ path_to (pathOf m' c) = path_to (pathOf m c))
    ∧ path_from (pathOf m' d) = Some a ∧ path_to (pathOf m' d) = Some b
    ∧ textContent (taskOf m a) = predecessor dependency
    ∧ textContent (taskOf m b) = successor dependency
    ∧ a ∈ getTasks m ∧ b ∈ getTasks m
    ∧ (∀ c, from (taskOf m' c)
            = (if decide (a = c) then from (taskOf m c) ++ [d]
               else from (taskOf m c))
            ∧ to (taskOf m' c)
              = (if decide (b = c) then to (taskOf m c) ++ [d]
                 else to (taskOf m c))).
Proof.
  intros (a & Ea & Hia & Hta)%resolves_findTask (b & Eb & Hib & Htb)%resolves_findTask.
  pose proof (is_fresh ((dom (pathElements m) ∪ list_to_set (arrows m)) : gset nat))
    as Hfresh.
  fold (createPathElement m) in Hfresh.
  set (d := createPathElement m) in *.
  apply not_elem_of_union in Hfresh as [_ Harrows].
  rewrite elem_of_list_to_set in Harrows.
  set (m4 := set_arrows (fun c => c ++ [d])
               (updateTask (set_to (fun arr => arr ++ [d])) b
                  (updateTask (set_from (fun arr => arr ++ [d])) a
                     (updatePathElement (set_path_ends (Some a) (Some b)) d m)))).
  assert (Hpd : pathOf m4 d = set_path_ends (Some a) (Some b) (pathOf m d)).
  { unfold m4. by frame. }
  assert (Hrun : addDependency dependency m
                 = Returned tt (updatePathElement (set_path_d (drawn m4 d)) d m4)).
  { unfold addDependency, mbind, JS_bind, bind, read, exec.
    rewrite Ea, Eb. fold d. fold m4. apply updatePath_committed; by rewrite Hpd. }
  exists (updatePathElement (set_path_d (drawn m4 d)) d m4), d, a, b.
  split_and!; try done.
  - intros c. unfold m4. frame.
    destruct (taskOf_update_from_to (fun arr => arr ++ [d]) (fun arr => arr ++ [d])
                a b (updatePathElement (set_path_ends (Some a) (Some b)) d m) c)
      as (_ & _ & ? & ? & ? & ?).
    done.
  - intros c Hc. rewrite pathOf_updatePathElement_ne by done.
    unfold m4. frame. done.
  - rewrite pathOf_updatePathElement_eq, Hpd. done.
  - rewrite pathOf_updatePathElement_eq, Hpd. done.
  - intros c. unfold m4. frame.
    destruct (taskOf_update_from_to (fun arr => arr ++ [d]) (fun arr => arr ++ [d])
                a b (updatePathElement (set_path_ends (Some a) (Some b)) d m) c)
      as (-> & -> & _).
    frame. split; case_decide; by subst.
Qed.

Lemma resolves_preserved m m' text :
  getTasks m' = getTasks m →
  (∀ c, sameFace (taskOf m c) (taskOf m' c)) →
  resolves m text → resolves m' text.
Proof.
  intros Hg Hf Hr. unfold resolves in *. rewrite Hg.
  eapply Exists_impl; [exact Hr|]. intros c Hc. simpl in *.
  destruct (Hf c) as (-> & _). done.
Qed.

Lemma Forall2_impl_in {A B} (P Q : A → B → Prop) (l : list A) (k : list B) :
  Forall2 P l k → (∀ a b, a ∈ l → P a b → Q a b) → Forall2 Q l k.
Proof.
  induction 1 as [|a b l k Hab _ IH]; intros Himp; constructor.
  - apply Himp; [apply list_elem_of_here|done].
  - apply IH. intros a' b' Hin. apply Himp. by apply list_elem_of_further.
Qed.

(** The dependency loop of [loadGraph] on entries that all resolve: the
    records of the entries are appended, in order, to those of the
    dependencies already there, and no task changes face. *)
Lemma forEach_addDependency (deps : list Dependency) (m : Model)
    (recs : list Dependency) :
  Forall (fun dep => resolves m (predecessor dep) ∧ resolves m (successor dep))
    deps →
  Forall2 (fun c r => dependencyRecord m c = Some r) (arrows m) recs →
  ∃ m',
    forEach addDependency deps m = Returned tt m'
    ∧ getTasks m' = getTasks m
    ∧ (∀ c, sameFace (taskOf m c) (taskOf m' c))
    ∧ Forall2 (fun c r => dependencyRecord m' c = Some r) (arrows m')
        (recs ++ deps).
Proof.
  revert m recs. induction deps as [|dep deps IH]; intros m recs Hres Hrecs.
  - exists m. rewrite app_nil_r. split_and!; done.
  - apply Forall_cons in Hres as [[Hp Hs] Hres].
    destruct (addDependency_resolved dep m Hp Hs)
      as (m1 & d & a & b & Hrun & Hd & Ha & Hi & Hf & Ho & Hda & Hdb & Hta & Htb & _).
    assert (Hg : getTasks m1 = getTasks m).
    { apply getTasks_preserved; [done|]. intros c.
      destruct (Hf c) as (_ & -> & _). done. }
    destruct (IH m1 (recs ++ [dep])) as (m' & Hrun' & Hg' & Hf' & Hrecs').
    { eapply Forall_impl; [exact Hres|]. intros dep' [? ?]. simpl.
      split; by eapply resolves_preserved. }
    { rewrite Ha. apply Forall2_app.
      - eapply Forall2_impl_in; [exact Hrecs|]. intros c r Hc Hr. simpl in *.
        assert (Hcd : c ≠ d) by (intros ->; done).
        unfold dependencyRecord in *. destruct (Ho c Hcd) as [-> ->].
        destruct (path_from (pathOf m c)) as [a'|]; [|done].
        destruct (path_to (pathOf m c)) as [b'|]; [|done].
        destruct (Hf a') as (-> & _), (Hf b') as (-> & _). done.
      - constructor; [|constructor]. unfold dependencyRecord.
        rewrite Hda, Hdb. destruct (Hf a) as (-> & _), (Hf b) as (-> & _).
        rewrite Hta, Htb. by destruct dep. }
    exists m'. split_and!.
    + simpl. unfold mbind, JS_bind, bind. by rewrite Hrun.
    + congruence.
    + intros c. eapply sameFace_trans; [apply Hf|apply Hf'].
    + by rewrite <- app_assoc in Hrecs'.
Qed.

(** Loading a document whose dependencies all name tasks of the document,
    then saving, gives the document back. *)
Lemma loadGraph_getGraph (graph : Graph) (m : Model) :
  Forall (fun dep => predecessor dep ∈ map name (tasks graph)
                     ∧ successor dep ∈ map name (tasks graph))
    (dependencies graph) →
  ∃ m', loadGraph graph m = Returned tt m' ∧ getGraph m' = Returned graph m'.
Proof.
  intros Hdeps.
  destruct (clearGraph_spec m) as [Hct Hca].
  destruct (forEach_addTask (tasks graph) (clearGraph m)) as (m1 & Hrun1 & Hrec1 & Ha1).
  rewrite Hct in Hrec1. simpl in Hrec1. rewrite Hca in Ha1.
  assert (Hres : ∀ text, text ∈ map name (tasks graph) → resolves m1 text).
  { intros text Hin. rewrite <- Hrec1 in Hin. unfold resolves.
    apply list_elem_of_In, in_map_iff in Hin as (r & Hr & Hin).
    apply in_map_iff in Hin as (c & <- & Hc).
    apply Exists_exists. exists c. split; [by apply list_elem_of_In|done]. }
  destruct (forEach_addDependency (dependencies graph) m1 [])
    as (m2 & Hrun2 & Hg2 & Hf2 & Hrecs2).
  { eapply Forall_impl; [exact Hdeps|]. intros dep [? ?]. simpl.
    split; by apply Hres. }
  { rewrite Ha1. constructor. }
  exists m2. split.
  - unfold loadGraph, mbind, JS_bind, bind.
    change (exec clearGraph m) with (Returned tt (clearGraph m)).
    cbv beta iota. by rewrite Hrun1.
  - unfold getGraph, getDependencies. simpl in Hrecs2.
    rewrite (mapM_Some_2 _ _ _ Hrecs2). f_equal.
    destruct graph as [ts ds]. simpl in *. f_equal.
    rewrite Hg2, <- Hrec1. apply map_ext_in. intros c _.
    apply taskRecord_ext. apply Hf2.
Qed.

(** C2 (amended).  For every document in which all task names are unique
    and every dependency names tasks of the document at both ends, loading
    the document and then saving yields a document with the same tasks
    (name, position, status) and the same dependencies, up to the order of
    the two arrays. *)
Theorem loadGraph_getGraph_roundtrip (graph : Graph) (m : Model) :
  NoDup (map name (tasks graph)) →
  Forall (fun dep => predecessor dep ∈ map name (tasks graph)
                     ∧ successor dep ∈ map name (tasks graph))
    (dependencies graph) →
  ∃ m' document,
    loadGraph graph m = Returned tt m'
    ∧ getGraph m' = Returned document m'
    ∧ Permutation (tasks document) (tasks graph)
    ∧ Permutation (dependencies document) (dependencies graph).
Proof.
  intros _ Hdeps.
  destruct (loadGraph_getGraph graph m Hdeps) as (m' & Hload & Hget).
  exists m', graph. split_and!; done.
Qed.

(** ** The invariant is established and kept *)

Lemma getTasks_items (m : Model) e : e ∈ getTasks m → e ∈ itemsContainer m.
Proof. unfold getTasks. by intros [_ ?]%list_elem_of_filter. Qed.

Lemma wfP_getTasks (m : Model) : wfP m → getTasks m = itemsContainer m.
Proof.
  intros Hwf. unfold getTasks. apply filter_all, Forall_forall.
  apply (wf_tasks m Hwf).
Qed.

Lemma wfP_no_children (m : Model) :
  itemsContainer m = [] → arrows m = [] → wfP m.
Proof.
  intros Hi Ha. split; rewrite ?Hi, ?Ha; try apply NoDup_nil_2;
    try (intros t Ht; by apply not_elem_of_nil in Ht);
    intros t d Ht; by apply not_elem_of_nil in Ht.
Qed.

Lemma clearGraph_wfP (m : Model) : wfP m → wfP (clearGraph m).
Proof.
  intros Hwf. destruct (clearGraph_spec m) as [Ht Ha].
  apply wfP_no_children; [|done].
  unfold clearGraph, getDependencies in *.
  set (m1 := foldl (fun m e => set_itemsContainer (removeChild e) m) m (getTasks m)) in *.
  destruct (foldl_remove_items (getTasks m) m) as (Hi & _).
  fold m1 in Hi.
  destruct (foldl_remove_arrows (arrows m1) m1) as (_ & _ & _ & ->).
  rewrite Hi, (wfP_getTasks m Hwf). apply elem_of_nil_inv.
  intros e [? ?]%list_elem_of_filter. done.
Qed.

Lemma addTask_wfP (task : AddTask) (m : Model) :
  wfP m → wfP (snd (addTask task m)).
Proof.
  intros [Hi Ha Hk Hl Hf Ht He].
  pose proof (addTask_spec task m) as Hs.
  pose proof (taskOf_addTask task m) as Hc.
  cbv zeta in Hs, Hc.
  set (e := fst (addTask task m)) in *.
  set (m' := snd (addTask task m)) in *. clearbody e m'.
  destruct Hs as (Hfresh & _ & Hi' & Ha' & Hp' & Ho & Hfrom & Hto).
  destruct Hc as (_ & Hcl & _).
  assert (Hpath : ∀ d, pathOf m' d = pathOf m d).
  { intros d. unfold pathOf. by rewrite Hp'. }
  assert (Hcase : ∀ t, t ∈ itemsContainer m' →
            (t ∈ itemsContainer m ∧ t ≠ e) ∨ t = e).
  { intros t. rewrite Hi', elem_of_app, list_elem_of_singleton.
    intros [?|?]; [left|by right]. split; [done|]. intros ->. done. }
  split.
  - rewrite Hi'. apply NoDup_app. split; [done|]. split; [|apply NoDup_singleton].
    intros c Hc ->%list_elem_of_singleton. done.
  - by rewrite Ha'.
  - intros t [[Hin Hne]| ->]%Hcase.
    + rewrite Ho by done. by apply Hk.
    + rewrite Hcl. unfold classAdd. destruct (add_status task) as [[]|]; set_solver.
  - intros t [[Hin Hne]| ->]%Hcase.
    + rewrite Ho by done. by apply Hl.
    + rewrite Hfrom, Hto. split; apply NoDup_nil_2.
  - intros t d [[Hin Hne]| ->]%Hcase.
    + rewrite Ho, Ha', Hpath by done. by apply Hf.
    + rewrite Hfrom, Ha', Hpath. split; [by intros ?%not_elem_of_nil|].
      intros [Hd Hpe]. destruct (He d Hd) as (a & _ & Hpa & _ & Hia & _).
      congruence.
  - intros t d [[Hin Hne]| ->]%Hcase.
    + rewrite Ho, Ha', Hpath by done. by apply Ht.
    + rewrite Hto, Ha', Hpath. split; [by intros ?%not_elem_of_nil|].
      intros [Hd Hpe]. destruct (He d Hd) as (_ & b & _ & Hpb & _ & Hib).
      congruence.
  - intros d Hd. rewrite Ha' in Hd. rewrite Hpath, Hi'.
    destruct (He d Hd) as (a & b & ? & ? & ? & ?).
    exists a, b. split_and!; try done; apply elem_of_app; by left.
Qed.

Lemma consoleError_wfP message dependency (m : Model) :
  wfP m → wfP (consoleError message dependency m).
Proof. intros [Hi Ha Hk Hl Hf Ht He]. by split. Qed.

Lemma addDependency_wfP (dependency : Dependency) (m : Model) :
  wfP m →
  ∃ m', addDependency dependency m = Returned tt m' ∧ wfP m'.
Proof.
  intros Hwf.
  destruct (decide (resolves m (predecessor dependency))) as [Hp|Hp];
    [destruct (decide (resolves m (successor dependency))) as [Hs|Hs]|].
  - destruct (addDependency_resolved dependency m Hp Hs)
      as (m' & d & a & b & Hrun & Hd & Ha' & Hi' & Hface & Ho & Hda & Hdb
          & _ & _ & Hia%getTasks_items & Hib%getTasks_items & Hlists).
    exists m'. split; [done|].
    destruct Hwf as [Hi Ha Hk Hl Hf Ht He].
    assert (Hnf : ∀ t, t ∈ itemsContainer m → d ∉ from (taskOf m t)).
    { intros t Hin Hdf. apply (Hf t d Hin) in Hdf as [? _]. done. }
    assert (Hnt : ∀ t, t ∈ itemsContainer m → d ∉ to (taskOf m t)).
    { intros t Hin Hdf. apply (Ht t d Hin) in Hdf as [? _]. done. }
    split.
    + by rewrite Hi'.
    + rewrite Ha'. apply NoDup_app. split; [done|]. split; [|apply NoDup_singleton].
      intros c Hc ->%list_elem_of_singleton. done.
    + intros t Hin. rewrite Hi' in Hin. destruct (Hface t) as (_ & -> & _).
      by apply Hk.
    + intros t Hin. rewrite Hi' in Hin. destruct (Hlists t) as [-> ->].
      destruct (Hl t Hin) as [Hn1 Hn2].
      split; case_decide; subst; try done; apply NoDup_app;
        (split; [done|]); (split; [|apply NoDup_singleton]);
        intros c Hc ->%list_elem_of_singleton.
      * by apply (Hnf t Hin).
      * by apply (Hnt t Hin).
    + intros t d' Hin. rewrite Hi' in Hin. destruct (Hlists t) as [-> _].
      rewrite Ha'. destruct (decide (d' = d)) as [->|Hne].
      * rewrite Hda. case_decide; subst.
        -- split; [|intros _; apply elem_of_app; right; apply list_elem_of_here].
           intros _. split; [apply elem_of_app; right; apply list_elem_of_here|done].
        -- split; [intros Hx; by apply Hnf in Hx|]. intros [_ ?]. congruence.
      * destruct (Ho d' Hne) as [-> _].
        rewrite elem_of_app, list_elem_of_singleton.
        case_decide; subst; rewrite ?elem_of_app, ?list_elem_of_singleton,
          (Hf t d' Hin); tauto.
    + intros t d' Hin. rewrite Hi' in Hin. destruct (Hlists t) as [_ ->].
      rewrite Ha'. destruct (decide (d' = d)) as [->|Hne].
      * rewrite Hdb. case_decide; subst.
        -- split; [|intros _; apply elem_of_app; right; apply list_elem_of_here].
           intros _. split; [apply elem_of_app; right; apply list_elem_of_here|done].
        -- split; [intros Hx; by apply Hnt in Hx|]. intros [_ ?]. congruence.
      * destruct (Ho d' Hne) as [_ ->].
        rewrite elem_of_app, list_elem_of_singleton.
        case_decide; subst; rewrite ?elem_of_app, ?list_elem_of_singleton,
          (Ht t d' Hin); tauto.
    + intros d' Hd'. rewrite Ha' in Hd'. rewrite Hi'.
      destruct (decide (d' = d)) as [->|Hne]; [by exists a, b|].
      destruct (Ho d' Hne) as [-> ->]. apply He.
      apply elem_of_app in Hd' as [?|Hx]; [done|].
      by apply list_elem_of_singleton in Hx.
  - destruct (addDependency_unresolved dependency m (or_intror Hs))
      as (message & Hrun).
    eexists. split; [exact Hrun|]. by apply consoleError_wfP.
  - destruct (addDependency_unresolved dependency m (or_introl Hp))
      as (message & Hrun).
    eexists. split; [exact Hrun|]. by apply consoleError_wfP.
Qed.

Lemma forEach_addTask_wfP (ts : list Task) (m : Model) :
  wfP m →
  ∃ m', forEach (fun t => exec (fun m => snd (addTask (asAddTask t) m))) ts m
        = Returned tt m' ∧ wfP m'.
Proof.
  revert m. induction ts as [|t ts IH]; intros m Hwf; [by exists m|].
  destruct (IH (snd (addTask (asAddTask t) m))) as (m' & Hrun & Hwf');
    [by apply addTask_wfP|].
  exists m'. split; [exact Hrun|done].
Qed.

Lemma forEach_addDependency_wfP (deps : list Dependency) (m : Model) :
  wfP m → ∃ m', forEach addDependency deps m = Returned tt m' ∧ wfP m'.
Proof.
  revert m. induction deps as [|dep deps IH]; intros m Hwf; [by exists m|].
  destruct (addDependency_wfP dep m Hwf) as (m1 & Hrun1 & Hwf1).
  destruct (IH m1 Hwf1) as (m' & Hrun & Hwf').
  exists m'. split; [|done].
  simpl. unfold mbind, JS_bind, bind. by rewrite Hrun1.
Qed.

Lemma wf_emptyModel : wf emptyModel.
Proof. apply wf_wfP. by apply wfP_no_children. Qed.

Lemma wf_initGraph (m : Model) : wf m → wf (initGraph m).
Proof. rewrite !wf_wfP. intros [Hi Ha Hk Hl Hf Ht He]. by split. Qed.

(** X27.  [loadGraph] returns normally on every document, whatever it
    holds, and turns a well-formed model into a well-formed model. *)
Lemma loadGraph_wf (graph : Graph) (m : Model) :
  wf m → ∃ m', loadGraph graph m = Returned tt m' ∧ wf m'.
Proof.
  intros Hwf%wf_wfP%clearGraph_wfP.
  destruct (forEach_addTask_wfP (tasks graph) _ Hwf) as (m1 & Hrun1 & Hwf1).
  destruct (forEach_addDependency_wfP (dependencies graph) m1 Hwf1)
    as (m2 & Hrun2 & Hwf2).
  exists m2. split; [|by apply wf_wfP].
  unfold loadGraph, mbind, JS_bind, bind.
  change (exec clearGraph m) with (Returned tt (clearGraph m)).
  cbv beta iota. by rewrite Hrun1.
Qed.

(** ** Link gestures *)

(** What the release of a link gesture does, once the click test is done:
    the provisional path is committed whenever the element under the release
    point is a task, the pressed one included, and removed otherwise. *)
Lemma linkRelease_cases (task path : nat) (event : PointerEvent) (m : Model) :
  path ∈ arrows m → path_from (pathOf m path) = Some task →
  match asTask m (elementFromPoint m (pageX event) (pageY event)) with
  | Some targetTask =>
      ∃ m', linkRelease task path event m = Returned tt m'
            ∧ arrows m' = arrows m
            ∧ path_from (pathOf m' path) = Some task
            ∧ path_to (pathOf m' path) = Some targetTask
            ∧ dispatched m' = dispatched m ++ [newdependency]
  | None =>
      linkRelease task path event m
      = Returned tt (set_arrows (removeChild path) m)
  end.
Proof.
  intros Hin Hfrom. unfold linkRelease, mbind, JS_bind, bind, read, exec.
  destruct (asTask m (elementFromPoint m (pageX event) (pageY event)))
    as [targetTask|].
  - set (m3 := updateTask (set_to (fun a => a ++ [path])) targetTask
                 (updateTask (set_from (fun a => a ++ [path])) task
                    (updatePathElement (set_path_to (Some targetTask)) path m))).
    assert (Hp : pathOf m3 path = set_path_to (Some targetTask) (pathOf m path)).
    { unfold m3. by frame. }
    rewrite (updatePath_committed path m3) by (rewrite Hp; simpl; by rewrite ?Hfrom).
    eexists. split; [reflexivity|].
    cbn [arrows dispatched set_dispatched updatePathElement set_pathElements].
    split_and!; try done.
    + frame. rewrite Hp. done.
    + frame. rewrite Hp. done.
  - unfold arrows_removeChild. by rewrite decide_True.
Qed.

End facts.

(** * Further properties of the module *)

Section more.
Context `{Browser}.

(** ** misc.ts *)

Lemma indexOf_first (l1 l2 : list nat) (d : nat) :
  d ∉ l1 → misc.indexOf (l1 ++ d :: l2) d = Some (length l1).
Proof.
  induction l1 as [|a l1 IH]; intros Hnin; simpl.
  - by rewrite decide_True.
  - apply not_elem_of_cons in Hnin as [Hne Hnin].
    rewrite decide_False by done. by rewrite IH.
Qed.

Lemma indexOf_absent (l : list nat) (d : nat) :
  d ∉ l → misc.indexOf l d = None.
Proof.
  induction l as [|a l IH]; intros Hnin; [done|]. simpl.
  apply not_elem_of_cons in Hnin as [Hne Hnin].
  rewrite decide_False by done. by rewrite IH.
Qed.

(** X1.  [removeFromArray] removes the first occurrence of the element and
    only that one: later occurrences and every other entry stay, in
    order. *)
Theorem removeFromArray_first (l1 l2 : list nat) (d : nat) :
  d ∉ l1 → misc.removeFromArray (l1 ++ d :: l2) d = l1 ++ l2.
Proof.
  intros Hnin. unfold misc.removeFromArray.
  rewrite (indexOf_first l1 l2 d Hnin). apply delete_middle.
Qed.

(** X2.  [removeFromArray] on an array that does not hold the element still
    changes the array: [indexOf] is -1 and [splice(-1, 1)] removes the last
    entry, which is another element. *)
Theorem removeFromArray_absent (l : list nat) (d : nat) :
  d ∉ l →
  misc.removeFromArray l d = removelast l
  ∧ (l ≠ [] → ∃ c, c ≠ d ∧ l = misc.removeFromArray l d ++ [c]).
Proof.
  intros Hnin. unfold misc.removeFromArray.
  rewrite (indexOf_absent l d Hnin). split; [done|]. intros Hne.
  destruct (exists_last Hne) as (l' & c & ->).
  exists c. rewrite removelast_last. split; [|done].
  intros ->. apply Hnin, elem_of_app. right. apply list_elem_of_here.
Qed.

Lemma snap_cases (target offset value : Q) :
  misc.snap target offset value = value
  ∨ (misc.snap target offset value = target
     ∧ (target - offset < value)%Q ∧ (value < target + offset)%Q).
Proof.
  unfold misc.snap.
  destruct (misc.Qltb (target - offset) value) eqn:E1;
    destruct (misc.Qltb value (target + offset)) eqn:E2; simpl; try by left.
  right. apply Qltb_lt in E1, E2. done.
Qed.

(** The value of a wheel step is 1 or lies outside the window. *)
Lemma snap_zoom_cases (p : Q) :
  misc.snap 1 0.1 p = 1%Q
  ∨ (misc.snap 1 0.1 p = p ∧ ((p <= 0.9)%Q ∨ (1.1 <= p)%Q)).
Proof.
  unfold misc.snap.
  destruct (misc.Qltb (1 - 0.1) p) eqn:E1; destruct (misc.Qltb p (1 + 0.1)) eqn:E2;
    simpl; [by left|right; split; [done|]..].
  - right. destruct (Qlt_le_dec p 1.1) as [Hlt|Hle]; [|done].
    assert (Hx : misc.Qltb p (1 + 0.1) = true) by (apply Qltb_lt; lra).
    congruence.
  - left. destruct (Qlt_le_dec 0.9 p) as [Hlt|Hle]; [|done].
    assert (Hx : misc.Qltb (1 - 0.1) p = true) by (apply Qltb_lt; lra).
    congruence.
  - left. destruct (Qlt_le_dec 0.9 p) as [Hlt|Hle]; [|done].
    assert (Hx : misc.Qltb (1 - 0.1) p = true) by (apply Qltb_lt; lra).
    congruence.
Qed.

(** X3.  [snap] is idempotent, and it returns either the value itself or
    the target, the latter only for a value strictly within [offset] of the
    target. *)
Theorem snap_idempotent (target offset value : Q) :
  misc.snap target offset (misc.snap target offset value)
  = misc.snap target offset value
  ∧ (misc.snap target offset value = value
     ∨ (misc.snap target offset value = target
        ∧ (target - offset < value)%Q ∧ (value < target + offset)%Q)).
Proof.
  unfold misc.snap.
  destruct (misc.Qltb (target - offset) value) eqn:E1;
    destruct (misc.Qltb value (target + offset)) eqn:E2; simpl;
    rewrite ?E1, ?E2; simpl; try (split; [reflexivity|by left]).
  split.
  - by destruct (misc.Qltb (target - offset) target && misc.Qltb target (target + offset)).
  - right. apply Qltb_lt in E1, E2. done.
Qed.

(** ** The wheel *)

(** X4.  A wheel event keeps a positive zoom positive, leaves the zoom
    either exactly 1 or outside the open window from 0.9 to 1.1, and changes
    nothing but the zoom. *)
Theorem onwheel_zoom (deltaY : Q) (m : Model) :
  (0 < zoom (panzoom m))%Q →
  let m' := onwheel deltaY m in
  (0 < zoom (panzoom m'))%Q
  ∧ (zoom (panzoom m') = 1%Q
     ∨ (zoom (panzoom m') <= 0.9)%Q ∨ (1.1 <= zoom (panzoom m'))%Q)
  ∧ pan (panzoom m') = pan (panzoom m)
  ∧ taskElements m' = taskElements m ∧ pathElements m' = pathElements m
  ∧ itemsContainer m' = itemsContainer m ∧ arrows m' = arrows m
  ∧ listeners m' = listeners m ∧ dispatched m' = dispatched m.
Proof.
  intros Hpos m'. unfold m', onwheel, applyZoomFactor. simpl.
  set (p := (zoom (panzoom m) * (if misc.Qltb deltaY 0 then 1.1 else 0.9))%Q).
  assert (Hp : (0 < p)%Q).
  { apply Qmult_lt_0_compat; [done|]. by destruct (misc.Qltb deltaY 0). }
  split_and!; try done.
  - destruct (snap_zoom_cases p) as [->|[-> _]]; done.
  - destruct (snap_zoom_cases p) as [->|[-> ?]]; [by left|by right].
Qed.

(** X5.  After a wheel event the zoom indicator is blank exactly when the
    zoom has become 1; otherwise it shows a percentage of at most 90 or at
    least 110, never one in between. *)
Theorem onwheel_indicator (deltaY : Q) (m : Model) :
  let m' := onwheel deltaY m in
  (updateZoomIndicator m' = Blank ∧ zoom (panzoom m') = 1%Q)
  ∨ (∃ n, updateZoomIndicator m' = PercentZoom n
          ∧ ¬ (zoom (panzoom m') == 1)%Q
          ∧ ((n ≤ 90)%Z ∨ (110 ≤ n)%Z)).
Proof.
  intros m'. unfold updateZoomIndicator, m', onwheel, applyZoomFactor. simpl.
  set (p := (zoom (panzoom m) * (if misc.Qltb deltaY 0 then 1.1 else 0.9))%Q).
  destruct (snap_zoom_cases p) as [->|[-> Hout]]; [by left|].
  right. exists (Qfloor (p * 100)).
  assert (Hne : ¬ (p == 1)%Q) by (intros Heq; lra).
  split_and!; [|done|].
  - destruct (Qeq_bool p 1) eqn:E; [|done]. by apply Qeq_bool_iff in E.
  - destruct Hout as [Hle|Hge].
    + left. change 90%Z with (Qfloor (inject_Z 90)).
      apply Qfloor_resp_le. change (inject_Z 90) with 90%Q. lra.
    + right. change 110%Z with (Qfloor (inject_Z 110)).
      apply Qfloor_resp_le. change (inject_Z 110) with 110%Q. lra.
Qed.

(** ** Selection *)

Lemma foldl_updateTask_idem f (l : list nat) m :
  (∀ t, f (f t) = f t) →
  ∀ e, taskOf (foldl (fun m e => updateTask f e m) m l) e
       = if decide (e ∈ l) then f (taskOf m e) else taskOf m e.
Proof.
  intros Hidem. revert m. induction l as [|a l IH]; intros m e.
  - rewrite decide_False; [done|]. apply not_elem_of_nil.
  - simpl. rewrite IH, taskOf_updateTask.
    destruct (decide (e ∈ l)) as [Hin|Hin]; destruct (decide (a = e)) as [->|Hne].
    + rewrite Hidem. rewrite decide_True; [done|]. apply list_elem_of_here.
    + rewrite decide_True; [done|]. by apply list_elem_of_further.
    + rewrite decide_True; [done|]. apply list_elem_of_here.
    + rewrite decide_False; [done|]. intros [?|?]%elem_of_cons; done.
Qed.

Lemma set_classList_idem (g : gset string → gset string) :
  (∀ s, g (g s) = g s) →
  ∀ t, set_classList g (set_classList g t) = set_classList g t.
Proof. intros Hg t. unfold set_classList. simpl. by rewrite Hg. Qed.

Lemma classRemove_idem c (s : gset string) :
  classRemove c (classRemove c s) = classRemove c s.
Proof. unfold classRemove. set_solver. Qed.

Lemma classAdd_idem c (s : gset string) :
  classAdd c (classAdd c s) = classAdd c s.
Proof. unfold classAdd. set_solver. Qed.

Lemma filter_is (l : list nat) (a : nat) :
  NoDup l → a ∈ l → filter (fun c => c = a) l = [a].
Proof.
  induction l as [|b l IH]; intros Hnd Hin; [by apply not_elem_of_nil in Hin|].
  apply NoDup_cons in Hnd as [Hb Hnd]. rewrite filter_cons.
  destruct (decide (b = a)) as [->|Hne].
  - f_equal. apply elem_of_nil_inv. intros c [-> Hc]%list_elem_of_filter. done.
  - apply elem_of_cons in Hin as [->|Hin]; [done|]. by apply IH.
Qed.

(** [resetSelected] takes the class [selected] off every selected task and
    touches nothing else. *)
Lemma resetSelected_spec (m : Model) :
  let m' := resetSelected m in
  (∀ e, taskOf m' e
        = if decide (e ∈ getSelected m)
          then set_classList (classRemove "selected") (taskOf m e)
          else taskOf m e)
  ∧ sameButTasks m m'
  ∧ getTasks m' = getTasks m
  ∧ getSelected m' = [].
Proof.
  intros m'.
  assert (Ht : ∀ e, taskOf m' e
                    = if decide (e ∈ getSelected m)
                      then set_classList (classRemove "selected") (taskOf m e)
                      else taskOf m e).
  { apply foldl_updateTask_idem, set_classList_idem, classRemove_idem. }
  pose proof (foldl_updateTask_frame (set_classList (classRemove "selected"))
                (getSelected m) m) as Hs.
  fold (resetSelected m) in Hs. fold m' in Hs.
  assert (Hg : getTasks m' = getTasks m).
  { apply getTasks_preserved; [by destruct Hs as (_ & ? & _)|].
    intros e. rewrite Ht. case_decide; [|done].
    unfold classRemove. simpl. set_solver. }
  split_and!; try done.
  apply elem_of_nil_inv. intros e He. unfold getSelected in He.
  apply list_elem_of_filter in He as [Hsel Hin]. rewrite Hg in Hin.
  rewrite Ht in Hsel. case_decide as Hd.
  - unfold classRemove in Hsel. simpl in Hsel. set_solver.
  - apply Hd. unfold getSelected. by apply list_elem_of_filter.
Qed.

(** X6.  A press on the background (any target that is not a task) empties
    the selection at once, dispatches [selectionchanged] with the empty
    selection and starts a pan gesture; tasks keep their text, position,
    status and dependencies. *)
Theorem background_press_clears_selection (m : Model) (down : PointerEvent) :
  asTask m (target down) = None →
  let m' := handle m (PointerDown down) in
  getSelected m' = []
  ∧ getTasks m' = getTasks m
  ∧ dispatched m' = dispatched m ++ [selectionchanged []]
  ∧ listeners m'
    = listeners m
      ++ [GraphDrag {| geometry.x := clientX down; geometry.y := clientY down |}]
  ∧ (∀ e, taskRecord m' e = taskRecord m e
          ∧ from (taskOf m' e) = from (taskOf m e)
          ∧ to (taskOf m' e) = to (taskOf m e))
  ∧ arrows m' = arrows m ∧ pathElements m' = pathElements m
  ∧ panzoom m' = panzoom m.
Proof.
  intros Ht m'. unfold m', handle, onpointerdown. rewrite Ht.
  destruct (resetSelected_spec m) as (Htask & Hs & Hg & Hsel). cbv zeta in *.
  destruct Hs as (Hp & Hi & Ha & Hpz & _ & Hl & Hd & _).
  unfold onGraphDragStart, sendSelectionChanged.
  split_and!.
  - exact Hsel.
  - exact Hg.
  - cbn [dispatched set_listeners set_dispatched]. by rewrite Hd.
  - cbn [listeners set_listeners set_dispatched]. by rewrite Hl.
  - intros e. unfold taskRecord, getOffsetBox. frame. rewrite Htask.
    case_decide; [|done].
    split_and!; try done. unfold contains. cbn.
    f_equal. unfold classRemove.
    destruct (bool_decide ("completed" ∈ classList (taskOf m e))) eqn:E.
    + apply bool_decide_eq_true in E. rewrite bool_decide_eq_true_2; [done|].
      set_solver.
    + apply bool_decide_eq_false in E. rewrite bool_decide_eq_false_2; [done|].
      set_solver.
  - exact Ha.
  - exact Hp.
  - exact Hpz.
Qed.

(** X7.  A plain click on a task makes the selection exactly that task,
    whatever was selected before, and dispatches [selectionchanged] with
    that task alone. *)
Theorem plain_click_selects_only (m : Model) (task : nat) (event : PointerEvent) :
  NoDup (itemsContainer m) → task ∈ getTasks m → shiftKey event = false →
  let m' := onTaskClicked task event m in
  getSelected m' = [task]
  ∧ getTasks m' = getTasks m
  ∧ dispatched m' = dispatched m ++ [selectionchanged [task]].
Proof.
  intros Hnd Hin Hshift m'. unfold m', onTaskClicked. rewrite Hshift.
  destruct (resetSelected_spec m) as (Htask & Hs & Hg & Hsel). cbv zeta in *.
  set (m1 := resetSelected m) in *.
  set (m2 := updateTask (set_classList (classAdd "selected")) task m1).
  assert (Hg2 : getTasks m2 = getTasks m).
  { rewrite <- Hg. apply getTasks_preserved; [done|]. intros e. unfold m2.
    rewrite taskOf_updateTask. case_decide; subst; [|done].
    unfold classAdd. simpl. set_solver. }
  assert (Hsel2 : getSelected m2 = [task]).
  { unfold getSelected. rewrite Hg2.
    rewrite <- (filter_is (getTasks m) task (NoDup_getTasks m Hnd) Hin).
    apply filter_ext_in. intros e He. unfold m2. rewrite taskOf_updateTask.
    case_decide as Hd; subst.
    - unfold classAdd. simpl. set_solver.
    - split; [|done]. intros Hx. exfalso.
      assert (He1 : e ∈ getSelected m1).
      { unfold getSelected. apply list_elem_of_filter. by rewrite Hg. }
      rewrite Hsel in He1. by apply not_elem_of_nil in He1. }
  unfold sendSelectionChanged. split_and!; try done.
  unfold m2. cbn [dispatched set_dispatched updateTask set_taskElements].
  destruct Hs as (_ & _ & _ & _ & _ & _ & -> & _). done.
Qed.

(** X8.  A shift-click on a task toggles whether that task is selected and
    leaves every other element as it is; the [selectionchanged] it
    dispatches carries the resulting selection. *)
Theorem shift_click_toggles (m : Model) (task : nat) (event : PointerEvent) :
  shiftKey event = true →
  let m' := onTaskClicked task event m in
  ("selected" ∈ classList (taskOf m' task)
   ↔ "selected" ∉ classList (taskOf m task))
  ∧ (∀ e, e ≠ task → taskOf m' e = taskOf m e)
  ∧ getTasks m' = getTasks m
  ∧ (∀ e, e ≠ task → e ∈ getSelected m' ↔ e ∈ getSelected m)
  ∧ dispatched m' = dispatched m ++ [selectionchanged (getSelected m')].
Proof.
  intros Hshift m'. unfold m', onTaskClicked. rewrite Hshift.
  set (m1 := updateTask (set_classList (classToggle "selected")) task m).
  assert (Hother : ∀ e, e ≠ task → taskOf m1 e = taskOf m e).
  { intros e He. unfold m1. by rewrite taskOf_updateTask_ne. }
  assert (Hg : getTasks m1 = getTasks m).
  { apply getTasks_preserved; [done|]. intros e. unfold m1.
    rewrite taskOf_updateTask. case_decide; subst; [|done]. simpl.
    by apply elem_of_classToggle_other. }
  unfold sendSelectionChanged. split_and!; try done.
  - frame. unfold m1. rewrite taskOf_updateTask_eq. simpl.
    rewrite <- !contains_spec, contains_classToggle_same.
    destruct (contains "selected" (classList (taskOf m task))); simpl;
      split; congruence.
  - intros e He. unfold getSelected.
    change (getTasks (set_dispatched _ m1)) with (getTasks m1).
    rewrite !list_elem_of_filter, Hg. frame. by rewrite Hother.
Qed.

(** X9.  [selectAll] selects every task: the selection becomes the whole
    task list, and that list is what [selectionchanged] carries. *)
Theorem selectAll_selects_all (m : Model) :
  let m' := selectAll m in
  getSelected m' = getTasks m
  ∧ getTasks m' = getTasks m
  ∧ dispatched m' = dispatched m ++ [selectionchanged (getTasks m)].
Proof.
  intros m'. unfold m', selectAll.
  set (m1 := foldl (fun m t => updateTask (set_classList (classAdd "selected")) t m)
               m (getTasks m)).
  assert (Ht : ∀ e, taskOf m1 e
                    = if decide (e ∈ getTasks m)
                      then set_classList (classAdd "selected") (taskOf m e)
                      else taskOf m e).
  { apply foldl_updateTask_idem, set_classList_idem, classAdd_idem. }
  pose proof (foldl_updateTask_frame (set_classList (classAdd "selected"))
                (getTasks m) m) as Hs.
  fold m1 in Hs. destruct Hs as (_ & Hi & _ & _ & _ & _ & Hd & _).
  assert (Hg : getTasks m1 = getTasks m).
  { apply getTasks_preserved; [done|]. intros e. rewrite Ht.
    case_decide; [|done]. unfold classAdd. simpl. set_solver. }
  unfold sendSelectionChanged. split_and!.
  - unfold getSelected.
    change (getTasks (set_dispatched _ m1)) with (getTasks m1). rewrite Hg.
    apply filter_all, Forall_forall. intros e He. frame. rewrite Ht.
    rewrite decide_True by done. unfold classAdd. simpl. set_solver.
  - exact Hg.
  - cbn [dispatched set_dispatched]. by rewrite Hd.
Qed.

(** ** A drag gesture that ends as a click *)

Lemma onTaskClicked_plain (m : Model) (task : nat) (event : PointerEvent) :
  shiftKey event = false →
  let m' := onTaskClicked task event m in
  getTasks m' = getTasks m
  ∧ (∀ e, e ∈ getSelected m' ↔ e = task ∧ task ∈ getTasks m)
  ∧ dispatched m' = dispatched m ++ [selectionchanged [task]].
Proof.
  intros Hshift m'. unfold m', onTaskClicked. rewrite Hshift.
  destruct (resetSelected_spec m) as (Htask & Hs & Hg & Hsel). cbv zeta in *.
  set (m1 := resetSelected m) in *.
  set (m2 := updateTask (set_classList (classAdd "selected")) task m1).
  assert (Hg2 : getTasks m2 = getTasks m).
  { rewrite <- Hg. apply getTasks_preserved; [done|]. intros e. unfold m2.
    rewrite taskOf_updateTask. case_decide; subst; [|done].
    unfold classAdd. simpl. set_solver. }
  unfold sendSelectionChanged. split_and!.
  - exact Hg2.
  - intros e. unfold getSelected.
    change (getTasks (set_dispatched _ m2)) with (getTasks m2).
    rewrite list_elem_of_filter, Hg2. frame. unfold m2.
    rewrite taskOf_updateTask. case_decide as Hd; subst.
    + unfold classAdd. simpl. split; [intros [_ ?]; done|].
      intros [_ ?]. split; [set_solver|done].
    + split; [|intros [? _]; congruence]. intros [Hx He]. exfalso.
      assert (He1 : e ∈ getSelected m1).
      { unfold getSelected. apply list_elem_of_filter. by rewrite Hg. }
      rewrite Hsel in He1. by apply not_elem_of_nil in He1.
  - unfold m2. cbn [dispatched set_dispatched updateTask set_taskElements].
    destruct Hs as (_ & _ & _ & _ & _ & _ & -> & _). done.
Qed.

Lemma onTaskClicked_shift (m : Model) (task : nat) (event : PointerEvent) :
  shiftKey event = true →
  let m' := onTaskClicked task event m in
  getTasks m' = getTasks m
  ∧ ("selected" ∈ classList (taskOf m' task)
     ↔ "selected" ∉ classList (taskOf m task))
  ∧ (∀ e, e ≠ task → e ∈ getSelected m' ↔ e ∈ getSelected m)
  ∧ dispatched m' = dispatched m ++ [selectionchanged (getSelected m')].
Proof.
  intros Hshift m'. unfold m', onTaskClicked. rewrite Hshift.
  set (m1 := updateTask (set_classList (classToggle "selected")) task m).
  assert (Hother : ∀ e, e ≠ task → taskOf m1 e = taskOf m e).
  { intros e He. unfold m1. by rewrite taskOf_updateTask_ne. }
  assert (Hg : getTasks m1 = getTasks m).
  { apply getTasks_preserved; [done|]. intros e. unfold m1.
    rewrite taskOf_updateTask. case_decide; subst; [|done]. simpl.
    by apply elem_of_classToggle_other. }
  unfold sendSelectionChanged. split_and!; try done.
  - frame. unfold m1. rewrite taskOf_updateTask_eq. simpl.
    rewrite <- !contains_spec, contains_classToggle_same.
    destruct (contains "selected" (classList (taskOf m task))); simpl;
      split; congruence.
  - intros e He. unfold getSelected.
    change (getTasks (set_dispatched _ m1)) with (getTasks m1).
    rewrite !list_elem_of_filter, Hg. frame. by rewrite Hother.
Qed.

(** [moveTask] and the moves of a drag leave the children of
    [itemsContainer] and every class list as they are. *)
Lemma moveTask_classes (task : nat) (pos : geometry.Point) (m : Model) :
  let m' := reportUncaught (moveTask task pos m) in
  itemsContainer m' = itemsContainer m
  ∧ ∀ e, classList (taskOf m' e) = classList (taskOf m e).
Proof.
  intros m'.
  destruct (stateOf_reportUncaught (moveTask task pos m))
    as (Et & _ & Ei & _). cbv zeta in Et, Ei. fold m' in Et, Ei.
  rewrite moveTask_unfold in Et, Ei.
  destruct (forEach_updatePath_redrawn
              (from (taskOf m task) ++ to (taskOf m task))
              (updateTask (set_style pos) task m)) as (Et' & Ei' & _).
  split.
  - rewrite Ei, Ei'. done.
  - intros e. unfold taskOf at 1. rewrite Et, Et'.
    fold (taskOf (updateTask (set_style pos) task m) e).
    rewrite taskOf_updateTask. by case_decide; subst.
Qed.

Lemma run_moves_TaskDrag_classes moves m task pid initialPosition offX offY moved :
  listeners m = [TaskDrag task pid initialPosition offX offY moved] →
  let m1 := run m (map PointerMove moves) in
  itemsContainer m1 = itemsContainer m
  ∧ ∀ e, classList (taskOf m1 e) = classList (taskOf m e).
Proof.
  revert m moved. induction moves as [|ev moves IH]; intros m moved Hl; [done|].
  cbv zeta.
  change (run m (map PointerMove (ev :: moves)))
    with (run (handle m (PointerMove ev)) (map PointerMove moves)).
  destruct (handle_move_TaskDrag m task pid initialPosition offX offY moved
              ev Hl) as (mv1 & Hl1 & _ & _).
  destruct (IH _ mv1 Hl1) as (Ei & Ec). cbv zeta in Ei, Ec.
  assert (H1 : itemsContainer (handle m (PointerMove ev)) = itemsContainer m
               ∧ ∀ e, classList (taskOf (handle m (PointerMove ev)) e)
                      = classList (taskOf m e)).
  { unfold handle. rewrite Hl. cbn [dispatchMove onPointerMove].
    case_decide; [|done].
    exact (moveTask_classes task
             {| geometry.x := offsetX ev - offX;
                geometry.y := offsetY ev - offY |}%Q m). }
  destruct H1 as (Ei1 & Ec1). split; [congruence|].
  intros e. by rewrite Ec, Ec1.
Qed.

(** C5.  A task-drag gesture (pointer down on a task outside link mode, any
    moves, then the release of the same pointer) dispatches no event before
    the release.  If some move of the gesture's pointer was at a squared
    distance above 25 from the initial position, the release dispatches
    exactly one [taskmoved].  Otherwise it dispatches no [taskmoved] and the
    gesture ends as a click on the task: released without shift, the
    selection becomes that task alone and [selectionchanged] carries it;
    released with shift, the task changes sides, every other task stays on
    its side of the selection, and [selectionchanged] carries the resulting
    selection. *)
Theorem drag_gesture_taskmoved (m : Model) (task : nat) (down : PointerEvent)
    (moves : list PointerEvent) (kind : EndKind) (release : PointerEvent) :
  listeners m = [] →
  asTask m (target down) = Some task →
  shiftKey down || linkModeCheckbox m = false →
  pointerId release = pointerId down →
  let initialPosition :=
    {| geometry.x := clientX down; geometry.y := clientY down |} in
  let m1 := run m (PointerDown down :: map PointerMove moves) in
  let m2 := handle m1 (PointerEnd kind release) in
  dispatched m1 = dispatched m
  ∧ listeners m2 = []
  ∧ ((Exists (exceeded initialPosition (pointerId down)) moves
      ∧ dispatched m2 = dispatched m ++ [taskmoved task])
     ∨ (¬ Exists (exceeded initialPosition (pointerId down)) moves
        ∧ m2 = set_listeners (fun _ => [])
                 (onTaskClicked task release
                    (updateTask (set_classList (classRemove "dragged")) task m1))
        ∧ getTasks m2 = getTasks m
        ∧ if shiftKey release
          then ("selected" ∈ classList (taskOf m2 task)
                ↔ "selected" ∉ classList (taskOf m task))
               ∧ (∀ e, e ≠ task → e ∈ getSelected m2 ↔ e ∈ getSelected m)
               ∧ dispatched m2
                 = dispatched m ++ [selectionchanged (getSelected m2)]
          else (∀ e, e ∈ getSelected m2 ↔ e = task ∧ task ∈ getTasks m)
               ∧ dispatched m2 = dispatched m ++ [selectionchanged [task]])).
Proof.
  intros Hl Ht Hmode Hid initialPosition m1 m2.
  set (m0 := handle m (PointerDown down)).
  assert (Hm0 : m0 = set_listeners
                       (fun ls => ls ++ [TaskDrag task (pointerId down)
                                           initialPosition (offsetX down)
                                           (offsetY down) false])
                       (updateTask (set_classList (classAdd "dragged")) task m)).
  { unfold m0, handle, onpointerdown. by rewrite Ht, Hmode. }
  assert (Hl0 : listeners m0
                = [TaskDrag task (pointerId down) initialPosition
                     (offsetX down) (offsetY down) false]).
  { rewrite Hm0. cbn [listeners set_listeners updateTask set_taskElements].
    by rewrite Hl. }
  assert (Hd0 : dispatched m0 = dispatched m) by (by rewrite Hm0).
  destruct (run_moves_TaskDrag moves m0 _ _ _ _ _ _ Hl0) as (mv & Hl1 & Hmv & Hd1).
  destruct (run_moves_TaskDrag_classes moves m0 _ _ _ _ _ _ Hl0) as (Ei1 & Ec1).
  cbv zeta in Ei1, Ec1.
  change (run m0 (map PointerMove moves)) with m1 in Hl1, Hd1, Ei1, Ec1.
  set (m1c := updateTask (set_classList (classRemove "dragged")) task m1).
  assert (Hm2 : m2 = set_listeners (fun _ => [])
                  (if mv
                   then set_dispatched (fun evs => evs ++ [taskmoved task]) m1c
                   else onTaskClicked task release m1c)).
  { unfold m2, handle. rewrite Hl1. cbn [dispatchEnd onPointerEnd].
    rewrite decide_True by done. by destruct mv. }
  split; [congruence|]. split; [by rewrite Hm2|].
  destruct mv.
  - left. split; [destruct Hmv as [Hmv _]; destruct (Hmv eq_refl); done|].
    rewrite Hm2. simpl. congruence.
  - right. split; [intros Hex; destruct Hmv as [_ Hmv]; by specialize (Hmv (or_intror Hex))|].
    split; [done|].
    assert (Hcls : ∀ e c, c ≠ "dragged" →
              c ∈ classList (taskOf m1c e) ↔ c ∈ classList (taskOf m e)).
    { intros e c Hc. unfold m1c. rewrite taskOf_updateTask.
      assert (Hm1 : c ∈ classList (taskOf m1 e) ↔ c ∈ classList (taskOf m e)).
      { rewrite Ec1, Hm0. frame. rewrite taskOf_updateTask.
        case_decide; subst; [|done]. unfold classAdd. simpl. set_solver. }
      case_decide; subst; [|done]. unfold classRemove. simpl.
      rewrite <- Hm1. set_solver. }
    assert (Hi1c : itemsContainer m1c = itemsContainer m).
    { change (itemsContainer m1 = itemsContainer m). by rewrite Ei1, Hm0. }
    assert (Hg1c : getTasks m1c = getTasks m).
    { apply getTasks_preserved; [done|]. intros e. by apply Hcls. }
    assert (Hs1c : getSelected m1c = getSelected m).
    { apply getSelected_preserved; [done|]. intros e. by apply Hcls. }
    assert (Hd1c : dispatched m1c = dispatched m).
    { change (dispatched m1 = dispatched m). congruence. }
    rewrite Hm2.
    change (getTasks (set_listeners (fun _ => []) (onTaskClicked task release m1c)))
      with (getTasks (onTaskClicked task release m1c)).
    change (getSelected (set_listeners (fun _ => []) (onTaskClicked task release m1c)))
      with (getSelected (onTaskClicked task release m1c)).
    change (dispatched (set_listeners (fun _ => []) (onTaskClicked task release m1c)))
      with (dispatched (onTaskClicked task release m1c)).
    change (taskOf (set_listeners (fun _ => []) (onTaskClicked task release m1c)) task)
      with (taskOf (onTaskClicked task release m1c) task).
    destruct (shiftKey release) eqn:Hshift.
    + destruct (onTaskClicked_shift m1c task release Hshift)
        as (Hg & Htog & Hoth & Hdis). cbv zeta in Hg, Htog, Hoth, Hdis.
      split; [congruence|]. split_and!.
      * rewrite Htog. by rewrite (Hcls task "selected").
      * intros e He. by rewrite (Hoth e He), Hs1c.
      * by rewrite Hdis, Hd1c.
    + destruct (onTaskClicked_plain m1c task release Hshift)
        as (Hg & Hsel & Hdis). cbv zeta in Hg, Hsel, Hdis.
      split; [congruence|]. split.
      * intros e. by rewrite Hsel, Hg1c.
      * by rewrite Hdis, Hd1c.
Qed.

(** ** Panning *)

Lemma taskRecord_resetSelected (m : Model) (e : nat) :
  taskRecord (resetSelected m) e = taskRecord m e.
Proof.
  destruct (resetSelected_spec m) as (Htask & _). cbv zeta in Htask.
  unfold taskRecord, getOffsetBox. rewrite Htask. case_decide; [|done].
  unfold contains. cbn. f_equal. unfold classRemove.
  destruct (bool_decide ("completed" ∈ classList (taskOf m e))) eqn:E.
  - apply bool_decide_eq_true in E. rewrite bool_decide_eq_true_2; [done|].
    set_solver.
  - apply bool_decide_eq_false in E. rewrite bool_decide_eq_false_2; [done|].
    set_solver.
Qed.

Lemma run_moves_GraphDrag (moves : list PointerEvent) (m : Model)
    (previousPosition : geometry.Point) :
  listeners m = [GraphDrag previousPosition] →
  let m' := run m (map PointerMove moves) in
  let stop := lastPosition previousPosition moves in
  listeners m' = [GraphDrag stop]
  ∧ (geometry.x (pan (panzoom m'))
     == geometry.x (pan (panzoom m))
        + (geometry.x stop - geometry.x previousPosition))%Q
  ∧ (geometry.y (pan (panzoom m'))
     == geometry.y (pan (panzoom m))
        + (geometry.y stop - geometry.y previousPosition))%Q
  ∧ panned m m'.
Proof.
  revert m previousPosition.
  induction moves as [|ev moves IH]; intros m prev Hl; cbv zeta.
  - unfold lastPosition. simpl. split_and!; try done; ring.
  - set (m1 := handle m (PointerMove ev)).
    assert (Hl1 : listeners m1 = [GraphDrag (clientPosition ev)]).
    { unfold m1, handle. rewrite Hl. done. }
    destruct (IH m1 (clientPosition ev) Hl1) as (Hl' & Hx & Hy & Hp).
    change (run m (map PointerMove (ev :: moves)))
      with (run m1 (map PointerMove moves)).
    assert (Hstop : lastPosition prev (ev :: moves)
                    = lastPosition (clientPosition ev) moves).
    { unfold lastPosition. rewrite fmap_cons, last_cons.
      by destruct (last (clientPosition <$> moves)). }
    rewrite Hstop. split_and!; try done.
    + rewrite Hx. unfold m1, handle. rewrite Hl. cbn. ring.
    + rewrite Hy. unfold m1, handle. rewrite Hl. cbn. ring.
    + unfold panned in *.
      destruct Hp as (-> & -> & -> & -> & -> & -> & -> & ->).
      unfold m1, handle. rewrite Hl. by repeat split.
Qed.

(** X10.  From a state in which no listener is registered (no gesture is
    under way and no pan was left registered by a pointercancel), a pan
    gesture (press on the background, any moves, pointerup) adds to the pan
    the displacement from the press to the last move, whatever path the
    pointer took and whichever pointer the moves came from; it leaves the
    zoom, the tasks and the dependencies alone and ends with no listener
    left. *)
Theorem pan_gesture (m : Model) (down : PointerEvent)
    (moves : list PointerEvent) (release : PointerEvent) :
  listeners m = [] →
  asTask m (target down) = None →
  let stop := lastPosition (clientPosition down) moves in
  let m' := handle (run m (PointerDown down :: map PointerMove moves))
              (PointerEnd pointerup release) in
  (geometry.x (pan (panzoom m'))
   == geometry.x (pan (panzoom m)) + (geometry.x stop - clientX down))%Q
  ∧ (geometry.y (pan (panzoom m'))
     == geometry.y (pan (panzoom m)) + (geometry.y stop - clientY down))%Q
  ∧ zoom (panzoom m') = zoom (panzoom m)
  ∧ listeners m' = []
  ∧ (∀ e, taskRecord m' e = taskRecord m e)
  ∧ getTasks m' = getTasks m
  ∧ arrows m' = arrows m ∧ pathElements m' = pathElements m.
Proof.
  intros Hl Ht stop m'.
  set (m0 := handle m (PointerDown down)).
  destruct (resetSelected_spec m) as (_ & Hs & Hg & _). cbv zeta in Hs, Hg.
  destruct Hs as (Hp0 & Hi0 & Ha0 & Hpz0 & _ & Hl0 & _).
  assert (Hm0 : m0 = set_listeners
                       (fun ls => ls ++ [GraphDrag (clientPosition down)])
                       (sendSelectionChanged (Some []) (resetSelected m))).
  { unfold m0, handle, onpointerdown. by rewrite Ht. }
  assert (Hl0' : listeners m0 = [GraphDrag (clientPosition down)]).
  { rewrite Hm0. cbn [listeners set_listeners sendSelectionChanged set_dispatched].
    by rewrite Hl0, Hl. }
  destruct (run_moves_GraphDrag moves m0 (clientPosition down) Hl0')
    as (Hl1 & Hx & Hy & Hp).
  cbv zeta in Hl1, Hx, Hy, Hp. fold stop in Hl1, Hx, Hy.
  set (m1 := run m0 (map PointerMove moves)) in *.
  assert (Hm' : m' = set_listeners (fun _ => []) m1).
  { unfold m'. change (run m (PointerDown down :: map PointerMove moves)) with m1.
    unfold handle. by rewrite Hl1. }
  destruct Hp as (Et & Ep & Ei & Ea & Ez & _).
  assert (Hpan0 : panzoom m0 = panzoom m) by (by rewrite Hm0).
  assert (Htk : ∀ e, taskOf (set_listeners (fun _ => []) m1) e
                     = taskOf (resetSelected m) e).
  { intros e. unfold taskOf.
    change (taskElements (set_listeners (fun _ => []) m1))
      with (taskElements m1).
    by rewrite Et, Hm0. }
  rewrite Hm'.
  change (panzoom (set_listeners (fun _ => []) m1)) with (panzoom m1).
  change (arrows (set_listeners (fun _ => []) m1)) with (arrows m1).
  change (pathElements (set_listeners (fun _ => []) m1))
    with (pathElements m1).
  split_and!.
  - rewrite Hx, Hpan0. done.
  - rewrite Hy, Hpan0. done.
  - by rewrite Ez, Hpan0.
  - done.
  - intros e. rewrite <- (taskRecord_resetSelected m e).
    apply taskRecord_ext. rewrite Htk. by repeat split.
  - rewrite <- Hg. apply getTasks_preserved.
    + change (itemsContainer (set_listeners (fun _ => []) m1))
        with (itemsContainer m1).
      by rewrite Ei, Hm0.
    + intros e. by rewrite Htk.
  - by rewrite Ea, Hm0.
  - by rewrite Ep, Hm0.
Qed.

(** X11.  Pointer events of another pointer are ignored by link and drag
    gestures: when every registered listener belongs to a pointer different
    from the event's, a move, an up or a cancel leaves the model exactly as
    it was. *)
Theorem foreign_pointer_ignored (m : Model) (event : PointerEvent) :
  Forall (fun l => ∃ pid, pointerOf l = Some pid ∧ pid ≠ pointerId event)
    (listeners m) →
  handle m (PointerMove event) = m
  ∧ ∀ kind, handle m (PointerEnd kind event) = m.
Proof.
  intros Hall.
  assert (Hmove : ∀ m0, dispatchMove (listeners m) event m0 = (listeners m, m0)).
  { induction Hall as [|l ls (pid & Hp & Hne) _ IH]; intros m0; [done|].
    cbn [dispatchMove]. destruct l; simpl in Hp; simplify_eq;
      cbn [onPointerMove]; rewrite decide_False by done; by rewrite IH. }
  assert (Hend : ∀ kind m0,
            dispatchEnd kind (listeners m) event m0 = (listeners m, m0)).
  { intros kind. clear Hmove.
    induction Hall as [|l ls (pid & Hp & Hne) _ IH]; intros m0; [done|].
    cbn [dispatchEnd]. destruct l; simpl in Hp; simplify_eq;
      cbn [onPointerEnd]; rewrite decide_False by done; by rewrite IH. }
  split; [|intros kind]; unfold handle; rewrite ?Hmove, ?Hend; by destruct m.
Qed.

(** ** Deleting the selection *)

Lemma touches_ext (m m' : Model) (ts : list nat) (d : nat) :
  pathElements m' = pathElements m → touches m' ts d ↔ touches m ts d.
Proof. intros Ep. unfold touches, pathOf. by rewrite Ep. Qed.

Lemma touches_app (m : Model) (ts1 ts2 : list nat) (d : nat) :
  touches m (ts1 ++ ts2) d ↔ touches m ts1 d ∨ touches m ts2 d.
Proof. unfold touches. rewrite fmap_app, !elem_of_app. tauto. Qed.

Lemma touches_one (m : Model) (t d : nat) :
  touches m [t] d
  ↔ path_from (pathOf m d) = Some t ∨ path_to (pathOf m d) = Some t.
Proof. unfold touches. cbn. by rewrite !list_elem_of_singleton. Qed.

Lemma removed_nil (m : Model) : removed [] m m.
Proof.
  unfold removed. split_and!; try done.
  - symmetry. apply filter_all, Forall_forall. intros ? _. apply not_elem_of_nil.
  - symmetry. apply filter_all, Forall_forall. intros d _.
    unfold touches. cbn. intros [?%not_elem_of_nil|?%not_elem_of_nil]; done.
Qed.

Lemma removed_app (ts1 ts2 : list nat) (m m1 m2 : Model) :
  removed ts1 m m1 → removed ts2 m1 m2 → removed (ts1 ++ ts2) m m2.
Proof.
  intros (Ei & Ea & Ep & Ef & ? & ? & ? & ? & ?)
         (Ei' & Ea' & Ep' & Ef' & ? & ? & ? & ? & ?).
  unfold removed. split_and!; try congruence.
  - rewrite Ei', Ei, list_filter_filter. apply list_filter_iff.
    intros t. rewrite elem_of_app. tauto.
  - rewrite Ea', Ea, list_filter_filter. apply list_filter_iff.
    intros d. rewrite touches_app, (touches_ext m m1 ts2 d Ep). tauto.
  - intros t. destruct (Ef t) as (? & ? & ? & ?), (Ef' t) as (? & ? & ? & ?).
    unfold sameFace. split_and!; congruence.
Qed.

Lemma deleteTask_spec (m : Model) (task : nat) :
  wfP m → task ∈ itemsContainer m →
  ∃ m', deleteTask task m = Returned tt m' ∧ removed [task] m m' ∧ wfP m'.
Proof.
  intros Hwf Hin.
  destruct (wf_lists m Hwf task Hin) as [Hndf Hndt].
  destruct (forEach_deleteDependency (from (taskOf m task)) m Hwf Hndf)
    as (ma & Hruna & Hdela).
  { intros d Hd. by apply (wf_from m Hwf task d Hin) in Hd as [? _]. }
  assert (Hwfa : wfP ma) by (by eapply deleted_wfP).
  assert (Hina : task ∈ itemsContainer ma).
  { destruct Hdela as (-> & _). done. }
  destruct (wf_lists ma Hwfa task Hina) as [_ Hndta].
  destruct (forEach_deleteDependency (to (taskOf ma task)) ma Hwfa Hndta)
    as (m1 & Hrun1 & Hdel1).
  { intros d Hd. by apply (wf_to ma Hwfa task d Hina) in Hd as [? _]. }
  assert (Hwf1 : wfP m1) by (by eapply deleted_wfP).
  assert (Hin1 : task ∈ itemsContainer m1).
  { destruct Hdel1 as (-> & _). done. }
  pose proof (deleted_app _ _ _ _ _ Hdela Hdel1) as Hdel.
  assert (Hto : to (taskOf ma task)
                = filter (fun d => d ∉ from (taskOf m task))
                    (to (taskOf m task))).
  { destruct Hdela as (_ & _ & _ & Hft & _). by destruct (Hft task Hin). }
  assert (Hgone : ∀ d, d ∈ arrows m1 → ¬ touches m [task] d).
  { intros d Hd. destruct Hdel as (_ & _ & Ea & _).
    rewrite Ea in Hd. apply list_elem_of_filter in Hd as [Hn Hd].
    rewrite touches_one. intros [Hp|Hp].
    - apply Hn, elem_of_app. left. by apply (wf_from m Hwf task d Hin).
    - assert (Hdt : d ∈ to (taskOf m task)) by (by apply (wf_to m Hwf task d Hin)).
      apply Hn, elem_of_app.
      destruct (decide (d ∈ from (taskOf m task))); [by left|right].
      rewrite Hto. by apply list_elem_of_filter. }
  set (m' := set_itemsContainer (removeChild task) m1).
  assert (Hitems' : ∀ t, t ∈ itemsContainer m' ↔ t ∈ itemsContainer m1 ∧ t ≠ task).
  { intros t. unfold m', removeChild. cbn [itemsContainer set_itemsContainer].
    rewrite list_elem_of_filter. tauto. }
  assert (Hpath1 : ∀ d, pathOf m1 d = pathOf m d).
  { intros d. destruct Hdel as (_ & Ep & _). unfold pathOf. by rewrite Ep. }
  exists m'. split_and!.
  - unfold deleteTask, deleteIncident, mbind, JS_bind, bind, read.
    rewrite Hruna. rewrite Hrun1. unfold itemsContainer_removeChild.
    by rewrite decide_True.
  - destruct Hdel as (Ei & Ep & Ea & _ & Eface & ? & ? & ? & ? & ?).
    unfold removed. split_and!; try done.
    + unfold m', removeChild. cbn [itemsContainer set_itemsContainer].
      rewrite Ei. apply list_filter_iff. intros t.
      by rewrite list_elem_of_singleton.
    + change (arrows m') with (arrows m1). rewrite Ea.
      apply filter_ext_in. intros d Hd. rewrite touches_one, elem_of_app.
      rewrite (wf_from m Hwf task d Hin), Hto, list_elem_of_filter.
      rewrite (wf_to m Hwf task d Hin), (wf_from m Hwf task d Hin).
      destruct (decide (path_from (pathOf m d) = Some task)); tauto.
  - destruct Hwf1 as [Hi Ha Hk Hl Hf Ht He]. split.
    + by apply NoDup_filter.
    + done.
    + intros t [Ht1 _]%Hitems'. by apply Hk.
    + intros t [Ht1 _]%Hitems'. by apply Hl.
    + intros t d [Ht1 _]%Hitems'. by apply Hf.
    + intros t d [Ht1 _]%Hitems'. by apply Ht.
    + intros d Hd. destruct (He d Hd) as (a & b & Hpa & Hpb & Hia & Hib).
      pose proof (Hgone d Hd) as Hn. rewrite touches_one in Hn.
      rewrite Hpath1 in Hpa, Hpb.
      exists a, b. change (pathOf m' d) with (pathOf m1 d). rewrite Hpath1.
      split_and!; try done; apply Hitems'; split; try done;
        intros ->; tauto.
Qed.

Lemma forEach_deleteTask (l : list nat) (m : Model) :
  wfP m → NoDup l → (∀ t, t ∈ l → t ∈ itemsContainer m) →
  ∃ m', forEach deleteTask l m = Returned tt m' ∧ removed l m m' ∧ wfP m'.
Proof.
  revert m. induction l as [|t l IH]; intros m Hwf Hnd Hsub.
  - exists m. split_and!; [done|apply removed_nil|done].
  - apply NoDup_cons in Hnd as [Htl Hnd].
    destruct (deleteTask_spec m t Hwf) as (m1 & Hrun1 & Hrem1 & Hwf1).
    { apply Hsub, list_elem_of_here. }
    destruct (IH m1 Hwf1 Hnd) as (m2 & Hrun2 & Hrem2 & Hwf2).
    { intros c Hc. destruct Hrem1 as (-> & _).
      apply list_elem_of_filter. split.
      - rewrite list_elem_of_singleton. by intros ->.
      - by apply Hsub, list_elem_of_further. }
    exists m2. split_and!; [|by apply (removed_app [t] l m m1 m2)|done].
    simpl. unfold mbind, JS_bind, bind. by rewrite Hrun1.
Qed.

(** X12.  On a well-formed model [deleteSelected] returns normally.  It
    removes exactly the selected tasks and the dependencies with a selected
    task at an end, keeps the order and the content of everything else,
    leaves nothing selected, announces the empty selection with one
    "selectionchanged" event, and leaves the model well formed. *)
Theorem deleteSelected_removes (m : Model) :
  wf m →
  ∃ m', deleteSelected m = Returned tt m'
        ∧ getTasks m' = filter (fun t => t ∉ getSelected m) (getTasks m)
        ∧ getSelected m' = []
        ∧ arrows m'
          = filter (fun d => ¬ touches m (getSelected m) d) (arrows m)
        ∧ pathElements m' = pathElements m
        ∧ (∀ t, taskRecord m' t = taskRecord m t)
        ∧ dispatched m' = dispatched m ++ [selectionchanged []]
        ∧ wf m'.
Proof.
  intros Hwf%wf_wfP.
  destruct (forEach_deleteTask (getSelected m) m Hwf)
    as (m1 & Hrun & Hrem & Hwf1).
  { apply NoDup_getSelected, (wf_items m Hwf). }
  { intros t Ht. unfold getSelected, getTasks in Ht.
    by apply list_elem_of_filter in Ht as [_ [_ ?]%list_elem_of_filter]. }
  exists (sendSelectionChanged (Some []) m1).
  destruct Hrem as (Ei & Ea & Ep & Ef & ? & ? & ? & Ed & ?).
  assert (Hclass : ∀ t, classList (taskOf m1 t) = classList (taskOf m t)).
  { intros t. by destruct (Ef t) as (_ & ? & _). }
  assert (Htasks : getTasks (sendSelectionChanged (Some []) m1)
                   = filter (fun t => t ∉ getSelected m) (getTasks m)).
  { unfold getTasks at 1 2.
    change (itemsContainer (sendSelectionChanged (Some []) m1))
      with (itemsContainer m1).
    rewrite Ei, !list_filter_filter. apply list_filter_iff. intros t.
    change (taskOf (sendSelectionChanged (Some []) m1) t) with (taskOf m1 t).
    rewrite Hclass. tauto. }
  split_and!; try done.
  - unfold deleteSelected, mbind, JS_bind, bind, read, exec. by rewrite Hrun.
  - unfold getSelected at 1. rewrite Htasks, list_filter_filter.
    apply elem_of_nil_inv. intros t [[Hs Hn] Ht]%list_elem_of_filter.
    change (taskOf (sendSelectionChanged (Some []) m1) t) with (taskOf m1 t) in Hs.
    rewrite Hclass in Hs. apply Hn. unfold getSelected.
    by apply list_elem_of_filter.
  - intros t. by apply taskRecord_ext.
  - cbn [dispatched sendSelectionChanged set_dispatched]. by rewrite Ed.
  - apply wf_wfP. destruct Hwf1 as [Hi Ha Hk Hl Hf Ht He]. by split.
Qed.

(** ** Loading any document *)

Lemma resolves_iff m m' text :
  getTasks m' = getTasks m →
  (∀ c, sameFace (taskOf m c) (taskOf m' c)) →
  resolves m' text ↔ resolves m text.
Proof.
  intros Hg Hf. unfold resolves. rewrite Hg, !Exists_exists.
  split; intros (c & Hc & Ht); exists c; (split; [done|]);
    destruct (Hf c) as (E & _); congruence.
Qed.

(** The dependency loop of [loadGraph] on any entries: the records of the
    entries that resolve at both ends are appended, in order; the others
    leave no element behind. *)
Lemma forEach_addDependency_any (deps : list Dependency) (m : Model)
    (recs : list Dependency) :
  Forall2 (fun c r => dependencyRecord m c = Some r) (arrows m) recs →
  ∃ m',
    forEach addDependency deps m = Returned tt m'
    ∧ getTasks m' = getTasks m
    ∧ (∀ c, sameFace (taskOf m c) (taskOf m' c))
    ∧ Forall2 (fun c r => dependencyRecord m' c = Some r) (arrows m')
        (recs ++ filter (fun dep => resolves m (predecessor dep)
                                    ∧ resolves m (successor dep)) deps).
Proof.
  revert m recs. induction deps as [|dep deps IH]; intros m recs Hrecs.
  - exists m. rewrite filter_nil, app_nil_r. split_and!; done.
  - destruct (decide (resolves m (predecessor dep) ∧ resolves m (successor dep)))
      as [[Hp Hs]|Hun].
    + destruct (forEach_addDependency [dep] m recs) as (m1 & Hrun & Hg & Hf & Hr1);
        [by repeat constructor|done|].
      destruct (IH m1 (recs ++ [dep]) Hr1) as (m' & Hrun' & Hg' & Hf' & Hr').
      exists m'. split_and!.
      * change (dep :: deps) with ([dep] ++ deps). by rewrite forEach_app, Hrun.
      * congruence.
      * intros c. eapply sameFace_trans; [apply Hf|apply Hf'].
      * rewrite filter_cons, decide_True by done.
        rewrite <- app_assoc in Hr'. simpl in Hr'.
        erewrite filter_ext_in; [exact Hr'|].
        intros d _. simpl. by rewrite !(resolves_iff m m1).
    + destruct (addDependency_unresolved dep m) as (message & Hrun).
      { destruct (decide (resolves m (predecessor dep))); [|by left].
        destruct (decide (resolves m (successor dep))); [|by right]. tauto. }
      destruct (IH (consoleError message dep m) recs Hrecs)
        as (m' & Hrun' & Hg' & Hf' & Hr').
      exists m'. split_and!; try done.
      * simpl. unfold mbind, JS_bind, bind. by rewrite Hrun.
      * rewrite filter_cons, decide_False by done. exact Hr'.
Qed.

(** X13.  Loading any document into any model returns normally, and saving
    afterwards returns the tasks of the document, in order and unchanged,
    with exactly those dependencies of the document, in order, whose two
    names are names of tasks of the document.  What was on the canvas
    before, repeated names and repeated dependencies make no difference. *)
Theorem loadGraph_getGraph_normal_form (graph : Graph) (m : Model) :
  ∃ m',
    loadGraph graph m = Returned tt m'
    ∧ getGraph m'
      = Returned
          {| tasks := tasks graph;
             dependencies :=
               filter (fun dep => predecessor dep ∈ map name (tasks graph)
                                  ∧ successor dep ∈ map name (tasks graph))
                 (dependencies graph) |}
          m'.
Proof.
  destruct (clearGraph_spec m) as [Hct Hca].
  destruct (forEach_addTask (tasks graph) (clearGraph m))
    as (m1 & Hrun1 & Hrec1 & Ha1).
  rewrite Hct in Hrec1. simpl in Hrec1. rewrite Hca in Ha1.
  assert (Hres : ∀ text, resolves m1 text ↔ text ∈ map name (tasks graph)).
  { intros text. rewrite <- Hrec1. unfold resolves.
    rewrite Exists_exists, list_elem_of_In, in_map_iff. split.
    - intros (c & Hc & Ht). exists (taskRecord m1 c). split; [done|].
      apply in_map, list_elem_of_In, Hc.
    - intros (r & Hr & Hin). apply in_map_iff in Hin as (c & <- & Hc).
      exists c. split; [by apply list_elem_of_In|done]. }
  destruct (forEach_addDependency_any (dependencies graph) m1 [])
    as (m2 & Hrun2 & Hg2 & Hf2 & Hrecs2).
  { rewrite Ha1. constructor. }
  exists m2. split.
  - unfold loadGraph, mbind, JS_bind, bind.
    change (exec clearGraph m) with (Returned tt (clearGraph m)).
    cbv beta iota. by rewrite Hrun1.
  - unfold getGraph, getDependencies. simpl in Hrecs2.
    rewrite (mapM_Some_2 _ _ _ Hrecs2). f_equal. f_equal.
    + rewrite Hg2, <- Hrec1. apply map_ext_in. intros c _.
      apply taskRecord_ext. apply Hf2.
    + apply filter_ext_in. intros dep _. by rewrite !Hres.
Qed.

(** ** Link gestures, from press to release *)

Lemma retraced_refl path m : retraced path m m.
Proof. by repeat split. Qed.

Lemma retraced_trans path m1 m2 m3 :
  retraced path m1 m2 → retraced path m2 m3 → retraced path m1 m3.
Proof.
  intros (? & ? & ? & ? & ? & ? & ? & ? & ? & H12)
         (? & ? & ? & ? & ? & ? & ? & ? & ? & H23).
  unfold retraced. split_and!; try congruence.
  intros p Hp. rewrite H23, H12; done.
Qed.

(** With a destination [updatePath] needs the tail of the path only. *)
Lemma updatePath_dest path dst m a :
  path_from (pathOf m path) = Some a →
  ∃ v, updatePath path (Some dst) m
       = Returned tt (updatePathElement (set_path_d v) path m).
Proof.
  intros Ha. unfold updatePath. rewrite Ha. cbv zeta.
  repeat case_match; eauto.
Qed.

Lemma retraced_set_path_d v path m :
  retraced path m (updatePathElement (set_path_d v) path m).
Proof.
  unfold retraced. split_and!; try done.
  - by rewrite pathOf_updatePathElement_eq.
  - by rewrite pathOf_updatePathElement_eq.
  - intros p Hp. by rewrite pathOf_updatePathElement_ne.
Qed.

(** The press that starts a link gesture. *)
Lemma link_press (m : Model) (task : nat) (down : PointerEvent) :
  asTask m (target down) = Some task →
  shiftKey down || linkModeCheckbox m = true →
  let path := createPathElement m in
  let m0 := handle m (PointerDown down) in
  (path ∉ arrows m)
  ∧ listeners m0
    = listeners m ++ [LinkCreation task (pointerId down) path false]
  ∧ arrows m0 = arrows m ++ [path]
  ∧ pathOf m0 path
    = {| path_from := Some task; path_to := None; path_d := NoData |}
  ∧ (∀ p, p ≠ path → pathOf m0 p = pathOf m p)
  ∧ taskElements m0 = taskElements m ∧ itemsContainer m0 = itemsContainer m
  ∧ panzoom m0 = panzoom m ∧ linkModeCheckbox m0 = linkModeCheckbox m
  ∧ dispatched m0 = dispatched m ∧ console m0 = console m.
Proof.
  intros Ht Hmode. cbv zeta.
  pose proof (is_fresh ((dom (pathElements m) ∪ list_to_set (arrows m)) : gset nat))
    as Hfresh.
  fold (createPathElement m) in Hfresh.
  unfold handle, onpointerdown. rewrite Ht, Hmode.
  set (path := createPathElement m) in *. clearbody path.
  apply not_elem_of_union in Hfresh as [Hdom Harrows].
  rewrite elem_of_list_to_set in Harrows.
  apply not_elem_of_dom in Hdom.
  assert (Hblank : pathOf m path = blankPath).
  { unfold pathOf. by rewrite Hdom. }
  split_and!; try done.
  - change (pathOf (updatePathElement (set_path_from (Some task)) path m) path
            = {| path_from := Some task; path_to := None; path_d := NoData |}).
    rewrite pathOf_updatePathElement_eq, Hblank. done.
  - intros p Hp.
    change (pathOf (updatePathElement (set_path_from (Some task)) path m) p
            = pathOf m p).
    by rewrite pathOf_updatePathElement_ne.
Qed.

(** The moves of a link gesture only redraw the provisional path. *)
Lemma run_moves_LinkCreation (moves : list PointerEvent) (m : Model)
    (task : nat) (pid : Z) (path : nat) (moved : bool) :
  listeners m = [LinkCreation task pid path moved] →
  path_from (pathOf m path) = Some task →
  Forall (fun ev => pointerId ev = pid) moves →
  let m1 := run m (map PointerMove moves) in
  listeners m1
  = [LinkCreation task pid path (moved || bool_decide (moves ≠ []))]
  ∧ retraced path m m1.
Proof.
  revert m moved. induction moves as [|ev moves IH];
    intros m moved Hl Hfrom Hall; cbv zeta.
  - simpl. rewrite orb_false_r. split; [done|apply retraced_refl].
  - apply Forall_cons in Hall as [Hid Hall].
    destruct (updatePath_dest path
                {| geometry.x := offsetX ev; geometry.y := offsetY ev |} m task
                Hfrom) as (v & Hup).
    set (m1 := handle m (PointerMove ev)).
    assert (Hm1 : m1 = set_listeners (fun _ => [LinkCreation task pid path true])
                         (updatePathElement (set_path_d v) path m)).
    { unfold m1, handle. rewrite Hl. cbn [dispatchMove onPointerMove].
      rewrite decide_True by done. by rewrite Hup. }
    assert (Hr1 : retraced path m m1).
    { rewrite Hm1. apply (retraced_set_path_d v path m). }
    destruct (IH m1 true) as (Hl2 & Hr2); [by rewrite Hm1| |done|].
    { destruct Hr1 as (_ & _ & _ & _ & _ & _ & _ & -> & _). done. }
    change (run m (map PointerMove (ev :: moves)))
      with (run m1 (map PointerMove moves)).
    split; [|by eapply retraced_trans].
    cbv zeta in Hl2. rewrite Hl2.
    rewrite (bool_decide_eq_true_2 (ev :: moves ≠ [])) by done.
    by rewrite orb_true_r.
Qed.

(** X14.  A link gesture that moved and is released away from every task
    leaves no trace: the provisional path is taken out of [arrows] again, no
    task, no dependency of [arrows] and no adjacency array differs from
    before the press, nothing was dispatched or logged, and the listeners
    of the gesture are gone. *)
Theorem link_gesture_discarded (m : Model) (task : nat) (down : PointerEvent)
    (moves : list PointerEvent) (kind : EndKind) (release : PointerEvent) :
  listeners m = [] →
  asTask m (target down) = Some task →
  shiftKey down || linkModeCheckbox m = true →
  moves ≠ [] →
  Forall (fun ev => pointerId ev = pointerId down) moves →
  pointerId release = pointerId down →
  let m1 := run m (PointerDown down :: map PointerMove moves) in
  let m' := handle m1 (PointerEnd kind release) in
  asTask m1 (elementFromPoint m1 (pageX release) (pageY release)) = None →
  arrows m' = arrows m
  ∧ (∀ p, p ∈ arrows m → pathOf m' p = pathOf m p)
  ∧ taskElements m' = taskElements m ∧ itemsContainer m' = itemsContainer m
  ∧ panzoom m' = panzoom m
  ∧ dispatched m' = dispatched m ∧ console m' = console m
  ∧ listeners m' = [].
Proof.
  intros Hl Ht Hmode Hne Hall Hid m1 m' Hmiss.
  destruct (link_press m task down Ht Hmode)
    as (Hfresh & Hl0 & Ha0 & Hp0 & Ho0 & Et0 & Ei0 & Ez0 & _ & Ed0 & Ec0).
  cbv zeta in Hfresh, Hl0, Ha0, Hp0, Ho0, Et0, Ei0, Ez0, Ed0, Ec0.
  set (path := createPathElement m) in *.
  set (m0 := handle m (PointerDown down)) in *.
  rewrite Hl in Hl0. simpl in Hl0.
  destruct (run_moves_LinkCreation moves m0 task (pointerId down) path false Hl0)
    as (Hl1 & Hr1); [by rewrite Hp0|done|].
  cbv zeta in Hl1, Hr1.
  change (run m0 (map PointerMove moves)) with m1 in Hl1, Hr1.
  rewrite (bool_decide_eq_true_2 (moves ≠ [])) in Hl1 by done. simpl in Hl1.
  destruct Hr1 as (Et1 & Ei1 & Ea1 & Ez1 & _ & Ed1 & Ec1 & Ef1 & _ & Ho1).
  pose proof (linkRelease_cases task path release m1) as Hrel.
  rewrite Hmiss in Hrel.
  assert (Hm' : m' = set_listeners (fun _ => [])
                       (set_arrows (removeChild path) m1)).
  { unfold m', handle. rewrite Hl1. cbn [dispatchEnd onPointerEnd].
    rewrite decide_True by done. cbn [negb]. rewrite Hrel; [done| |].
    - rewrite Ea1, Ha0. apply elem_of_app. right. apply list_elem_of_here.
    - by rewrite Ef1, Hp0. }
  rewrite Hm'. split_and!.
  - cbn [arrows set_listeners set_arrows]. rewrite Ea1, Ha0.
    unfold removeChild. rewrite filter_app, filter_cons, decide_False by naive_solver.
    rewrite filter_nil, app_nil_r. apply filter_all, Forall_forall.
    intros p Hp ->. done.
  - intros p Hp. assert (Hpp : p ≠ path) by (by intros ->).
    change (pathOf m1 p = pathOf m p). by rewrite Ho1, Ho0.
  - change (taskElements m1 = taskElements m). congruence.
  - change (itemsContainer m1 = itemsContainer m). congruence.
  - change (panzoom m1 = panzoom m). congruence.
  - change (dispatched m1 = dispatched m). congruence.
  - change (console m1 = console m). congruence.
  - done.
Qed.


Lemma linked_wfP (d a b : nat) (m m' : Model) :
  wfP m → a ∈ itemsContainer m → b ∈ itemsContainer m →
  linked d a b m m' → wfP m'.
Proof.
  intros [Hi Ha Hk Hl Hf Ht He] Hia Hib
         (Hd & Ha' & Hi' & Hface & Ho & Hda & Hdb & Hlists).
  assert (Hnf : ∀ t, t ∈ itemsContainer m → d ∉ from (taskOf m t)).
  { intros t Hin Hdf. apply (Hf t d Hin) in Hdf as [? _]. done. }
  assert (Hnt : ∀ t, t ∈ itemsContainer m → d ∉ to (taskOf m t)).
  { intros t Hin Hdf. apply (Ht t d Hin) in Hdf as [? _]. done. }
  split.
  - by rewrite Hi'.
  - rewrite Ha'. apply NoDup_app. split; [done|]. split; [|apply NoDup_singleton].
    intros c Hc ->%list_elem_of_singleton. done.
  - intros t Hin. rewrite Hi' in Hin. destruct (Hface t) as (_ & -> & _).
    by apply Hk.
  - intros t Hin. rewrite Hi' in Hin. destruct (Hlists t) as [-> ->].
    destruct (Hl t Hin) as [Hn1 Hn2].
    split; case_decide; subst; try done; apply NoDup_app;
      (split; [done|]); (split; [|apply NoDup_singleton]);
      intros c Hc ->%list_elem_of_singleton.
    + by apply (Hnf t Hin).
    + by apply (Hnt t Hin).
  - intros t d' Hin. rewrite Hi' in Hin. destruct (Hlists t) as [-> _].
    rewrite Ha'. destruct (decide (d' = d)) as [->|Hne].
    + rewrite Hda. case_decide; subst.
      * split; [|intros _; apply elem_of_app; right; apply list_elem_of_here].
        intros _. split; [apply elem_of_app; right; apply list_elem_of_here|done].
      * split; [intros Hx; by apply Hnf in Hx|]. intros [_ ?]. congruence.
    + destruct (decide (d' ∈ arrows m)) as [Hd'|Hd'].
      * rewrite (Ho d' Hd').
        rewrite elem_of_app, list_elem_of_singleton.
        case_decide; subst; rewrite ?elem_of_app, ?list_elem_of_singleton,
          (Hf t d' Hin); tauto.
      * split.
        -- intros Hx. exfalso. apply Hd'.
           assert (Hx' : d' ∈ from (taskOf m t)).
           { case_decide; [|done].
             apply elem_of_app in Hx as [?|?%list_elem_of_singleton]; done. }
           by apply (Hf t d' Hin) in Hx' as [? _].
        -- intros [Hx _]. exfalso.
           apply elem_of_app in Hx as [?|?%list_elem_of_singleton]; done.
  - intros t d' Hin. rewrite Hi' in Hin. destruct (Hlists t) as [_ ->].
    rewrite Ha'. destruct (decide (d' = d)) as [->|Hne].
    + rewrite Hdb. case_decide; subst.
      * split; [|intros _; apply elem_of_app; right; apply list_elem_of_here].
        intros _. split; [apply elem_of_app; right; apply list_elem_of_here|done].
      * split; [intros Hx; by apply Hnt in Hx|]. intros [_ ?]. congruence.
    + destruct (decide (d' ∈ arrows m)) as [Hd'|Hd'].
      * rewrite (Ho d' Hd').
        rewrite elem_of_app, list_elem_of_singleton.
        case_decide; subst; rewrite ?elem_of_app, ?list_elem_of_singleton,
          (Ht t d' Hin); tauto.
      * split.
        -- intros Hx. exfalso. apply Hd'.
           assert (Hx' : d' ∈ to (taskOf m t)).
           { case_decide; [|done].
             apply elem_of_app in Hx as [?|?%list_elem_of_singleton]; done. }
           by apply (Ht t d' Hin) in Hx' as [? _].
        -- intros [Hx _]. exfalso.
           apply elem_of_app in Hx as [?|?%list_elem_of_singleton]; done.
  - intros d' Hd'. rewrite Ha' in Hd'. rewrite Hi'.
    destruct (decide (d' = d)) as [->|Hne]; [by exists a, b|].
    apply elem_of_app in Hd' as [Hd'|Hx];
      [|by apply list_elem_of_singleton in Hx].
    rewrite (Ho d' Hd'). by apply He.
Qed.

Lemma linked_getGraph (d a b : nat) (m m' : Model) (document : Graph) :
  linked d a b m m' →
  getGraph m = Returned document m →
  getGraph m'
  = Returned
      {| tasks := tasks document;
         dependencies :=
           dependencies document
           ++ [ {| predecessor := textContent (taskOf m a);
                   successor := textContent (taskOf m b) |} ] |}
      m'.
Proof.
  intros (Hd & Ha' & Hi' & Hface & Ho & Hda & Hdb & _) Hget.
  unfold getGraph, getDependencies in *.
  destruct (mapM (dependencyRecord m) (arrows m)) as [recs|] eqn:Hrecs; [|done].
  simplify_eq. cbn [tasks dependencies].
  apply mapM_Some in Hrecs.
  assert (Hrecs' : mapM (dependencyRecord m') (arrows m')
                   = Some (recs ++ [ {| predecessor := textContent (taskOf m a);
                                        successor := textContent (taskOf m b) |} ])).
  { apply mapM_Some. rewrite Ha'. apply Forall2_app.
    - eapply Forall2_impl_in; [exact Hrecs|]. intros c r Hc Hr. simpl in *.
      unfold dependencyRecord in *. rewrite (Ho c Hc).
      destruct (path_from (pathOf m c)) as [a'|]; [|done].
      destruct (path_to (pathOf m c)) as [b'|]; [|done].
      destruct (Hface a') as (-> & _), (Hface b') as (-> & _). done.
    - constructor; [|constructor]. unfold dependencyRecord.
      rewrite Hda, Hdb. by destruct (Hface a) as (-> & _), (Hface b) as (-> & _). }
  rewrite Hrecs'. f_equal. f_equal.
  assert (Hg : getTasks m' = getTasks m).
  { apply getTasks_preserved; [done|]. intros c.
    by destruct (Hface c) as (_ & -> & _). }
  rewrite Hg. apply map_ext_in. intros c _. by apply taskRecord_ext.
Qed.

(** The release of a link gesture over a task. *)
Lemma linkRelease_commit (task path targetTask : nat) (event : PointerEvent)
    (m : Model) :
  path_from (pathOf m path) = Some task →
  asTask m (elementFromPoint m (pageX event) (pageY event)) = Some targetTask →
  let m3 := updateTask (set_to (fun a => a ++ [path])) targetTask
              (updateTask (set_from (fun a => a ++ [path])) task
                 (updatePathElement (set_path_to (Some targetTask)) path m)) in
  linkRelease task path event m
  = Returned tt
      (set_dispatched (fun evs => evs ++ [newdependency])
         (updatePathElement (set_path_d (drawn m3 path)) path m3)).
Proof.
  intros Hfrom Hhit m3.
  unfold linkRelease, mbind, JS_bind, bind, read, exec. rewrite Hhit.
  fold m3.
  assert (Hp : pathOf m3 path = set_path_to (Some targetTask) (pathOf m path)).
  { unfold m3. by frame. }
  rewrite (updatePath_committed path m3) by (rewrite Hp; simpl; by rewrite ?Hfrom).
  done.
Qed.

(** A link gesture that moved and is released over a task. *)
Lemma link_gesture_commit (m : Model) (task targetTask : nat)
    (down : PointerEvent) (moves : list PointerEvent) (kind : EndKind)
    (release : PointerEvent) :
  listeners m = [] →
  asTask m (target down) = Some task →
  shiftKey down || linkModeCheckbox m = true →
  moves ≠ [] →
  Forall (fun ev => pointerId ev = pointerId down) moves →
  pointerId release = pointerId down →
  let m1 := run m (PointerDown down :: map PointerMove moves) in
  let m' := handle m1 (PointerEnd kind release) in
  asTask m1 (elementFromPoint m1 (pageX release) (pageY release))
  = Some targetTask →
  linked (createPathElement m) task targetTask m m'
  ∧ path_d (pathOf m' (createPathElement m)) = drawn m' (createPathElement m)
  ∧ panzoom m' = panzoom m
  ∧ dispatched m' = dispatched m ++ [newdependency]
  ∧ console m' = console m
  ∧ listeners m' = [].
Proof.
  intros Hl Ht Hmode Hne Hall Hid m1 m' Hhit.
  destruct (link_press m task down Ht Hmode)
    as (Hfresh & Hl0 & Ha0 & Hp0 & Ho0 & Et0 & Ei0 & Ez0 & _ & Ed0 & Ec0).
  cbv zeta in Hfresh, Hl0, Ha0, Hp0, Ho0, Et0, Ei0, Ez0, Ed0, Ec0.
  set (path := createPathElement m) in *.
  set (m0 := handle m (PointerDown down)) in *.
  rewrite Hl in Hl0. simpl in Hl0.
  destruct (run_moves_LinkCreation moves m0 task (pointerId down) path false Hl0)
    as (Hl1 & Hr1); [by rewrite Hp0|done|].
  cbv zeta in Hl1, Hr1.
  change (run m0 (map PointerMove moves)) with m1 in Hl1, Hr1.
  rewrite (bool_decide_eq_true_2 (moves ≠ [])) in Hl1 by done. simpl in Hl1.
  destruct Hr1 as (Et1 & Ei1 & Ea1 & Ez1 & _ & Ed1 & Ec1 & Ef1 & Eto1 & Ho1).
  assert (Hfrom1 : path_from (pathOf m1 path) = Some task).
  { by rewrite Ef1, Hp0. }
  pose proof (linkRelease_commit task path targetTask release m1 Hfrom1 Hhit)
    as Hrel. cbv zeta in Hrel.
  set (m3 := updateTask (set_to (fun a => a ++ [path])) targetTask
               (updateTask (set_from (fun a => a ++ [path])) task
                  (updatePathElement (set_path_to (Some targetTask)) path m1)))
    in *.
  assert (Hm' : m' = set_listeners (fun _ => [])
                       (set_dispatched (fun evs => evs ++ [newdependency])
                          (updatePathElement (set_path_d (drawn m3 path)) path m3))).
  { unfold m', handle. rewrite Hl1. cbn [dispatchEnd onPointerEnd].
    rewrite decide_True by done. cbn [negb]. by rewrite Hrel. }
  assert (Htask1 : ∀ c, taskOf m1 c = taskOf m c).
  { intros c. unfold taskOf. by rewrite Et1, Et0. }
  assert (Htask3 : ∀ c, taskOf m3 c
                        = if decide (targetTask = c)
                          then set_to (fun a => a ++ [path])
                                 (if decide (task = c)
                                  then set_from (fun a => a ++ [path]) (taskOf m c)
                                  else taskOf m c)
                          else if decide (task = c)
                               then set_from (fun a => a ++ [path]) (taskOf m c)
                               else taskOf m c).
  { intros c. unfold m3. rewrite !taskOf_updateTask. frame.
    rewrite !Htask1. repeat case_decide; subst; done. }
  assert (Hpath3 : pathOf m3 path = set_path_to (Some targetTask) (pathOf m1 path)).
  { unfold m3. by frame. }
  assert (Htask' : ∀ c, taskOf m' c = taskOf m3 c).
  { intros c. rewrite Hm'. by frame. }
  assert (Hpath' : pathOf m' path = set_path_d (drawn m3 path) (pathOf m3 path)).
  { rewrite Hm'. by frame. }
  assert (Hother' : ∀ c, c ≠ path → pathOf m' c = pathOf m c).
  { intros c Hc. rewrite Hm'. frame. unfold m3. frame.
    by rewrite Ho1, Ho0. }
  split_and!.
  - unfold linked. split_and!.
    + done.
    + rewrite Hm'. change (arrows m1 = arrows m ++ [path]). congruence.
    + rewrite Hm'. change (itemsContainer m1 = itemsContainer m). congruence.
    + intros c. rewrite Htask', Htask3. unfold sameFace.
      repeat case_decide; done.
    + intros c Hc. apply Hother'. by intros ->.
    + rewrite Hpath', Hpath3. simpl. by rewrite Ef1, Hp0.
    + rewrite Hpath', Hpath3. done.
    + intros c. rewrite Htask', Htask3. repeat case_decide; done.
  - assert (Hbox : ∀ c, getOffsetBox m' c = getOffsetBox m3 c).
    { intros c. unfold getOffsetBox. by rewrite Htask'. }
    transitivity (drawn m3 path); [by rewrite Hpath'|].
    unfold drawn. rewrite Hpath', Hpath3.
    cbn [path_from path_to path_d set_path_d set_path_to].
    rewrite Ef1, Hp0. cbn [path_from]. by rewrite !Hbox.
  - rewrite Hm'. change (panzoom m1 = panzoom m). congruence.
  - rewrite Hm'. change (dispatched m1 ++ [newdependency]
                         = dispatched m ++ [newdependency]). congruence.
  - rewrite Hm'. change (console m1 = console m). congruence.
  - by rewrite Hm'.
Qed.


(** X15.  A link gesture that moved and is released over a task, the
    pressed one included, adds one dependency from the pressed task to the
    task under the release point: saving afterwards returns the document
    saved before the gesture with that dependency appended.  The release
    dispatches one "newdependency" event and removes the listeners of the
    gesture. *)
Theorem link_gesture_adds_dependency (m : Model) (task targetTask : nat)
    (down : PointerEvent) (moves : list PointerEvent) (kind : EndKind)
    (release : PointerEvent) (document : Graph) :
  listeners m = [] →
  asTask m (target down) = Some task →
  shiftKey down || linkModeCheckbox m = true →
  moves ≠ [] →
  Forall (fun ev => pointerId ev = pointerId down) moves →
  pointerId release = pointerId down →
  getGraph m = Returned document m →
  let m1 := run m (PointerDown down :: map PointerMove moves) in
  let m' := handle m1 (PointerEnd kind release) in
  asTask m1 (elementFromPoint m1 (pageX release) (pageY release))
  = Some targetTask →
  getGraph m'
  = Returned
      {| tasks := tasks document;
         dependencies :=
           dependencies document
           ++ [ {| predecessor := textContent (taskOf m task);
                   successor := textContent (taskOf m targetTask) |} ] |}
      m'
  ∧ dispatched m' = dispatched m ++ [newdependency]
  ∧ listeners m' = [].
Proof.
  intros Hl Ht Hmode Hne Hall Hid Hget m1 m' Hhit.
  destruct (link_gesture_commit m task targetTask down moves kind release
              Hl Ht Hmode Hne Hall Hid Hhit)
    as (Hlinked & _ & _ & Hd & _ & Hl').
  split_and!; [|exact Hd|exact Hl'].
  exact (linked_getGraph _ _ _ m m' document Hlinked Hget).
Qed.

(** X16.  A committed link gesture keeps the model well formed when the two
    tasks are on the canvas: the new path is a child of [arrows] with both
    ends set, it is the last entry of the [from] array of the pressed task
    and of the [to] array of the target task, and it is drawn between their
    boxes. *)
Theorem link_gesture_keeps_wf (m : Model) (task targetTask : nat)
    (down : PointerEvent) (moves : list PointerEvent) (kind : EndKind)
    (release : PointerEvent) :
  wf m →
  task ∈ itemsContainer m → targetTask ∈ itemsContainer m →
  listeners m = [] →
  asTask m (target down) = Some task →
  shiftKey down || linkModeCheckbox m = true →
  moves ≠ [] →
  Forall (fun ev => pointerId ev = pointerId down) moves →
  pointerId release = pointerId down →
  let m1 := run m (PointerDown down :: map PointerMove moves) in
  let m' := handle m1 (PointerEnd kind release) in
  asTask m1 (elementFromPoint m1 (pageX release) (pageY release))
  = Some targetTask →
  wf m'
  ∧ ∃ path,
      arrows m' = arrows m ++ [path]
      ∧ path_from (pathOf m' path) = Some task
      ∧ path_to (pathOf m' path) = Some targetTask
      ∧ last (from (taskOf m' task)) = Some path
      ∧ last (to (taskOf m' targetTask)) = Some path
      ∧ path_d (pathOf m' path) = drawn m' path.
Proof.
  intros Hwf%wf_wfP Hia Hib Hl Ht Hmode Hne Hall Hid m1 m' Hhit.
  destruct (link_gesture_commit m task targetTask down moves kind release
              Hl Ht Hmode Hne Hall Hid Hhit)
    as (Hlinked & Hdrawn & _).
  split.
  { apply wf_wfP.
    exact (linked_wfP _ task targetTask m m' Hwf Hia Hib Hlinked). }
  destruct Hlinked as (_ & Ha & _ & _ & _ & Hf & Hto & Hlists).
  exists (createPathElement m). subst m' m1. split_and!; try done.
  - destruct (Hlists task) as [-> _]. rewrite decide_True by done.
    apply last_snoc.
  - destruct (Hlists targetTask) as [_ ->]. rewrite decide_True by done.
    apply last_snoc.
Qed.


(** X17.  While a link gesture is under way, from the press until the
    release, the provisional path is a child of [arrows] without a head:
    the model is not well formed and [getGraph] throws a TypeError. *)
Theorem getGraph_during_link_gesture (m : Model) (task : nat)
    (down : PointerEvent) (moves : list PointerEvent) :
  listeners m = [] →
  asTask m (target down) = Some task →
  shiftKey down || linkModeCheckbox m = true →
  Forall (fun ev => pointerId ev = pointerId down) moves →
  let m1 := run m (PointerDown down :: map PointerMove moves) in
  getGraph m1 = Thrown TypeError m1 ∧ ¬ wf m1.
Proof.
  intros Hl Ht Hmode Hall m1.
  destruct (link_press m task down Ht Hmode)
    as (Hfresh & Hl0 & Ha0 & Hp0 & _).
  cbv zeta in Hfresh, Hl0, Ha0, Hp0.
  set (path := createPathElement m) in *.
  set (m0 := handle m (PointerDown down)) in *.
  rewrite Hl in Hl0. simpl in Hl0.
  destruct (run_moves_LinkCreation moves m0 task (pointerId down) path false Hl0)
    as (_ & Hr1); [by rewrite Hp0|done|].
  cbv zeta in Hr1. change (run m0 (map PointerMove moves)) with m1 in Hr1.
  destruct Hr1 as (_ & _ & Ea1 & _ & _ & _ & _ & _ & Eto1 & _).
  assert (Hin : path ∈ arrows m1).
  { rewrite Ea1, Ha0. apply elem_of_app. right. apply list_elem_of_here. }
  assert (Hto : path_to (pathOf m1 path) = None) by (by rewrite Eto1, Hp0).
  split.
  - unfold getGraph, getDependencies.
    rewrite (mapM_None_2 (dependencyRecord m1) (arrows m1)); [done|].
    apply Exists_exists. exists path. split; [done|].
    unfold dependencyRecord. rewrite Hto. by destruct (path_from _).
  - intros Hwf%wf_wfP.
    destruct (wf_ends m1 Hwf path Hin) as (a & b & _ & Hb & _). congruence.
Qed.

(** ** Saving a well-formed model *)

(** X18.  On a well-formed model [getGraph] returns normally and leaves the
    model as it is.  The document has one record for each child of
    [itemsContainer] and one for each child of [arrows], in order, and both
    names of every dependency are names of tasks of the document. *)
Theorem getGraph_closed (m : Model) :
  wf m →
  ∃ document,
    getGraph m = Returned document m
    ∧ tasks document = map (taskRecord m) (itemsContainer m)
    ∧ Forall2 (fun d r => dependencyRecord m d = Some r) (arrows m)
        (dependencies document)
    ∧ Forall (fun dep => predecessor dep ∈ map name (tasks document)
                         ∧ successor dep ∈ map name (tasks document))
        (dependencies document).
Proof.
  intros Hwf%wf_wfP.
  destruct (mapM_is_Some_2 (dependencyRecord m) (arrows m)) as [recs Hrecs].
  { apply Forall_forall. intros d Hd. simpl.
    destruct (wf_ends m Hwf d Hd) as (a & b & Ha & Hb & _).
    unfold dependencyRecord. rewrite Ha, Hb. by eexists. }
  exists {| tasks := map (taskRecord m) (itemsContainer m);
            dependencies := recs |}.
  pose proof (mapM_Some_1 _ _ _ Hrecs) as Hall.
  split_and!; try done.
  - unfold getGraph, getDependencies. rewrite Hrecs.
    by rewrite (wfP_getTasks m Hwf).
  - cbn [tasks dependencies]. apply Forall_forall. intros r Hr.
    apply list_elem_of_lookup in Hr as [i Hi].
    destruct (Forall2_lookup_r _ _ _ _ _ Hall Hi) as (d & Hd & Hrec).
    apply list_elem_of_lookup_2 in Hd.
    destruct (wf_ends m Hwf d Hd) as (a & b & Ha & Hb & Hia & Hib).
    unfold dependencyRecord in Hrec. rewrite Ha, Hb in Hrec. simplify_eq.
    cbn [predecessor successor]. rewrite map_map.
    split; apply list_elem_of_In, in_map_iff; [exists a|exists b];
      (split; [done|by apply list_elem_of_In]).
Qed.


(** ** Completing twice *)

Lemma classToggle_twice (c : string) (s : gset string) :
  classToggle c (classToggle c s) = s.
Proof.
  unfold classToggle, contains, classRemove, classAdd.
  destruct (decide (c ∈ s)) as [Hin|Hin].
  - rewrite (bool_decide_eq_true_2 _ Hin).
    rewrite bool_decide_eq_false_2 by set_solver.
    apply set_eq. intros x. rewrite elem_of_union, elem_of_difference,
      elem_of_singleton. destruct (decide (x = c)); naive_solver.
  - rewrite (bool_decide_eq_false_2 _ Hin).
    rewrite bool_decide_eq_true_2 by set_solver.
    apply set_eq. intros x. rewrite elem_of_difference, elem_of_union,
      elem_of_singleton. naive_solver.
Qed.

Lemma sameButTasks_trans (m1 m2 m3 : Model) :
  sameButTasks m1 m2 → sameButTasks m2 m3 → sameButTasks m1 m3.
Proof.
  intros (? & ? & ? & ? & ? & ? & ? & ?) (? & ? & ? & ? & ? & ? & ? & ?).
  unfold sameButTasks. split_and!; congruence.
Qed.

(** X19.  [completeSelected] undoes itself: applied twice it leaves every
    element, the selection included, exactly as it was. *)
Theorem completeSelected_twice (m : Model) :
  NoDup (itemsContainer m) →
  let m2 := completeSelected (completeSelected m) in
  (∀ e, taskOf m2 e = taskOf m e)
  ∧ getSelected m2 = getSelected m
  ∧ sameButTasks m m2.
Proof.
  intros Hnd m2.
  set (toggle := set_classList (classToggle "completed")).
  destruct (foldl_updateTask toggle (getSelected m) m (NoDup_getSelected m Hnd))
    as [Ht Hs].
  fold (completeSelected m) in Ht, Hs.
  set (m1 := completeSelected m) in *.
  assert (Hcls : ∀ e c, c ≠ "completed" →
            c ∈ classList (taskOf m1 e) ↔ c ∈ classList (taskOf m e)).
  { intros e c Hc. rewrite Ht. case_decide; [|done]. simpl.
    by apply elem_of_classToggle_other. }
  assert (Hgt : getTasks m1 = getTasks m).
  { apply getTasks_preserved; [by destruct Hs as (_ & ? & _)|].
    intros e. by apply Hcls. }
  assert (Hsel : getSelected m1 = getSelected m).
  { apply getSelected_preserved; [done|]. intros e. by apply Hcls. }
  assert (Hnd1 : NoDup (getSelected m)) by (by apply NoDup_getSelected).
  destruct (foldl_updateTask toggle (getSelected m) m1 Hnd1) as [Ht2 Hs2].
  assert (Hm2 : m2 = foldl (fun m e => updateTask toggle e m) m1 (getSelected m)).
  { unfold m2. fold m1. unfold completeSelected at 1. by rewrite Hsel. }
  rewrite <- Hm2 in Ht2, Hs2.
  assert (Htask : ∀ e, taskOf m2 e = taskOf m e).
  { intros e. rewrite Ht2, Ht. case_decide; [|done].
    unfold toggle, set_classList. cbn. rewrite classToggle_twice.
    by destruct (taskOf m e). }
  split; [done|]. split.
  - apply getSelected_preserved.
    + apply getTasks_preserved.
      * destruct Hs as (_ & E1 & _), Hs2 as (_ & E2 & _).
        etrans; [exact E2|exact E1].
      * intros e. by rewrite Htask.
    + intros e. by rewrite Htask.
  - exact (sameButTasks_trans m m1 m2 Hs Hs2).
Qed.

(** ** Clearing the canvas *)

(** X20.  After [clearGraph] the document saved is empty, whatever was on
    the canvas.  [clearGraph] dispatches no event, "selectionchanged"
    included, logs nothing, and leaves pan, zoom and listeners alone. *)
Theorem clearGraph_empties (m : Model) :
  let m' := clearGraph m in
  getGraph m' = Returned {| tasks := []; dependencies := [] |} m'
  ∧ dispatched m' = dispatched m ∧ console m' = console m
  ∧ panzoom m' = panzoom m ∧ listeners m' = listeners m
  ∧ taskElements m' = taskElements m ∧ pathElements m' = pathElements m.
Proof.
  cbv zeta. destruct (clearGraph_spec m) as [Ht Ha].
  split.
  { unfold getGraph, getDependencies. by rewrite Ht, Ha. }
  unfold clearGraph, getDependencies.
  set (m1 := foldl (fun m e => set_itemsContainer (removeChild e) m) m (getTasks m)).
  assert (H1 : ∀ l m0,
             let m2 := foldl (fun m e => set_itemsContainer (removeChild e) m)
                         m0 l in
             dispatched m2 = dispatched m0 ∧ console m2 = console m0
             ∧ panzoom m2 = panzoom m0 ∧ listeners m2 = listeners m0
             ∧ taskElements m2 = taskElements m0
             ∧ pathElements m2 = pathElements m0).
  { induction l as [|e l IH]; intros m0; [done|]. simpl.
    destruct (IH (set_itemsContainer (removeChild e) m0))
      as (-> & -> & -> & -> & -> & ->). done. }
  assert (H2 : ∀ l m0,
             let m2 := foldl (fun m e => set_arrows (removeChild e) m) m0 l in
             dispatched m2 = dispatched m0 ∧ console m2 = console m0
             ∧ panzoom m2 = panzoom m0 ∧ listeners m2 = listeners m0
             ∧ taskElements m2 = taskElements m0
             ∧ pathElements m2 = pathElements m0).
  { induction l as [|e l IH]; intros m0; [done|]. simpl.
    destruct (IH (set_arrows (removeChild e) m0))
      as (-> & -> & -> & -> & -> & ->). done. }
  destruct (H2 (arrows m1) m1) as (-> & -> & -> & -> & -> & ->).
  exact (H1 (getTasks m) m).
Qed.

(** ** A cancelled pan *)

(** X21.  [onGraphDragStart] registers no "pointercancel" listener: a
    cancel during a pan changes nothing and leaves the pan listener
    registered, so a later move of any pointer still pans, measured from
    the last position the gesture saw. *)
Theorem pan_survives_cancel (m : Model) (previousPosition : geometry.Point)
    (cancel move : PointerEvent) :
  listeners m = [GraphDrag previousPosition] →
  let m1 := handle m (PointerEnd pointercancel cancel) in
  let m2 := handle m1 (PointerMove move) in
  m1 = m
  ∧ listeners m2 = [GraphDrag (clientPosition move)]
  ∧ pan (panzoom m2)
    = {| geometry.x := geometry.x (pan (panzoom m))
                       + (clientX move - geometry.x previousPosition);
         geometry.y := geometry.y (pan (panzoom m))
                       + (clientY move - geometry.y previousPosition) |}%Q.
Proof.
  intros Hl m1 m2.
  assert (Hm1 : m1 = m).
  { unfold m1, handle. rewrite Hl. simpl. destruct m. simpl in Hl.
    by rewrite Hl. }
  split; [done|]. unfold m2. rewrite Hm1. unfold handle. rewrite Hl. done.
Qed.


(** ** Adding tasks and dependencies *)

Lemma findTask_first (m : Model) (l1 l2 : list nat) (a : nat) (text : string) :
  Forall (fun t => textContent (taskOf m t) ≠ text) l1 →
  textContent (taskOf m a) = text →
  findTask m (l1 ++ a :: l2) text = Some a.
Proof.
  intros Hall Ha. unfold findTask.
  induction Hall as [|t l1 Ht _ IH]; simpl.
  - by rewrite bool_decide_eq_true_2.
  - by rewrite bool_decide_eq_false_2.
Qed.

(** X22.  When several tasks show the same name, [addDependency] attaches
    the new path to the first of them in document order, at either end. *)
Theorem addDependency_first_match (dependency : Dependency) (m : Model)
    (a b : nat) (before_a after_a before_b after_b : list nat) :
  getTasks m = before_a ++ a :: after_a →
  Forall (fun t => textContent (taskOf m t) ≠ predecessor dependency) before_a →
  textContent (taskOf m a) = predecessor dependency →
  getTasks m = before_b ++ b :: after_b →
  Forall (fun t => textContent (taskOf m t) ≠ successor dependency) before_b →
  textContent (taskOf m b) = successor dependency →
  ∃ m' d,
    addDependency dependency m = Returned tt m'
    ∧ arrows m' = arrows m ++ [d]
    ∧ path_from (pathOf m' d) = Some a ∧ path_to (pathOf m' d) = Some b
    ∧ last (from (taskOf m' a)) = Some d ∧ last (to (taskOf m' b)) = Some d
    ∧ console m' = console m.
Proof.
  intros Hga Hna Ha Hgb Hnb Hb.
  assert (Ea : findTask m (getTasks m) (predecessor dependency) = Some a).
  { rewrite Hga. by apply findTask_first. }
  assert (Eb : findTask m (getTasks m) (successor dependency) = Some b).
  { rewrite Hgb. by apply findTask_first. }
  set (d := createPathElement m).
  set (m4 := set_arrows (fun c => c ++ [d])
               (updateTask (set_to (fun arr => arr ++ [d])) b
                  (updateTask (set_from (fun arr => arr ++ [d])) a
                     (updatePathElement (set_path_ends (Some a) (Some b)) d m)))).
  assert (Hpd : pathOf m4 d = set_path_ends (Some a) (Some b) (pathOf m d)).
  { unfold m4. by frame. }
  assert (Hrun : addDependency dependency m
                 = Returned tt (updatePathElement (set_path_d (drawn m4 d)) d m4)).
  { unfold addDependency, mbind, JS_bind, bind, read, exec.
    rewrite Ea, Eb. fold d. fold m4. apply updatePath_committed; by rewrite Hpd. }
  exists (updatePathElement (set_path_d (drawn m4 d)) d m4), d.
  split_and!; try done.
  - rewrite pathOf_updatePathElement_eq, Hpd. done.
  - rewrite pathOf_updatePathElement_eq, Hpd. done.
  - unfold m4. frame.
    destruct (taskOf_update_from_to (fun arr => arr ++ [d]) (fun arr => arr ++ [d])
                a b (updatePathElement (set_path_ends (Some a) (Some b)) d m) a)
      as (-> & _).
    rewrite decide_True by done. apply last_snoc.
  - unfold m4. frame. cbn [to set_to]. apply last_snoc.
Qed.

(** X23.  [addTask] on a well-formed model appends one task and touches
    nothing else: the document saved afterwards is the document saved
    before with one record more at the end of the tasks, which carries the
    name of the argument and the status of the argument (todo when absent),
    at the position of the argument when there is one.  The model stays
    well formed. *)
Theorem addTask_getGraph (task : AddTask) (m : Model) (document : Graph) :
  wf m →
  getGraph m = Returned document m →
  let e := fst (addTask task m) in
  let m' := snd (addTask task m) in
  getGraph m'
  = Returned {| tasks := tasks document ++ [taskRecord m' e];
                dependencies := dependencies document |} m'
  ∧ name (taskRecord m' e) = add_name task
  ∧ status (taskRecord m' e) = default todo (add_status task)
  ∧ (∀ p, add_pos task = Some p → pos (taskRecord m' e) = p)
  ∧ wf m'.
Proof.
  intros Hwf%wf_wfP Hget.
  pose proof (addTask_spec task m) as Hs.
  pose proof (taskOf_addTask task m) as Hf.
  pose proof (addTask_wfP task m Hwf) as Hwf'.
  cbv zeta in Hs, Hf |- *.
  set (e := fst (addTask task m)) in *.
  set (m' := snd (addTask task m)) in *. clearbody e m'.
  destruct Hs as (He & Hblank & Hi & Ha & Hp & Ho & _).
  destruct Hf as (Hn & Hc & Hx & Hy & _).
  rewrite Hblank in Hc. cbn in Hc.
  assert (Htask : "task" ∈ classList (taskOf m' e)).
  { rewrite Hc. unfold classAdd. destruct (add_status task) as [[]|]; set_solver. }
  assert (Hpath : ∀ d, pathOf m' d = pathOf m d).
  { intros d. unfold pathOf. by rewrite Hp. }
  unfold getGraph, getDependencies in Hget.
  destruct (mapM (dependencyRecord m) (arrows m)) as [recs|] eqn:Hrecs; [|done].
  simplify_eq. cbn [tasks dependencies].
  split_and!.
  - unfold getGraph, getDependencies.
    assert (Hrecs' : mapM (dependencyRecord m') (arrows m') = Some recs).
    { apply mapM_Some. apply mapM_Some in Hrecs. rewrite Ha.
      eapply Forall2_impl_in; [exact Hrecs|]. intros d r Hd Hr. simpl in *.
      destruct (wf_ends m Hwf d Hd) as (a & b & Hda & Hdb & Hia & Hib).
      unfold dependencyRecord in *. rewrite Hpath, Hda, Hdb in *.
      rewrite !Ho; [done| |]; intros ->; done. }
    rewrite Hrecs'. f_equal. f_equal.
    rewrite (getTasks_snoc m m' e He Hi Ho Htask), map_app. f_equal.
    apply map_ext_in. intros c Hin. apply taskRecord_ext.
    assert (c ≠ e).
    { intros ->. apply He. apply list_elem_of_In in Hin.
      by apply getTasks_items in Hin. }
    rewrite Ho by done. apply sameFace_refl.
  - exact Hn.
  - unfold taskRecord. cbn [status]. rewrite Hc. unfold contains, classAdd.
    destruct (add_status task) as [[]|]; cbn [default];
      [rewrite bool_decide_eq_false_2|rewrite bool_decide_eq_true_2
      |rewrite bool_decide_eq_false_2]; try done; set_solver.
  - intros p Hpos. unfold taskRecord, getOffsetBox.
    cbn [pos geometry.left geometry.top]. rewrite Hx, Hy, Hpos.
    by destruct p.
  - by apply wf_wfP.
Qed.

(** ** Deleting one dependency *)

(** X24.  [deleteDependency] on a dependency of a well-formed model returns
    normally; the path is gone from [arrows] and from the adjacency arrays
    of its two tasks, nothing else differs, and the model is well formed
    again. *)
Theorem deleteDependency_removes (m : Model) (d : nat) :
  wf m → d ∈ arrows m →
  ∃ m', deleteDependency d m = Returned tt m'
        ∧ deleted [d] m m'
        ∧ (d ∉ arrows m')
        ∧ (∀ t, t ∈ itemsContainer m' →
                (d ∉ from (taskOf m' t)) ∧ (d ∉ to (taskOf m' t)))
        ∧ wf m'.
Proof.
  intros Hwf%wf_wfP Hd.
  destruct (deleteDependency_spec m d Hwf Hd) as (m' & Hrun & Hdel).
  exists m'. split_and!; try done.
  - destruct Hdel as (_ & _ & -> & _).
    intros [Hn _]%list_elem_of_filter. apply Hn, list_elem_of_here.
  - intros t Ht. destruct Hdel as (Ei & _ & _ & Hft & _).
    rewrite Ei in Ht. destruct (Hft t Ht) as [-> ->].
    split; intros [Hn _]%list_elem_of_filter; apply Hn, list_elem_of_here.
  - apply wf_wfP. by eapply deleted_wfP.
Qed.

(** ** Select all, then delete *)

(** X26.  On a well-formed model, [selectAll] followed by [deleteSelected]
    empties the canvas: no task and no dependency is left, the document
    saved afterwards is empty, and two "selectionchanged" events are
    dispatched, the first with all tasks and the second with none. *)
Theorem selectAll_deleteSelected (m : Model) :
  wf m →
  ∃ m', deleteSelected (selectAll m) = Returned tt m'
        ∧ itemsContainer m' = [] ∧ arrows m' = []
        ∧ getGraph m' = Returned {| tasks := []; dependencies := [] |} m'
        ∧ dispatched m'
          = dispatched m ++ [selectionchanged (getTasks m); selectionchanged []].
Proof.
  intros Hwf%wf_wfP.
  set (select := set_classList (classAdd "selected")).
  set (m0 := foldl (fun m t => updateTask select t m) m (getTasks m)).
  assert (Ht : ∀ e, taskOf m0 e
                    = if decide (e ∈ getTasks m) then select (taskOf m e)
                      else taskOf m e).
  { apply foldl_updateTask_idem, set_classList_idem, classAdd_idem. }
  pose proof (foldl_updateTask_frame select (getTasks m) m) as Hs.
  fold m0 in Hs. destruct Hs as (Hp & Hi & Ha & _ & _ & _ & Hd & _).
  set (m1 := selectAll m).
  assert (Hm1 : m1 = sendSelectionChanged (Some (getTasks m)) m0) by done.
  assert (Htask1 : ∀ e, taskOf m1 e = taskOf m0 e) by done.
  assert (Hpath1 : ∀ d, pathOf m1 d = pathOf m d).
  { intros d. unfold pathOf. change (pathElements m1) with (pathElements m0).
    by rewrite Hp. }
  assert (Hitems1 : itemsContainer m1 = itemsContainer m) by exact Hi.
  assert (Harrows1 : arrows m1 = arrows m) by exact Ha.
  assert (Hfrom1 : ∀ e, from (taskOf m1 e) = from (taskOf m e)
                        ∧ to (taskOf m1 e) = to (taskOf m e)).
  { intros e. rewrite Htask1, Ht. by case_decide. }
  assert (Hwf1 : wfP m1).
  { destruct Hwf as [Wi Wa Wk Wl Wf Wt We]. split.
    - by rewrite Hitems1.
    - by rewrite Harrows1.
    - intros t Hin. rewrite Hitems1 in Hin. rewrite Htask1, Ht.
      case_decide; [|by apply Wk]. unfold select, classAdd. simpl.
      apply elem_of_union. left. by apply Wk.
    - intros t Hin. rewrite Hitems1 in Hin. destruct (Hfrom1 t) as [-> ->].
      by apply Wl.
    - intros t d Hin. rewrite Hitems1 in Hin. destruct (Hfrom1 t) as [-> _].
      rewrite Harrows1, Hpath1. by apply Wf.
    - intros t d Hin. rewrite Hitems1 in Hin. destruct (Hfrom1 t) as [_ ->].
      rewrite Harrows1, Hpath1. by apply Wt.
    - intros d Hin. rewrite Harrows1 in Hin. rewrite Hitems1, Hpath1.
      by apply We. }
  assert (Hsel1 : getSelected m1 = itemsContainer m).
  { unfold getSelected. rewrite (wfP_getTasks m1 Hwf1), Hitems1.
    apply filter_all, Forall_forall. intros e He. rewrite Htask1, Ht.
    rewrite decide_True by (by rewrite (wfP_getTasks m Hwf)).
    unfold select, classAdd. simpl. set_solver. }
  destruct (forEach_deleteTask (getSelected m1) m1 Hwf1)
    as (m2 & Hrun & Hrem & Hwf2).
  { rewrite Hsel1. apply (wf_items m Hwf). }
  { intros t. by rewrite Hsel1, Hitems1. }
  destruct Hrem as (Ei & Ea & _ & _ & _ & _ & _ & Ed & _).
  assert (Hi2 : itemsContainer m2 = []).
  { rewrite Ei, Hsel1, Hitems1. apply elem_of_nil_inv.
    intros t [Hn Hin]%list_elem_of_filter. done. }
  assert (Ha2 : arrows m2 = []).
  { rewrite Ea. apply elem_of_nil_inv. intros d [Hn Hin]%list_elem_of_filter.
    apply Hn. destruct (wf_ends m1 Hwf1 d Hin) as (a & b & Hda & _ & Hia & _).
    left. rewrite Hda, Hsel1, <- Hitems1. by apply list_elem_of_fmap_2. }
  exists (sendSelectionChanged (Some []) m2). split_and!.
  - unfold deleteSelected, mbind, JS_bind, bind, read, exec.
    fold m1. by rewrite Hrun.
  - exact Hi2.
  - exact Ha2.
  - unfold getGraph, getDependencies, getTasks.
    change (itemsContainer (sendSelectionChanged (Some []) m2))
      with (itemsContainer m2).
    change (arrows (sendSelectionChanged (Some []) m2)) with (arrows m2).
    by rewrite Hi2, Ha2.
  - cbn [dispatched sendSelectionChanged set_dispatched]. rewrite Ed, Hm1.
    cbn [dispatched sendSelectionChanged set_dispatched]. rewrite Hd.
    by rewrite <- app_assoc.
Qed.

End more.

(** * Runs on the sample page *)

Module runs.
Import sample.
#[local] Existing Instance sample.browser.

(** The example of the specification for [intersectLineBox]: from the
    center of a box of half-extents 10 expanded by 8, towards (100, 0), the
    boundary is crossed at (18, 0). *)
Lemma boundaryCrossing_example :
  ∃ p, boundaryCrossing (at_ 0 0) (at_ 100 0)
         (geometry.getExpandedBox
            {| geometry.left := -10; geometry.top := -10;
               geometry.right := 10; geometry.bottom := 10 |} 8)
       = Some p
       ∧ (geometry.x p == 18)%Q ∧ (geometry.y p == 0)%Q.
Proof. eexists. split; [vm_compute; reflexivity|]. split; reflexivity. Qed.

Ltac by_evaluation := apply (bool_decide_unpack _); vm_compute; exact I.

Lemma wf_page : wf page.
Proof. by_evaluation. Qed.

(** C1 at its failing input: A is selected with a click, a shift-press on A
    starts a link gesture, and the selection is deleted before the release
    (the Delete key calls [deleteSelected] whatever gesture is under way).
    The provisional path is a child of [arrows] with A as its tail, but it
    is not in [A.from] yet, so [deleteTask] does not reach it: A is removed
    and the path still refers to it.  The release over B then commits the
    path, and the document saved has a dependency from A to B and no
    task A. *)
Lemma deleteTask_during_link_gesture :
  let picked := run page [PointerDown (pointer 10 10 onA);
                          PointerEnd pointerup (pointer 10 10 None)] in
  let linking := run picked [PointerDown (shiftPointer 10 10 onA)] in
  let after := stateOf (deleteTask 0 linking) in
  let released :=
    run (stateOf (deleteSelected linking))
      [PointerMove (shiftPointer 60 20 None);
       PointerEnd pointerup (shiftPointer 210 10 None)] in
  getSelected linking = [0]
  ∧ itemsContainer linking = [0; 1; 2] ∧ arrows linking = [0; 1; 2]
  ∧ path_from (pathOf linking 2) = Some 0
  ∧ from (taskOf linking 0) = [0] ∧ to (taskOf linking 0) = []
  ∧ deleteTask 0 linking = Returned tt after
  ∧ itemsContainer after = [1; 2] ∧ arrows after = [1; 2]
  ∧ path_from (pathOf after 2) = Some 0
  ∧ deleteSelected linking
    = Returned tt (sendSelectionChanged (Some []) after)
  ∧ getGraph released
    = Returned
        {| tasks := [ {| name := "B"; status := completed; pos := at_ 200 0 |};
                      {| name := "C"; status := todo; pos := at_ 400 0 |} ];
           dependencies := [ {| predecessor := "B"; successor := "C" |};
                             {| predecessor := "A"; successor := "B" |} ] |}
        released.
Proof. vm_compute. split_and!; reflexivity. Qed.

(** Deleting B from A -> B -> C. *)
Lemma deleteTask_severs_page :
  wf page ∧ 1 ∈ itemsContainer page
  ∧ ∃ m', deleteTask 1 page = Returned tt m'
          ∧ itemsContainer m' = [0; 2] ∧ arrows m' = [] ∧ wf m'.
Proof.
  assert (Hwf : wf page) by by_evaluation.
  assert (Hin : 1 ∈ itemsContainer page) by by_evaluation.
  split; [exact Hwf|]. split; [exact Hin|].
  destruct (deleteTask_severs page 1 Hwf Hin)
    as (m1 & m' & _ & _ & _ & _ & _ & Hrun & _ & _ & _ & _ & Hwf').
  exists m'. split; [exact Hrun|].
  assert (Hm' : m' = stateOf (deleteTask 1 page)) by (by rewrite Hrun).
  split; [|split; [|exact Hwf']]; rewrite Hm'; vm_compute; reflexivity.
Defined.

(** The chain survives a round trip. *)
Lemma roundtrip_chain :
  NoDup (map name (tasks chain))
  ∧ ∃ m' document,
      loadGraph chain emptyModel = Returned tt m'
      ∧ getGraph m' = Returned document m'
      ∧ Permutation (tasks document) (tasks chain)
      ∧ Permutation (dependencies document) (dependencies chain).
Proof.
  assert (Hnd : NoDup (map name (tasks chain))) by by_evaluation.
  split; [exact Hnd|].
  apply (loadGraph_getGraph_roundtrip chain emptyModel Hnd).
  by_evaluation.
Defined.

(** C2, as stated, fails on a document with unique names whose dependency
    names a missing task: the dependency is dropped. *)
Lemma roundtrip_drops_unresolved :
  NoDup (map name (tasks dangling))
  ∧ ∃ m' document,
      loadGraph dangling emptyModel = Returned tt m'
      ∧ getGraph m' = Returned document m'
      ∧ dependencies document = []
      ∧ ¬ Permutation (dependencies document) (dependencies dangling).
Proof.
  split; [by_evaluation|].
  exists (stateOf (loadGraph dangling emptyModel)).
  exists {| tasks := tasks dangling; dependencies := [] |}.
  split; [vm_compute; reflexivity|]. split; [vm_compute; reflexivity|].
  split; [reflexivity|]. simpl. apply Permutation_nil_cons.
Qed.

(** Dragging A by 20 units moves it; a press on A released after a move of
    2 units is a click that selects A alone. *)
Lemma drag_gesture_page :
  listeners page = []
  ∧ asTask page (target (pointer 10 10 onA)) = Some 0
  ∧ dispatched
      (handle
         (run page (PointerDown (pointer 10 10 onA)
                    :: map PointerMove [pointer 30 10 None]))
         (PointerEnd pointerup (pointer 30 10 None)))
    = dispatched page ++ [taskmoved 0]
  ∧ 0 ∈ getSelected
          (handle
             (run page (PointerDown (pointer 10 10 onA)
                        :: map PointerMove [pointer 12 10 None]))
             (PointerEnd pointerup (pointer 12 10 None)))
  ∧ dispatched
      (handle
         (run page (PointerDown (pointer 10 10 onA)
                    :: map PointerMove [pointer 12 10 None]))
         (PointerEnd pointerup (pointer 12 10 None)))
    = dispatched page ++ [selectionchanged [0]].
Proof.
  assert (Hl : listeners page = []) by (vm_compute; reflexivity).
  assert (Ht : asTask page (target (pointer 10 10 onA)) = Some 0)
    by (vm_compute; reflexivity).
  assert (Hin : 0 ∈ getTasks page) by by_evaluation.
  split; [exact Hl|]. split; [exact Ht|]. split.
  - destruct (drag_gesture_taskmoved page 0 (pointer 10 10 onA)
                [pointer 30 10 None] pointerup (pointer 30 10 None)
                Hl Ht eq_refl eq_refl) as (_ & _ & [[_ Hd]|[Hn _]]).
    + exact Hd.
    + exfalso. apply Hn. apply Exists_cons_hd. split; [reflexivity|].
      vm_compute. reflexivity.
  - destruct (drag_gesture_taskmoved page 0 (pointer 10 10 onA)
                [pointer 12 10 None] pointerup (pointer 12 10 None)
                Hl Ht eq_refl eq_refl)
      as (_ & _ & [[Hex _]|(_ & _ & _ & Hsel & Hd)]).
    + exfalso. apply Exists_cons in Hex as [[_ Hlt]|Hex].
      * vm_compute in Hlt. discriminate.
      * by apply Exists_nil in Hex.
    + split; [|exact Hd]. apply Hsel. split; [reflexivity|exact Hin].
Defined.

Lemma drag_move_page :
  listeners dragging = [TaskDrag 0 1 (at_ 10 10) 10 10 false]
  ∧ Forall (committed dragging)
      (from (taskOf dragging 0) ++ to (taskOf dragging 0))
  ∧ style_left (taskOf (handle dragging (PointerMove (pointer 12 10 None))) 0)
    = (offsetX (pointer 12 10 None) - 10)%Q.
Proof.
  assert (Hl : listeners dragging = [TaskDrag 0 1 (at_ 10 10) 10 10 false])
    by (vm_compute; reflexivity).
  assert (Hc : Forall (committed dragging)
                 (from (taskOf dragging 0) ++ to (taskOf dragging 0)))
    by by_evaluation.
  split; [exact Hl|]. split; [exact Hc|].
  destruct (drag_move_repositions dragging 0 1 (at_ 10 10) 10 10 false
              (pointer 12 10 None) Hl eq_refl Hc) as (Hx & _).
  exact Hx.
Defined.

(** C6, as stated, fails on a move below the threshold: the pointer is 2
    units from where it went down, and the task has left its position. *)
Lemma drag_below_threshold_moves_task :
  ¬ exceeded (at_ 10 10) 1 (pointer 12 10 None)
  ∧ listeners (handle dragging (PointerMove (pointer 12 10 None)))
    = [TaskDrag 0 1 (at_ 10 10) 10 10 false]
  ∧ style_left (taskOf dragging 0) = 0%Q
  ∧ style_left (taskOf (handle dragging (PointerMove (pointer 12 10 None))) 0)
    = 2%Q
  ∧ ¬ (2 == 0)%Q.
Proof.
  split; [intros [_ Hlt]; vm_compute in Hlt; discriminate|].
  split; [vm_compute; reflexivity|]. split; [vm_compute; reflexivity|].
  split; [vm_compute; reflexivity|]. intros Heq. vm_compute in Heq. discriminate.
Qed.

(** A dependency to a task that is not on the page. *)
Lemma addDependency_unknown_page :
  ¬ resolves page "Z"
  ∧ ∃ message,
      addDependency {| predecessor := "A"; successor := "Z" |} page
      = Returned tt
          (consoleError message {| predecessor := "A"; successor := "Z" |} page).
Proof.
  assert (Hz : ¬ resolves page "Z") by by_evaluation.
  split; [exact Hz|].
  destruct (addDependency_endpoint_not_found
              {| predecessor := "A"; successor := "Z" |} page (or_intror Hz))
    as (message & Hrun & _).
  exists message. exact Hrun.
Defined.

(** Completing everything on the page. *)
Lemma completeSelected_page :
  NoDup (itemsContainer (selectAll page))
  ∧ getSelected (completeSelected (selectAll page)) = getSelected (selectAll page)
  ∧ map (fun e => status (taskRecord (completeSelected (selectAll page)) e))
      (getTasks (selectAll page))
    = [completed; todo; completed].
Proof.
  assert (Hnd : NoDup (itemsContainer (selectAll page))) by by_evaluation.
  split; [exact Hnd|].
  destruct (completeSelected_toggles (selectAll page) Hnd)
    as (_ & _ & _ & Hsel & _).
  split; [exact Hsel|]. vm_compute. reflexivity.
Defined.

(** C9 at its failing inputs: the empty page after one wheel step up, and
    the same page after a pan by (10, 20).  Whatever the origin of the
    transform of [itemsContainer], in one of the two states the box of a
    task added without a position is not shown centered on the center of
    the viewport, (400, 300): with the origin at the corner the first state
    shows the center at x = 440, with the origin at the center of the
    viewport the second shows it at x = 399. *)
Lemma addTask_misses_view_center :
  let task := {| add_name := "A"; add_status := None; add_pos := None |} in
  let shown (origin : geometry.Point) (m : Model) :=
    panzoomTransform origin (panzoom (snd (addTask task m)))
      (geometry.getBoxCenter
         (getOffsetBox (snd (addTask task m)) (fst (addTask task m)))) in
  let v := geometry.getBoxCenter graphContainerBox in
  zoom (panzoom zoomed) = 1.1%Q ∧ pan (panzoom zoomed) = at_ 0 0
  ∧ zoom (panzoom zoomedPanned) = 1.1%Q
  ∧ pan (panzoom zoomedPanned) = at_ 10 20
  ∧ (geometry.x v == 400)%Q
  ∧ (∀ origin,
       ¬ ((geometry.x (shown origin zoomed) == geometry.x v)%Q
          ∧ (geometry.x (shown origin zoomedPanned) == geometry.x v)%Q))
  ∧ (geometry.x (shown (at_ 0 0) zoomed) == 440)%Q
  ∧ (geometry.x (shown v zoomedPanned) == 399)%Q.
Proof.
  intros task shown v.
  assert (Ez : zoom (panzoom zoomed) = 1.1%Q) by (vm_compute; reflexivity).
  assert (Ep : pan (panzoom zoomed) = at_ 0 0) by (vm_compute; reflexivity).
  assert (Ez' : zoom (panzoom zoomedPanned) = 1.1%Q) by (vm_compute; reflexivity).
  assert (Ep' : pan (panzoom zoomedPanned) = at_ 10 20)
    by (vm_compute; reflexivity).
  assert (Ev : (geometry.x v == 400)%Q) by (vm_compute; reflexivity).
  assert (Hshown : ∀ origin,
            (geometry.x (shown origin zoomed)
             == geometry.x v + (1 - 1.1) * (0 + geometry.x origin - geometry.x v))%Q
            ∧ (geometry.x (shown origin zoomedPanned)
               == geometry.x v
                  + (1 - 1.1) * (10 + geometry.x origin - geometry.x v))%Q).
  { intros origin.
    destruct (addTask_center_shown task zoomed origin eq_refl) as [H1 _].
    destruct (addTask_center_shown task zoomedPanned origin eq_refl) as [H2 _].
    cbv zeta in H1, H2. rewrite Ez, Ep in H1. rewrite Ez', Ep' in H2.
    split; [exact H1|exact H2]. }
  split_and!; [done|done|done|done|done| |vm_compute; reflexivity
              |vm_compute; reflexivity].
  intros origin [H1 H2]. destruct (Hshown origin) as [E1 E2].
  rewrite E1 in H1. rewrite E2 in H2. lra.
Qed.

(** C3 at its failing input: in link mode, press on A, move, release over
    A itself.  The provisional path is committed as a dependency from A to
    A and [newdependency] is dispatched. *)
Lemma link_release_on_pressed_task :
  let m := run linkPage [PointerDown (pointer 10 10 onA);
                         PointerMove (pointer 60 20 None);
                         PointerEnd pointerup (pointer 50 20 None)] in
  elementFromPoint linkPage 50 20 = onA
  ∧ getGraph m
    = Returned
        {| tasks := tasks chain;
           dependencies :=
             dependencies chain ++ [ {| predecessor := "A"; successor := "A" |} ] |}
        m
  ∧ dispatched m = dispatched linkPage ++ [newdependency].
Proof. vm_compute. split_and!; reflexivity. Qed.

(** C4 at its failing input: in link mode, press on A and release without
    any move.  The click selects A, and the release still commits a
    dependency from A to A and dispatches [newdependency]. *)
Lemma link_click_also_links :
  let m := run linkPage [PointerDown (pointer 10 10 onA);
                         PointerEnd pointerup (pointer 10 10 None)] in
  getSelected m = [0]
  ∧ getGraph m
    = Returned
        {| tasks := tasks chain;
           dependencies :=
             dependencies chain ++ [ {| predecessor := "A"; successor := "A" |} ] |}
        m
  ∧ dispatched m
    = dispatched linkPage ++ [selectionchanged [0]; newdependency].
Proof. vm_compute. split_and!; reflexivity. Qed.

(** In link mode a move of one unit already counts as movement: no click,
    and a release over B links A to B. *)
Lemma link_small_move_links :
  let m := run linkPage [PointerDown (pointer 10 10 onA);
                         PointerMove (pointer 11 10 None);
                         PointerEnd pointerup (pointer 210 10 None)] in
  ¬ exceeded (at_ 10 10) 1 (pointer 11 10 None)
  ∧ getSelected m = []
  ∧ dispatched m = dispatched linkPage ++ [newdependency]
  ∧ ∃ document,
      getGraph m = Returned document m
      ∧ dependencies document
        = dependencies chain ++ [ {| predecessor := "A"; successor := "B" |} ].
Proof.
  split; [intros [_ Hlt]; vm_compute in Hlt; discriminate|].
  split; [vm_compute; reflexivity|]. split; [vm_compute; reflexivity|].
  eexists. split; [vm_compute; reflexivity|]. reflexivity.
Qed.


(** ** Instances of the further properties *)

Lemma removeFromArray_first_example :
  (3 ∉ [1; 2])
  ∧ misc.removeFromArray ([1; 2] ++ 3 :: [4; 3]) 3 = [1; 2] ++ [4; 3].
Proof.
  assert (H : 3 ∉ [1; 2]) by by_evaluation.
  split; [exact H|]. exact (removeFromArray_first [1; 2] [4; 3] 3 H).
Defined.

Lemma removeFromArray_absent_example :
  (9 ∉ [1; 2; 3])
  ∧ misc.removeFromArray [1; 2; 3] 9 = removelast [1; 2; 3].
Proof.
  assert (H : 9 ∉ [1; 2; 3]) by by_evaluation.
  split; [exact H|].
  destruct (removeFromArray_absent [1; 2; 3] 9 H) as [E _]. exact E.
Defined.

Lemma onwheel_zoom_example :
  (0 < zoom (panzoom zoomed))%Q
  ∧ (0 < zoom (panzoom (onwheel 1 zoomed)))%Q.
Proof.
  assert (H : (0 < zoom (panzoom zoomed))%Q) by (vm_compute; reflexivity).
  split; [exact H|].
  destruct (onwheel_zoom 1 zoomed H) as (A & _). exact A.
Defined.

Lemma background_press_example :
  asTask page (target (pointer 500 500 None)) = None
  ∧ getSelected (handle page (PointerDown (pointer 500 500 None))) = [].
Proof.
  assert (H : asTask page (target (pointer 500 500 None)) = None)
    by by_evaluation.
  split; [exact H|].
  destruct (background_press_clears_selection page (pointer 500 500 None) H)
    as (A & _).
  exact A.
Defined.

Lemma plain_click_example :
  NoDup (itemsContainer page) ∧ 0 ∈ getTasks page
  ∧ shiftKey (pointer 10 10 onA) = false
  ∧ getSelected (onTaskClicked 0 (pointer 10 10 onA) page) = [0].
Proof.
  assert (H1 : NoDup (itemsContainer page)) by by_evaluation.
  assert (H2 : 0 ∈ getTasks page) by by_evaluation.
  assert (H3 : shiftKey (pointer 10 10 onA) = false) by reflexivity.
  split; [exact H1|]. split; [exact H2|]. split; [exact H3|].
  destruct (plain_click_selects_only page 0 (pointer 10 10 onA) H1 H2 H3)
    as (A & _).
  exact A.
Defined.

Lemma shift_click_example :
  shiftKey (shiftPointer 10 10 onA) = true
  ∧ getTasks (onTaskClicked 0 (shiftPointer 10 10 onA) page) = getTasks page.
Proof.
  assert (H : shiftKey (shiftPointer 10 10 onA) = true) by reflexivity.
  split; [exact H|].
  destruct (shift_click_toggles page 0 (shiftPointer 10 10 onA) H)
    as (_ & _ & A & _).
  exact A.
Defined.

Lemma pan_gesture_example :
  listeners page = []
  ∧ asTask page (target (pointer 500 500 None)) = None
  ∧ listeners
      (handle (run page (PointerDown (pointer 500 500 None)
                           :: map PointerMove [pointer 510 520 None]))
         (PointerEnd pointerup (pointer 510 520 None)))
    = [].
Proof.
  assert (H1 : listeners page = []) by (vm_compute; reflexivity).
  assert (H2 : asTask page (target (pointer 500 500 None)) = None)
    by by_evaluation.
  split; [exact H1|]. split; [exact H2|].
  destruct (pan_gesture page (pointer 500 500 None) [pointer 510 520 None]
              (pointer 510 520 None) H1 H2)
    as (_ & _ & _ & A & _).
  exact A.
Defined.

Lemma foreign_pointer_example :
  Forall (fun l => ∃ pid, pointerOf l = Some pid
                          ∧ pid ≠ pointerId (otherPointer 60 20 None))
    (listeners dragging)
  ∧ handle dragging (PointerMove (otherPointer 60 20 None)) = dragging.
Proof.
  assert (E : listeners dragging = [TaskDrag 0 1 (at_ 10 10) 10 10 false])
    by (vm_compute; reflexivity).
  assert (H : Forall (fun l => ∃ pid, pointerOf l = Some pid
                                      ∧ pid ≠ pointerId (otherPointer 60 20 None))
                (listeners dragging)).
  { rewrite E. constructor; [|constructor].
    exists 1%Z. split; [reflexivity|discriminate]. }
  split; [exact H|].
  destruct (foreign_pointer_ignored dragging (otherPointer 60 20 None) H)
    as [A _].
  exact A.
Defined.

Lemma deleteSelected_example :
  wf (selectAll page)
  ∧ ∃ m', deleteSelected (selectAll page) = Returned tt m'
          ∧ getSelected m' = [].
Proof.
  assert (H : wf (selectAll page)) by by_evaluation.
  split; [exact H|].
  destruct (deleteSelected_removes (selectAll page) H) as (m' & A & _ & B & _).
  exists m'. split; [exact A|exact B].
Defined.

Lemma link_gesture_discarded_example :
  listeners linkPage = []
  ∧ asTask linkPage (target (pointer 10 10 onA)) = Some 0
  ∧ shiftKey (pointer 10 10 onA) || linkModeCheckbox linkPage = true
  ∧ [pointer 60 20 None] ≠ []
  ∧ Forall (fun ev => pointerId ev = pointerId (pointer 10 10 onA))
      [pointer 60 20 None]
  ∧ pointerId (pointer 500 500 None) = pointerId (pointer 10 10 onA)
  ∧ asTask
      (run linkPage (PointerDown (pointer 10 10 onA)
                       :: map PointerMove [pointer 60 20 None]))
      (elementFromPoint
         (run linkPage (PointerDown (pointer 10 10 onA)
                          :: map PointerMove [pointer 60 20 None]))
         (pageX (pointer 500 500 None)) (pageY (pointer 500 500 None)))
    = None
  ∧ arrows
      (handle (run linkPage (PointerDown (pointer 10 10 onA)
                               :: map PointerMove [pointer 60 20 None]))
         (PointerEnd pointerup (pointer 500 500 None)))
    = arrows linkPage.
Proof.
  assert (H1 : listeners linkPage = []) by (vm_compute; reflexivity).
  assert (H2 : asTask linkPage (target (pointer 10 10 onA)) = Some 0)
    by by_evaluation.
  assert (H3 : shiftKey (pointer 10 10 onA) || linkModeCheckbox linkPage = true)
    by (vm_compute; reflexivity).
  assert (H4 : [pointer 60 20 None] ≠ []) by discriminate.
  assert (H5 : Forall (fun ev => pointerId ev = pointerId (pointer 10 10 onA))
                 [pointer 60 20 None]) by by_evaluation.
  assert (H6 : pointerId (pointer 500 500 None) = pointerId (pointer 10 10 onA))
    by reflexivity.
  assert (H7 : asTask
                 (run linkPage (PointerDown (pointer 10 10 onA)
                                  :: map PointerMove [pointer 60 20 None]))
                 (elementFromPoint
                    (run linkPage (PointerDown (pointer 10 10 onA)
                                     :: map PointerMove [pointer 60 20 None]))
                    (pageX (pointer 500 500 None)) (pageY (pointer 500 500 None)))
               = None) by by_evaluation.
  split_and!; [exact H1|exact H2|exact H3|exact H4|exact H5|exact H6|exact H7|].
  destruct (link_gesture_discarded linkPage 0 (pointer 10 10 onA)
              [pointer 60 20 None] pointerup (pointer 500 500 None)
              H1 H2 H3 H4 H5 H6 H7) as (A & _).
  exact A.
Defined.


Lemma link_gesture_adds_dependency_example :
  listeners linkPage = []
  ∧ asTask linkPage (target (pointer 10 10 onA)) = Some 0
  ∧ shiftKey (pointer 10 10 onA) || linkModeCheckbox linkPage = true
  ∧ [pointer 60 20 None] ≠ []
  ∧ Forall (fun ev => pointerId ev = pointerId (pointer 10 10 onA))
      [pointer 60 20 None]
  ∧ pointerId (pointer 210 10 None) = pointerId (pointer 10 10 onA)
  ∧ getGraph linkPage = Returned chain linkPage
  ∧ asTask
      (run linkPage (PointerDown (pointer 10 10 onA)
                       :: map PointerMove [pointer 60 20 None]))
      (elementFromPoint
         (run linkPage (PointerDown (pointer 10 10 onA)
                          :: map PointerMove [pointer 60 20 None]))
         (pageX (pointer 210 10 None)) (pageY (pointer 210 10 None)))
    = Some 1
  ∧ dispatched
      (handle (run linkPage (PointerDown (pointer 10 10 onA)
                               :: map PointerMove [pointer 60 20 None]))
         (PointerEnd pointerup (pointer 210 10 None)))
    = dispatched linkPage ++ [newdependency].
Proof.
  assert (H1 : listeners linkPage = []) by (vm_compute; reflexivity).
  assert (H2 : asTask linkPage (target (pointer 10 10 onA)) = Some 0)
    by by_evaluation.
  assert (H3 : shiftKey (pointer 10 10 onA) || linkModeCheckbox linkPage = true)
    by (vm_compute; reflexivity).
  assert (H4 : [pointer 60 20 None] ≠ []) by discriminate.
  assert (H5 : Forall (fun ev => pointerId ev = pointerId (pointer 10 10 onA))
                 [pointer 60 20 None]) by by_evaluation.
  assert (H6 : pointerId (pointer 210 10 None) = pointerId (pointer 10 10 onA))
    by reflexivity.
  assert (H7 : getGraph linkPage = Returned chain linkPage)
    by (vm_compute; reflexivity).
  assert (H8 : asTask
                 (run linkPage (PointerDown (pointer 10 10 onA)
                                  :: map PointerMove [pointer 60 20 None]))
                 (elementFromPoint
                    (run linkPage (PointerDown (pointer 10 10 onA)
                                     :: map PointerMove [pointer 60 20 None]))
                    (pageX (pointer 210 10 None)) (pageY (pointer 210 10 None)))
               = Some 1) by by_evaluation.
  split_and!;
    [exact H1|exact H2|exact H3|exact H4|exact H5|exact H6|exact H7|exact H8|].
  destruct (link_gesture_adds_dependency linkPage 0 1 (pointer 10 10 onA)
              [pointer 60 20 None] pointerup (pointer 210 10 None) chain
              H1 H2 H3 H4 H5 H6 H7 H8) as (_ & A & _).
  exact A.
Defined.

Lemma link_gesture_keeps_wf_example :
  wf linkPage
  ∧ 0 ∈ itemsContainer linkPage ∧ 1 ∈ itemsContainer linkPage
  ∧ listeners linkPage = []
  ∧ asTask linkPage (target (pointer 10 10 onA)) = Some 0
  ∧ shiftKey (pointer 10 10 onA) || linkModeCheckbox linkPage = true
  ∧ [pointer 60 20 None] ≠ []
  ∧ Forall (fun ev => pointerId ev = pointerId (pointer 10 10 onA))
      [pointer 60 20 None]
  ∧ pointerId (pointer 210 10 None) = pointerId (pointer 10 10 onA)
  ∧ asTask
      (run linkPage (PointerDown (pointer 10 10 onA)
                       :: map PointerMove [pointer 60 20 None]))
      (elementFromPoint
         (run linkPage (PointerDown (pointer 10 10 onA)
                          :: map PointerMove [pointer 60 20 None]))
         (pageX (pointer 210 10 None)) (pageY (pointer 210 10 None)))
    = Some 1
  ∧ wf (handle (run linkPage (PointerDown (pointer 10 10 onA)
                                :: map PointerMove [pointer 60 20 None]))
          (PointerEnd pointerup (pointer 210 10 None))).
Proof.
  assert (H0 : wf linkPage) by by_evaluation.
  assert (Ha : 0 ∈ itemsContainer linkPage) by by_evaluation.
  assert (Hb : 1 ∈ itemsContainer linkPage) by by_evaluation.
  assert (H1 : listeners linkPage = []) by (vm_compute; reflexivity).
  assert (H2 : asTask linkPage (target (pointer 10 10 onA)) = Some 0)
    by by_evaluation.
  assert (H3 : shiftKey (pointer 10 10 onA) || linkModeCheckbox linkPage = true)
    by (vm_compute; reflexivity).
  assert (H4 : [pointer 60 20 None] ≠ []) by discriminate.
  assert (H5 : Forall (fun ev => pointerId ev = pointerId (pointer 10 10 onA))
                 [pointer 60 20 None]) by by_evaluation.
  assert (H6 : pointerId (pointer 210 10 None) = pointerId (pointer 10 10 onA))
    by reflexivity.
  assert (H8 : asTask
                 (run linkPage (PointerDown (pointer 10 10 onA)
                                  :: map PointerMove [pointer 60 20 None]))
                 (elementFromPoint
                    (run linkPage (PointerDown (pointer 10 10 onA)
                                     :: map PointerMove [pointer 60 20 None]))
                    (pageX (pointer 210 10 None)) (pageY (pointer 210 10 None)))
               = Some 1) by by_evaluation.
  split_and!;
    [exact H0|exact Ha|exact Hb|exact H1|exact H2|exact H3|exact H4|exact H5
    |exact H6|exact H8|].
  destruct (link_gesture_keeps_wf linkPage 0 1 (pointer 10 10 onA)
              [pointer 60 20 None] pointerup (pointer 210 10 None)
              H0 Ha Hb H1 H2 H3 H4 H5 H6 H8) as (A & _).
  exact A.
Defined.

Lemma getGraph_during_link_gesture_example :
  listeners linkPage = []
  ∧ asTask linkPage (target (pointer 10 10 onA)) = Some 0
  ∧ shiftKey (pointer 10 10 onA) || linkModeCheckbox linkPage = true
  ∧ Forall (fun ev => pointerId ev = pointerId (pointer 10 10 onA))
      [pointer 60 20 None]
  ∧ getGraph (run linkPage (PointerDown (pointer 10 10 onA)
                              :: map PointerMove [pointer 60 20 None]))
    = Thrown TypeError
        (run linkPage (PointerDown (pointer 10 10 onA)
                         :: map PointerMove [pointer 60 20 None])).
Proof.
  assert (H1 : listeners linkPage = []) by (vm_compute; reflexivity).
  assert (H2 : asTask linkPage (target (pointer 10 10 onA)) = Some 0)
    by by_evaluation.
  assert (H3 : shiftKey (pointer 10 10 onA) || linkModeCheckbox linkPage = true)
    by (vm_compute; reflexivity).
  assert (H5 : Forall (fun ev => pointerId ev = pointerId (pointer 10 10 onA))
                 [pointer 60 20 None]) by by_evaluation.
  split_and!; [exact H1|exact H2|exact H3|exact H5|].
  destruct (getGraph_during_link_gesture linkPage 0 (pointer 10 10 onA)
              [pointer 60 20 None] H1 H2 H3 H5) as (A & _).
  exact A.
Defined.

Lemma getGraph_closed_example :
  wf page ∧ ∃ document, getGraph page = Returned document page.
Proof.
  assert (H : wf page) by by_evaluation.
  split; [exact H|].
  destruct (getGraph_closed page H) as (document & A & _).
  exists document. exact A.
Defined.

Lemma completeSelected_twice_example :
  NoDup (itemsContainer (selectAll page))
  ∧ getSelected (selectAll page) = [0; 1; 2]
  ∧ status (taskRecord (completeSelected (selectAll page)) 0) = completed
  ∧ getSelected (completeSelected (completeSelected (selectAll page)))
    = getSelected (selectAll page)
  ∧ taskOf (completeSelected (completeSelected (selectAll page))) 0
    = taskOf (selectAll page) 0.
Proof.
  assert (H : NoDup (itemsContainer (selectAll page))) by by_evaluation.
  assert (Hs : getSelected (selectAll page) = [0; 1; 2])
    by (vm_compute; reflexivity).
  assert (Hc : status (taskRecord (completeSelected (selectAll page)) 0)
               = completed) by (vm_compute; reflexivity).
  split; [exact H|]. split; [exact Hs|]. split; [exact Hc|].
  destruct (completeSelected_twice (selectAll page) H) as (A & B & _).
  split; [exact B|exact (A 0)].
Defined.

Lemma pan_survives_cancel_example :
  listeners panning = [GraphDrag (at_ 500 500)]
  ∧ handle panning (PointerEnd pointercancel (pointer 510 520 None)) = panning.
Proof.
  assert (H : listeners panning = [GraphDrag (at_ 500 500)])
    by (vm_compute; reflexivity).
  split; [exact H|].
  destruct (pan_survives_cancel panning (at_ 500 500) (pointer 510 520 None)
              (pointer 530 540 None) H) as (A & _).
  exact A.
Defined.

Lemma addDependency_first_match_example :
  getTasks twinsPage = [] ++ 0 :: [1; 2]
  ∧ Forall (fun t => textContent (taskOf twinsPage t) ≠ "A") []
  ∧ textContent (taskOf twinsPage 0) = "A"
  ∧ getTasks twinsPage = [0; 1] ++ 2 :: []
  ∧ Forall (fun t => textContent (taskOf twinsPage t) ≠ "B") [0; 1]
  ∧ textContent (taskOf twinsPage 2) = "B"
  ∧ ∃ m' d,
      addDependency {| predecessor := "A"; successor := "B" |} twinsPage
      = Returned tt m'
      ∧ path_from (pathOf m' d) = Some 0 ∧ path_to (pathOf m' d) = Some 2.
Proof.
  assert (H1 : getTasks twinsPage = [] ++ 0 :: [1; 2]) by (vm_compute; reflexivity).
  assert (H2 : Forall (fun t => textContent (taskOf twinsPage t) ≠ "A") [])
    by constructor.
  assert (H3 : textContent (taskOf twinsPage 0) = "A") by (vm_compute; reflexivity).
  assert (H4 : getTasks twinsPage = [0; 1] ++ 2 :: []) by (vm_compute; reflexivity).
  assert (H5 : Forall (fun t => textContent (taskOf twinsPage t) ≠ "B") [0; 1])
    by by_evaluation.
  assert (H6 : textContent (taskOf twinsPage 2) = "B") by (vm_compute; reflexivity).
  split_and!; [exact H1|exact H2|exact H3|exact H4|exact H5|exact H6|].
  destruct (addDependency_first_match {| predecessor := "A"; successor := "B" |}
              twinsPage 0 2 [] [1; 2] [0; 1] [] H1 H2 H3 H4 H5 H6)
    as (m' & d & A & _ & B & C & _).
  exists m', d. split; [exact A|]. split; [exact B|exact C].
Defined.

Lemma addTask_getGraph_example :
  wf page
  ∧ getGraph page = Returned chain page
  ∧ name (taskRecord
            (snd (addTask {| add_name := "D"; add_status := None;
                             add_pos := None |} page))
            (fst (addTask {| add_name := "D"; add_status := None;
                             add_pos := None |} page)))
    = "D".
Proof.
  assert (H1 : wf page) by by_evaluation.
  assert (H2 : getGraph page = Returned chain page) by (vm_compute; reflexivity).
  split; [exact H1|]. split; [exact H2|].
  destruct (addTask_getGraph {| add_name := "D"; add_status := None;
                                add_pos := None |} page chain H1 H2)
    as (_ & A & _).
  exact A.
Defined.

Lemma deleteDependency_removes_example :
  wf page ∧ 0 ∈ arrows page
  ∧ ∃ m', deleteDependency 0 page = Returned tt m' ∧ wf m'.
Proof.
  assert (H1 : wf page) by by_evaluation.
  assert (H2 : 0 ∈ arrows page) by by_evaluation.
  split; [exact H1|]. split; [exact H2|].
  destruct (deleteDependency_removes page 0 H1 H2) as (m' & A & _ & _ & _ & B).
  exists m'. split; [exact A|exact B].
Defined.

Lemma selectAll_deleteSelected_example :
  wf page
  ∧ ∃ m', deleteSelected (selectAll page) = Returned tt m'
          ∧ itemsContainer m' = [].
Proof.
  assert (H : wf page) by by_evaluation.
  split; [exact H|].
  destruct (selectAll_deleteSelected page H) as (m' & A & B & _).
  exists m'. split; [exact A|exact B].
Defined.


Lemma loadGraph_wf_example :
  wf emptyModel
  ∧ ∃ m', loadGraph dangling emptyModel = Returned tt m' ∧ wf m'.
Proof.
  assert (H : wf emptyModel) by by_evaluation.
  split; [exact H|]. exact (loadGraph_wf dangling emptyModel H).
Defined.

End runs.
